(** * dolfyn.adp.rotate: beam / instrument / earth rotations of ADP velocity data

    A shallow embedding of [dolfyn/adp/rotate.py] and the properties of
    its four functions [calc_beam_rotmatrix], [beam2inst], [inst2earth]
    and [inst2earth_heading].

    Numbers.  NumPy's float64 values are modelled by the real numbers
    [R], with [np.sin], [np.cos], [np.tan], [np.arctan] and [np.pi]
    read as [sin], [cos], [tan], [atan] and [PI]: the theorems below are
    statements about the exact arithmetic that the floating-point code
    approximates.

    Arrays.  An [ndarray] is a shape together with an indexing function;
    only the items whose index lies inside the shape are meaningful.

    State.  The data object [adcpo] is a record that the Python code
    mutates in place.  A call is a function from the record before the
    call to the record after it, paired with either the exception that
    was raised or the returned value. *)

From Stdlib Require Import Reals Lra Lia RNsatz ZArith List Ascii String.
From stdpp Require Import gmap strings.
Import ListNotations.

Local Open Scope R_scope.

(** ** Python values stored in the [props] dictionary *)

Inductive pyval : Type :=
| PStr (s : string)
| PNum (x : R)
| PBool (b : bool).

Inductive exn : Type :=
| ValueError (msg : string)
| KeyError (key : string)
| TypeError
| AttributeError
| LinAlgError
| Exception (msg : string).

(** Truth value of a Python object, as [if v:] and [not v] take it. *)
Definition truthy (v : pyval) : bool :=
  match v with
  | PBool b => b
  | PNum x => if Req_dec_T x 0 then false else true
  | PStr s => negb (String.eqb s "")
  end.

(** [v == s] for a string literal [s]. *)
Definition py_eq_str (v : pyval) (s : string) : bool :=
  match v with
  | PStr s' => String.eqb s' s
  | _ => false
  end.

(** The number a value contributes in arithmetic ([bool] is an [int]);
    a string operand makes NumPy raise [TypeError]. *)
Definition py_number (v : pyval) : exn + R :=
  match v with
  | PNum x => inr x
  | PBool b => inr (if b then 1 else 0)
  | PStr _ => inl TypeError
  end.

Definition lower_ascii (c : ascii) : ascii :=
  let n := nat_of_ascii c in
  if (65 <=? n)%nat && (n <=? 90)%nat then ascii_of_nat (n + 32) else c.

(** [str.lower] on the ASCII range. *)
Fixpoint lower (s : string) : string :=
  match s with
  | EmptyString => EmptyString
  | String c s' => String (lower_ascii c) (lower s')
  end.

(** [v.lower()]: only strings have the method. *)
Definition py_lower (v : pyval) : exn + string :=
  match v with
  | PStr s => inr (lower s)
  | _ => inl AttributeError
  end.

(** [str.replace(old, new)] for a non-empty [old]: [skip] counts the
    characters of a match that are still to be dropped. *)
Fixpoint replace_from (old new : string) (skip : nat) (s : string) : string :=
  match s with
  | EmptyString => EmptyString
  | String c s' =>
      match skip with
      | S k => replace_from old new k s'
      | O =>
          if String.prefix old s
          then (new ++ replace_from old new (String.length old - 1) s')%string
          else String c (replace_from old new 0 s')
      end
  end.

Definition replace (old new s : string) : string := replace_from old new 0 s.

(** ** NumPy arrays *)

Record ndarray : Type := mk_ndarray {
  shape : list nat;
  item : list nat -> R
}.

(** [sum(f(k) for k in range(n))] *)
Fixpoint rsum (n : nat) (f : nat -> R) : R :=
  match n with
  | O => 0
  | S k => rsum k f + f k
  end.

(** [np.array(rows)] for a list of rows. *)
Definition np_array2 (rows : list (list R)) : ndarray :=
  {| shape := [length rows; length (hd [] rows)];
     item := fun ix =>
       match ix with
       | [i; j] => nth j (nth i rows []) 0
       | _ => 0
       end |}.

(** [a[:3]]: the first three entries along axis 0. *)
Definition first3 (a : ndarray) : ndarray :=
  {| shape := match shape a with
              | n :: rest => Nat.min 3 n :: rest
              | [] => []
              end;
     item := item a |}.

(** [a[:3] = b]: the items of [b] replace those of the first three
    entries of [a]; the shapes have to agree. *)
Definition assign_first3 (a b : ndarray) : exn + ndarray :=
  if decide (shape (first3 a) = shape b)
  then inr {| shape := shape a;
              item := fun ix =>
                match ix with
                | i :: _ => if (i <? 3)%nat then item b ix else item a ix
                | [] => item a ix
                end |}
  else inl (ValueError "could not broadcast input array").

(** [a.mean(-1)] of a three-dimensional array. *)
Definition mean_last (a : ndarray) : ndarray :=
  match shape a with
  | [n0; n1; n2] =>
      {| shape := [n0; n1];
         item := fun ix =>
           match ix with
           | [i; j] => rsum n2 (fun t => item a [i; j; t]) / INR n2
           | _ => 0
           end |}
  | _ => a
  end.

(** [np.einsum(ess, a, b)] for the subscript strings that [rotate.py]
    forms.  Equal labels must have equal extents (the stretching of
    length-one axes that NumPy also accepts is not modelled: it is an
    error here); the label missing from the output is summed over. *)
Definition einsum (ess : string) (a b : ndarray) : exn + ndarray :=
  let bad := inl (ValueError "operands could not be broadcast together") in
  if String.eqb ess "ij,jkl->ikl" then
    match shape a, shape b with
    | [ni; nj], [nj'; nk; nl] =>
        if decide (nj = nj')
        then inr {| shape := [ni; nk; nl];
                    item := fun ix =>
                      match ix with
                      | [i; k; l] =>
                          rsum nj (fun j => item a [i; j] * item b [j; k; l])
                      | _ => 0
                      end |}
        else bad
    | _, _ => bad
    end
  else if String.eqb ess "ijt,jdt->idt" then
    match shape a, shape b with
    | [ni; nj; nt], [nj'; nd; nt'] =>
        if decide (nj = nj' /\ nt = nt')
        then inr {| shape := [ni; nd; nt];
                    item := fun ix =>
                      match ix with
                      | [i; d; t] =>
                          rsum nj (fun j => item a [i; j; t] * item b [j; d; t])
                      | _ => 0
                      end |}
        else bad
    | _, _ => bad
    end
  else if String.eqb ess "jit,jdt->idt" then
    match shape a, shape b with
    | [nj; ni; nt], [nj'; nd; nt'] =>
        if decide (nj = nj' /\ nt = nt')
        then inr {| shape := [ni; nd; nt];
                    item := fun ix =>
                      match ix with
                      | [i; d; t] =>
                          rsum nj (fun j => item a [j; i; t] * item b [j; d; t])
                      | _ => 0
                      end |}
        else bad
    | _, _ => bad
    end
  else if String.eqb ess "ij,jdt->idt" then
    match shape a, shape b with
    | [ni; nj], [nj'; nd; nt] =>
        if decide (nj = nj')
        then inr {| shape := [ni; nd; nt];
                    item := fun ix =>
                      match ix with
                      | [i; d; t] =>
                          rsum nj (fun j => item a [i; j] * item b [j; d; t])
                      | _ => 0
                      end |}
        else bad
    | _, _ => bad
    end
  else if String.eqb ess "ji,jdt->idt" then
    match shape a, shape b with
    | [nj; ni], [nj'; nd; nt] =>
        if decide (nj = nj')
        then inr {| shape := [ni; nd; nt];
                    item := fun ix =>
                      match ix with
                      | [i; d; t] =>
                          rsum nj (fun j => item a [j; i] * item b [j; d; t])
                      | _ => 0
                      end |}
        else bad
    | _, _ => bad
    end
  else if String.eqb ess "ijt,jt->it" then
    match shape a, shape b with
    | [ni; nj; nt], [nj'; nt'] =>
        if decide (nj = nj' /\ nt = nt')
        then inr {| shape := [ni; nt];
                    item := fun ix =>
                      match ix with
                      | [i; t] =>
                          rsum nj (fun j => item a [i; j; t] * item b [j; t])
                      | _ => 0
                      end |}
        else bad
    | _, _ => bad
    end
  else if String.eqb ess "jit,jt->it" then
    match shape a, shape b with
    | [nj; ni; nt], [nj'; nt'] =>
        if decide (nj = nj' /\ nt = nt')
        then inr {| shape := [ni; nt];
                    item := fun ix =>
                      match ix with
                      | [i; t] =>
                          rsum nj (fun j => item a [j; i; t] * item b [j; t])
                      | _ => 0
                      end |}
        else bad
    | _, _ => bad
    end
  else if String.eqb ess "ij,jt->it" then
    match shape a, shape b with
    | [ni; nj], [nj'; nt] =>
        if decide (nj = nj')
        then inr {| shape := [ni; nt];
                    item := fun ix =>
                      match ix with
                      | [i; t] => rsum nj (fun j => item a [i; j] * item b [j; t])
                      | _ => 0
                      end |}
        else bad
    | _, _ => bad
    end
  else if String.eqb ess "ji,jt->it" then
    match shape a, shape b with
    | [nj; ni], [nj'; nt] =>
        if decide (nj = nj')
        then inr {| shape := [ni; nt];
                    item := fun ix =>
                      match ix with
                      | [i; t] => rsum nj (fun j => item a [j; i] * item b [j; t])
                      | _ => 0
                      end |}
        else bad
    | _, _ => bad
    end
  else inl (ValueError "einsum subscripts").

(** ** [np.linalg.inv]: the inverse by cofactors *)

(** Index of the [k]-th row left after row [r] is struck out. *)
Definition skip (r k : nat) : nat := if (k <? r)%nat then k else S k.

Definition minor (m : nat -> nat -> R) (r c : nat) : nat -> nat -> R :=
  fun i j => m (skip r i) (skip c j).

Definition sign (k : nat) : R := if Nat.even k then 1 else -1.

(** Determinant of the leading [n] by [n] block, expanded along row 0. *)
Fixpoint det (n : nat) (m : nat -> nat -> R) : R :=
  match n with
  | O => 1
  | S k => rsum n (fun j => sign j * m O j * det k (minor m 0 j))
  end.

(** A singular (or non-square) argument raises [LinAlgError]. *)
Definition linalg_inv (a : ndarray) : exn + ndarray :=
  match shape a with
  | [n; n'] =>
      let m := fun i j => item a [i; j] in
      if decide (n = n') then
        if Req_dec_T (det n m) 0 then inl LinAlgError
        else inr {| shape := [n; n];
                    item := fun ix =>
                      match ix with
                      | [i; j] =>
                          sign (i + j) * det (n - 1) (minor m j i) / det n m
                      | _ => 0
                      end |}
      else inl LinAlgError
  | _ => inl LinAlgError
  end.

(** ** [calc_beam_rotmatrix] *)

Definition deg2rad : R := PI / 180.

(** [convex] is compared with the integers 0 and -1; the booleans [True]
    and [False] that callers pass compare as 1 and 0.  [2. ** 0.5] is
    the square root of 2. *)
Definition calc_beam_rotmatrix (theta : R) (convex : Z) (degrees : bool) : ndarray :=
  let theta := if degrees then theta * deg2rad else theta in
  let c := if (convex =? 0)%Z || (convex =? -1)%Z then -1 else 1 in
  let a := 1 / (2 * sin theta) in
  let b := 1 / (4 * cos theta) in
  let d := a / sqrt 2 in
  np_array2 [[c * a; - c * a; 0; 0];
             [0; 0; - c * a; c * a];
             [b; b; b; b];
             [d; d; - d; - d]].

(** ** The data object *)

(** [adcpo.orient]: one entry per time step in each series. *)
Record orient_data : Type := mk_orient {
  roll : list R;
  pitch : list R;
  heading : list R;
  orient_up : list Z
}.

(** [adcpo.config].  [rotmat] and [TransMatrix] are optional: [None] is
    an attribute, respectively a key, that the configuration lacks. *)
Record config_data : Type := mk_config {
  rotmat : option ndarray;
  TransMatrix : option ndarray;
  beam_angle : R;
  beam_pattern : string;
  orientation : string;
  use_pitchroll : string
}.

(** [adcpo].  [adcpo.heading] and [adcpo.orient.heading] are the same
    array, so the record holds it once, under [orient]. *)
Record adp : Type := mk_adp {
  vel : ndarray;
  bt_vel : option ndarray;
  orient : orient_data;
  config : config_data;
  props : gmap string pyval
}.

Definition set_vel (v : ndarray) (o : adp) : adp :=
  mk_adp v (bt_vel o) (orient o) (config o) (props o).

Definition set_bt_vel (v : ndarray) (o : adp) : adp :=
  mk_adp (vel o) (Some v) (orient o) (config o) (props o).

Definition set_heading (h : list R) (o : adp) : adp :=
  mk_adp (vel o) (bt_vel o)
         (mk_orient (roll (orient o)) (pitch (orient o)) h (orient_up (orient o)))
         (config o) (props o).

Definition set_props (p : gmap string pyval) (o : adp) : adp :=
  mk_adp (vel o) (bt_vel o) (orient o) (config o) p.

(** ** Calls that mutate the object and may raise *)

Definition M (A : Type) : Type := adp -> adp * (exn + A).

Definition ret {A} (x : A) : M A := fun o => (o, inr x).

Definition raise {A} (e : exn) : M A := fun o => (o, inl e).

Definition bind {A B} (m : M A) (k : A -> M B) : M B :=
  fun o =>
    match m o with
    | (o', inr x) => k x o'
    | (o', inl e) => (o', inl e)
    end.

Notation "x <- m ;; k" := (bind m (fun x => k))
  (at level 20, m at level 99, k at level 200).
Notation "' pat <- m ;; k" := (bind m (fun x => let pat := x in k))
  (at level 20, pat pattern, m at level 99, k at level 200).
Notation "m ;; k" := (bind m (fun _ => k))
  (at level 100, k at level 200, right associativity).

Definition get : M adp := fun o => (o, inr o).

Definition modify (f : adp -> adp) : M unit := fun o => (f o, inr tt).

Definition lift {A} (r : exn + A) : M A := fun o => (o, r).

Definition when (b : bool) (m : M unit) : M unit := if b then m else ret tt.

(** [adcpo.props[k]] *)
Definition props_getitem (k : string) : M pyval :=
  o <- get ;;
  match props o !! k with
  | Some v => ret v
  | None => raise (KeyError k)
  end.

(** [adcpo.props[k] = v] *)
Definition props_setitem (k : string) (v : pyval) : M unit :=
  modify (fun o => set_props (<[k := v]> (props o)) o).

(** [adcpo.props.pop(k, dflt)] *)
Definition props_pop (k : string) (dflt : pyval) : M pyval :=
  o <- get ;;
  modify (set_props (delete k (props o))) ;;
  ret (default dflt (props o !! k)).

(** The state a call ends in, and what it raised or returned. *)
Definition final {A} (m : M A) (o : adp) : adp := fst (m o).
Definition outcome {A} (m : M A) (o : adp) : exn + A := snd (m o).

(** ** [beam2inst] *)

(** Lines 61-67: the matrix attached to the configuration, or else the
    one of the beam geometry. *)
Definition beam2inst_rotmat (c : config_data) : ndarray :=
  match rotmat c with
  | Some m => m
  | None =>
      match TransMatrix c with
      | Some m => m
      | None =>
          calc_beam_rotmatrix
            (beam_angle c)
            (Z.b2z (String.eqb (beam_pattern c) "convex"))
            true
      end
  end.

Definition beam2inst (reverse force : bool) : M unit :=
  when (negb force)
    (when (negb reverse)
       (cs <- props_getitem "coord_sys" ;;
        l <- lift (py_lower cs) ;;
        when (negb (String.eqb l "beam"))
          (raise (ValueError "The input must be in beam coordinates."))) ;;
     when reverse
       (cs <- props_getitem "coord_sys" ;;
        when (negb (py_eq_str cs "inst"))
          (raise (ValueError "The input must be in inst coordinates.")))) ;;
  o <- get ;;
  let rotmat := beam2inst_rotmat (config o) in
  let cs := "inst"%string in
  '(rotmat, cs) <-
     (if reverse
      then (* the transpose is of no use: the rotation is not between
              orthogonal coordinate systems *)
           inv <- lift (linalg_inv rotmat) ;; ret (inv, "beam"%string)
      else ret (rotmat, cs)) ;;
  v <- lift (einsum "ij,jkl->ikl" rotmat (vel o)) ;;
  modify (set_vel v) ;;
  props_setitem "coord_sys" (PStr cs).

(** ** [inst2earth] *)

(** The nine entries that [inst2earth] stores in [rotmat[i, j, t]], from
    the heading [h], roll [r] and pitch [p] of one time step. *)
Definition rot_entry (i j : nat) (h r p : R) : R :=
  let ch := cos h in
  let sh := sin h in
  let cr := cos r in
  let sr := sin r in
  let cp := cos p in
  let sp := sin p in
  match i, j with
  | 0%nat, 0%nat => ch * cr + sh * sp * sr
  | 0%nat, 1%nat => sh * cp
  | 0%nat, 2%nat => ch * sr - sh * sp * cr
  | 1%nat, 0%nat => - sh * cr + ch * sp * sr
  | 1%nat, 1%nat => ch * cp
  | 1%nat, 2%nat => - sh * sr - ch * sp * cr
  | 2%nat, 0%nat => - cp * sr
  | 2%nat, 1%nat => sp
  | 2%nat, 2%nat => cp * cr
  | _, _ => 0
  end.

(** [rotmat = np.empty((3, 3, len(r)))] once its nine rows are filled. *)
Definition fill_rotmat (h r p : list R) : ndarray :=
  {| shape := [3; 3; length r]%nat;
     item := fun ix =>
       match ix with
       | [i; j; t] => rot_entry i j (nth t h 0) (nth t r 0) (nth t p 0)
       | _ => 0
       end |}.

(** An operation on two one-dimensional arrays, entry by entry.  Arrays
    of different lengths are rejected (NumPy also stretches an array of
    length one, which is not modelled). *)
Definition elementwise (f : R -> R -> R) (a b : list R) : exn + list R :=
  if decide (length a = length b)
  then inr (zip_with f a b)
  else inl (ValueError "operands could not be broadcast together").

(** Lines 113-120: the coordinate system the data has to be in. *)
Definition inst2earth_check (reverse force : bool) : M unit :=
  when (negb force)
    (when (negb reverse)
       (cs <- props_getitem "coord_sys" ;;
        when (negb (py_eq_str cs "inst" || py_eq_str cs "ship"))
          (raise (ValueError "The input must be in 'inst' or 'ship' coordinates."))) ;;
     when reverse
       (cs <- props_getitem "coord_sys" ;;
        l <- lift (py_lower cs) ;;
        when (negb (String.eqb l "earth" || String.eqb l "enu"))
          (raise (ValueError "The input must be in earth coordinates.")))).

(** Lines 121-125: the declination is added to the heading, once. *)
Definition inst2earth_declination (reverse : bool) : M unit :=
  o <- get ;;
  when (negb reverse
        && bool_decide (is_Some (props o !! "declination"))
        && negb (truthy (default (PBool false)
                                 (props o !! "declination_in_heading"))))
    ((* only when making the forward rotation *)
     d <- props_getitem "declination" ;;
     x <- lift (py_number d) ;;
     modify (set_heading (map (fun hd => hd + x) (heading (orient o)))) ;;
     props_setitem "declination_in_heading" (PBool true)).

(** Lines 126-156: the rotation matrix of every time step. *)
Definition inst2earth_rotmat : M ndarray :=
  o <- get ;;
  let odat := orient o in
  let r := map (fun x => x * deg2rad) (roll odat) in
  p <- lift (elementwise (fun pt c => atan (tan pt * c))
                         (map (fun x => x * deg2rad) (pitch odat))
                         (map cos r)) ;;
  let h := map (fun x => x * deg2rad) (heading odat) in
  model <- props_getitem "inst_model" ;;
  model <- lift (py_lower model) ;;
  '(r, p) <-
     (if negb (String.eqb model "signature")
      then
        let r := if String.eqb (orientation (config o)) "up"
                 then map (fun x => x + PI) r else r in
        cs <- props_getitem "coord_sys" ;;
        if py_eq_str cs "ship" && String.eqb (use_pitchroll (config o)) "yes"
        then ret (map (fun _ => 0) r, map (fun _ => 0) p)
        else ret (r, p)
      else ret (r, p)) ;;
  when (negb (bool_decide (length h = length r)))
    (raise (ValueError "operands could not be broadcast together")) ;;
  let rotmat := fill_rotmat h r p in
  when (String.eqb model "signature")
    (when (existsb (fun u => negb (u =? 4)%Z) (orient_up odat))
       (raise (Exception "Orientations other than 'ZUP' are not yet supported."))) ;;
  ret rotmat.

(** Lines 177-181: the matrix is applied to [vel] and to [bt_vel], and
    the new coordinate system is recorded. *)
Definition inst2earth_einsum (ess : string) (rotmat : ndarray) (cs : string)
    : M unit :=
  o <- get ;;
  v <- lift (einsum ess rotmat (first3 (vel o))) ;;
  v <- lift (assign_first3 (vel o) v) ;;
  modify (set_vel v) ;;
  match bt_vel o with
  | Some bt =>
      b <- lift (einsum (replace "d" "" ess) rotmat (first3 bt)) ;;
      b <- lift (assign_first3 bt b) ;;
      modify (set_bt_vel b)
  | None => ret tt
  end ;;
  props_setitem "coord_sys" (PStr cs).

(** Lines 164-181: the subscripts and the orientation mode are chosen,
    then the matrix is applied. *)
Definition inst2earth_apply (reverse fixed_orientation : bool)
    (rotmat : ndarray) : M unit :=
  (* only the first 3 components are operated on: the 4th is err_vel *)
  let ess := "ijt,jdt->idt"%string in
  let cs := "earth"%string in
  '(cs, fixed, ess) <-
     (if reverse
      then
        fixed <- props_pop "inst2earth:fixed" (PBool fixed_orientation) ;;
        ret ("inst"%string, fixed, replace "ij" "ji" ess)
      else
        props_setitem "inst2earth:fixed" (PBool fixed_orientation) ;;
        ret (cs, PBool fixed_orientation, ess)) ;;
  let '(ess, rotmat) :=
    if truthy fixed
    then (replace "t," "," ess, mean_last rotmat)
    else (ess, rotmat) in
  inst2earth_einsum ess rotmat cs.

(** [inst2earth(adcpo, reverse, fixed_orientation, force)], the four
    parts of its body in the order of the source. *)
Definition inst2earth (reverse fixed_orientation force : bool) : M unit :=
  inst2earth_check reverse force ;;
  inst2earth_declination reverse ;;
  rotmat <- inst2earth_rotmat ;;
  inst2earth_apply reverse fixed_orientation rotmat.

(** ** [inst2earth_heading] *)

(** [np.exp(-1j * h)] as a pair (real part, imaginary part). *)
Definition exp_neg_i (h : R) : R * R := (cos h, - sin h).

Definition inst2earth_heading : M (list (R * R)) :=
  o <- get ;;
  let h := map (fun x => x * deg2rad) (heading (orient o)) in
  h <- match props o !! "heading_offset" with
       | Some v => x <- lift (py_number v) ;;
                   ret (map (fun hd => hd + x * deg2rad) h)
       | None => ret h
       end ;;
  h <- match props o !! "declination" with
       | Some v => x <- lift (py_number v) ;;
                   ret (map (fun hd => hd + x * deg2rad) h)
       | None => ret h
       end ;;
  ret (map exp_neg_i h).

(** ** What the subscript strings of [inst2earth] denote *)

(** The subscripts that [inst2earth] passes to [np.einsum] for [vel]:
    [ij] becomes [ji] in the reverse rotation and the time label of the
    matrix is dropped when the orientation is fixed. *)
Definition vel_subscripts (reverse fixed : bool) : string :=
  let ess := "ijt,jdt->idt"%string in
  let ess := if reverse then replace "ij" "ji" ess else ess in
  if fixed then replace "t," "," ess else ess.

(** The factor of input channel [j] in output channel [i] at time step
    [t] under these subscripts: the entry of [rotmat], or of its mean
    over time when the orientation is fixed, transposed in the reverse
    rotation. *)
Definition applied_rotation (reverse fixed : bool) (rotmat : ndarray)
    (i j t : nat) : R :=
  match fixed, reverse with
  | false, false => item rotmat [i; j; t]
  | false, true => item rotmat [j; i; t]
  | true, false => item (mean_last rotmat) [i; j]
  | true, true => item (mean_last rotmat) [j; i]
  end.

(** ** The orientation angles of one time step *)

(** Whether the instrument model, lower-cased, is ['signature']. *)
Definition is_signature (o : adp) : bool :=
  match props o !! "inst_model" with
  | Some (PStr m) => String.eqb (lower m) "signature"
  | _ => false
  end.

(** Roll and pitch are zeroed: a model other than the signature, data in
    the ['ship'] frame and [use_pitchroll] set to ['yes']. *)
Definition tilt_suppressed (o : adp) : bool :=
  negb (is_signature o)
  && match props o !! "coord_sys" with
     | Some cs => py_eq_str cs "ship"
     | None => false
     end
  && String.eqb (use_pitchroll (config o)) "yes".

(** An instrument (other than a signature) that looks up has pi added
    to its roll. *)
Definition looks_up (o : adp) : bool :=
  negb (is_signature o) && String.eqb (orientation (config o)) "up".

(** Heading, roll and pitch, in radians, that enter the matrix of time
    step [t]. *)
Definition heading_rad (o : adp) (t : nat) : R :=
  nth t (heading (orient o)) 0 * deg2rad.

Definition roll_rad (o : adp) (t : nat) : R :=
  if tilt_suppressed o then 0
  else if looks_up o then nth t (roll (orient o)) 0 * deg2rad + PI
  else nth t (roll (orient o)) 0 * deg2rad.

Definition pitch_rad (o : adp) (t : nat) : R :=
  if tilt_suppressed o then 0
  else atan (tan (nth t (pitch (orient o)) 0 * deg2rad)
             * cos (nth t (roll (orient o)) 0 * deg2rad)).

(** ** What a rotation leaves alone *)

(** [a'] has the shape of [a] and the same entries from the fourth one
    on along axis 0. *)
Definition same_extra (a a' : ndarray) : Prop :=
  shape a' = shape a
  /\ forall i rest, (3 <= i)%nat -> item a' (i :: rest) = item a (i :: rest).

(** The part of the record that the rotation itself (lines 126-181)
    never writes: the orientation data, the configuration, every key of
    [props] other than ['inst2earth:fixed'] and ['coord_sys'], the
    channels of [vel] and [bt_vel] after the third, and whether there is
    a [bt_vel] at all. *)
Definition rotation_frame (o o' : adp) : Prop :=
  orient o' = orient o
  /\ config o' = config o
  /\ (forall k : string,
        k <> "inst2earth:fixed"%string -> k <> "coord_sys"%string ->
        props o' !! k = props o !! k)
  /\ same_extra (vel o) (vel o')
  /\ match bt_vel o, bt_vel o' with
     | None, None => True
     | Some b, Some b' => same_extra b b'
     | _, _ => False
     end.

(** ** The declination flag *)

(** [adcpo.props.get('declination_in_heading', False)], as a truth value *)
Definition declination_folded (o : adp) : bool :=
  truthy (default (PBool false) (props o !! "declination_in_heading")).

(** ** Sequences of calls *)

(** The arguments [(reverse, fixed_orientation, force)] of one call. *)
Definition call : Type := bool * bool * bool.

(** [inst2earth] called again and again on the same object; a caller
    that catches an exception goes on with the object as the failed call
    left it. *)
Fixpoint inst2earth_calls (cs : list call) (o : adp) : adp :=
  match cs with
  | [] => o
  | (reverse, fixed_orientation, force) :: rest =>
      inst2earth_calls rest (final (inst2earth reverse fixed_orientation force) o)
  end.

(** ** Records used as examples *)

(** One depth bin, one time step, velocity (1, 0, 0). *)
Definition unit_x : ndarray :=
  {| shape := [3; 1; 1]%nat;
     item := fun ix =>
       match ix with
       | [O; _; _] => 1
       | _ => 0
       end |}.

Definition example_config : config_data :=
  {| rotmat := None;
     TransMatrix := None;
     beam_angle := 20;
     beam_pattern := "convex";
     orientation := "down";
     use_pitchroll := "no" |}.

(** An instrument-frame record: heading 90 degrees, no pitch, no roll. *)
Definition heading_east : adp :=
  {| vel := unit_x;
     bt_vel := None;
     orient := {| roll := [0]; pitch := [0]; heading := [90]; orient_up := [] |};
     config := example_config;
     props := <["coord_sys" := PStr "inst"]> (<["inst_model" := PStr "AWAC"]> ∅) |}.

(** An earth-frame record on which a forward call has recorded that it
    used the averaged orientation. *)
Definition earth_fixed : adp :=
  {| vel := unit_x;
     bt_vel := None;
     orient := {| roll := [0]; pitch := [0]; heading := [90]; orient_up := [] |};
     config := example_config;
     props := <["coord_sys" := PStr "earth"]>
                (<["inst_model" := PStr "AWAC"]>
                   (<["inst2earth:fixed" := PBool true]> ∅)) |}.

(** A record with a declination of 10 degrees that is not yet in the
    heading. *)
Definition north_declined : adp :=
  {| vel := unit_x;
     bt_vel := None;
     orient := {| roll := [0]; pitch := [0]; heading := [0]; orient_up := [] |};
     config := example_config;
     props := <["coord_sys" := PStr "inst"]>
                (<["inst_model" := PStr "AWAC"]>
                   (<["declination" := PNum 10]> ∅)) |}.

(** A signature instrument whose orientation flag is 0 (XUP), with a
    declination that is not yet in the heading. *)
Definition signature_xup : adp :=
  {| vel := unit_x;
     bt_vel := None;
     orient := {| roll := [0]; pitch := [0]; heading := [0]; orient_up := [0%Z] |};
     config := example_config;
     props := <["coord_sys" := PStr "inst"]>
                (<["inst_model" := PStr "Signature"]>
                   (<["declination" := PNum 10]> ∅)) |}.

(** Ship-frame data with pitch and roll switched off, on an instrument
    that reports a roll of 180 degrees. *)
Definition ship_rolled : adp :=
  {| vel := unit_x;
     bt_vel := None;
     orient := {| roll := [180]; pitch := [0]; heading := [0]; orient_up := [] |};
     config := {| rotmat := None;
                  TransMatrix := None;
                  beam_angle := 20;
                  beam_pattern := "convex";
                  orientation := "down";
                  use_pitchroll := "yes" |};
     props := <["coord_sys" := PStr "ship"]> (<["inst_model" := PStr "AWAC"]> ∅) |}.

(** A beam-frame record: four beams, one bin, one time step. *)
Definition four_beams : adp :=
  {| vel := {| shape := [4; 1; 1]%nat;
               item := fun ix =>
                 match ix with
                 | i :: _ => INR i
                 | [] => 0
                 end |};
     bt_vel := None;
     orient := {| roll := [0]; pitch := [0]; heading := [0]; orient_up := [] |};
     config := example_config;
     props := <["coord_sys" := PStr "beam"]> (<["inst_model" := PStr "AWAC"]> ∅) |}.

(** An instrument-frame record with an error-velocity channel and a
    bottom track, over two time steps of different orientation. *)
Definition four_with_bottom : adp :=
  {| vel := {| shape := [4; 1; 2]%nat;
               item := fun ix =>
                 match ix with
                 | i :: _ => INR (S i)
                 | [] => 0
                 end |};
     bt_vel := Some {| shape := [4; 2]%nat;
                       item := fun ix =>
                         match ix with
                         | i :: _ => INR (S i)
                         | [] => 0
                         end |};
     orient := {| roll := [0; 10]; pitch := [0; 5]; heading := [90; 45];
                  orient_up := [] |};
     config := example_config;
     props := <["coord_sys" := PStr "inst"]> (<["inst_model" := PStr "AWAC"]> ∅) |}.

(** ** Proof automation *)

(** Case analysis on the innermost scrutinee of a [match] in the goal. *)
Ltac case_scrutinee :=
  match goal with
  | |- context [match ?x with _ => _ end] =>
      lazymatch x with
      | context [match _ with _ => _ end] => fail
      | _ => destruct x
      end
  end.

(** ** Parts of the code, named for the statements below *)

(** Lines 56-60 of [beam2inst]: the coordinate system the data has to be
    in. *)
Definition beam2inst_check (reverse force : bool) : M unit :=
  when (negb force)
    (when (negb reverse)
       (cs <- props_getitem "coord_sys" ;;
        l <- lift (py_lower cs) ;;
        when (negb (String.eqb l "beam"))
          (raise (ValueError "The input must be in beam coordinates."))) ;;
     when reverse
       (cs <- props_getitem "coord_sys" ;;
        when (negb (py_eq_str cs "inst"))
          (raise (ValueError "The input must be in inst coordinates.")))).

(** A record whose [props] is empty. *)
Definition no_props : adp :=
  {| vel := unit_x;
     bt_vel := None;
     orient := {| roll := [0]; pitch := [0]; heading := [0]; orient_up := [] |};
     config := example_config;
     props := ∅ |}.

(** Four beams, an instrument model, and no ['coord_sys']. *)
Definition untagged_beams : adp :=
  {| vel := vel four_beams;
     bt_vel := None;
     orient := orient four_beams;
     config := example_config;
     props := <["inst_model" := PStr "AWAC"]> ∅ |}.

(** Four channels in the instrument frame. *)
Definition four_inst : adp :=
  {| vel := vel four_beams;
     bt_vel := None;
     orient := orient four_beams;
     config := example_config;
     props := <["coord_sys" := PStr "inst"]> (<["inst_model" := PStr "AWAC"]> ∅) |}.

(** An instrument that looks up, with a roll of 30 degrees. *)
Definition looking_up : adp :=
  {| vel := unit_x;
     bt_vel := None;
     orient := {| roll := [30]; pitch := [0]; heading := [90]; orient_up := [] |};
     config := {| rotmat := None;
                  TransMatrix := None;
                  beam_angle := 20;
                  beam_pattern := "convex";
                  orientation := "up";
                  use_pitchroll := "no" |};
     props := <["coord_sys" := PStr "inst"]> (<["inst_model" := PStr "AWAC"]> ∅) |}.

(** A record with two velocity channels only. *)
Definition two_channels : adp :=
  {| vel := {| shape := [2; 1; 1]%nat; item := fun _ => 1 |};
     bt_vel := None;
     orient := {| roll := [0]; pitch := [0]; heading := [0]; orient_up := [] |};
     config := example_config;
     props := <["coord_sys" := PStr "inst"]> (<["inst_model" := PStr "AWAC"]> ∅) |}.

(** ** [_cat4rot] *)

(** What [_cat4rot] can raise: [IndexError] from the indexing
    [vl[:, None, :]], [ValueError] from [np.concatenate]. *)
Inductive cat4rot_exn : Type :=
| IndexError
| ConcatenateError (msg : string).

(** [vl[:, None, :]]: an axis of length one is put after the first axis;
    an array with fewer than two axes has too many indices. *)
Definition newaxis1 (vl : ndarray) : cat4rot_exn + ndarray :=
  match shape vl with
  | n0 :: n1 :: rest =>
      inr {| shape := n0 :: 1%nat :: n1 :: rest;
             item := fun ix =>
               match ix with
               | i :: _ :: r => item vl (i :: r)
               | _ => 0
               end |}
  | _ => inl IndexError
  end.

(** The extent of an array along axis 1. *)
Definition axis1 (a : ndarray) : nat := nth 1 (shape a) 0%nat.

(** The item [i, k, r...] of the arrays laid one after the other along
    axis 1. *)
Fixpoint concatenate1_item (arrs : list ndarray) (i k : nat) (r : list nat) : R :=
  match arrs with
  | [] => 0
  | a :: rest =>
      if (k <? axis1 a)%nat then item a (i :: k :: r)
      else concatenate1_item rest i (k - axis1 a) r
  end.

(** [np.concatenate(arrs, axis=1)]: at least one array, all with the same
    extents on the other axes. *)
Definition concatenate1 (arrs : list ndarray) : cat4rot_exn + ndarray :=
  match arrs with
  | [] => inl (ConcatenateError "need at least one array to concatenate")
  | a :: rest =>
      match shape a with
      | n0 :: _ :: tl =>
          if forallb (fun b =>
                        match shape b with
                        | m0 :: _ :: tl' => bool_decide (m0 = n0 /\ tl' = tl)
                        | _ => false
                        end) rest
          then inr {| shape := n0 :: list_sum (map axis1 arrs) :: tl;
                      item := fun ix =>
                        match ix with
                        | i :: k :: r => concatenate1_item arrs i k r
                        | _ => 0
                        end |}
          else inl (ConcatenateError
                      "all the input array dimensions except for the concatenation axis must match exactly")
      | _ => inl (ConcatenateError "axis 1 is out of bounds")
      end
  end.

(** The loop of [_cat4rot]: the arrays are indexed in order, and the
    first one that cannot be stops it. *)
Fixpoint cat4rot_loop (tpl : list ndarray) : cat4rot_exn + list ndarray :=
  match tpl with
  | [] => inr []
  | vl :: rest =>
      match newaxis1 vl with
      | inl e => inl e
      | inr v =>
          match cat4rot_loop rest with
          | inl e => inl e
          | inr tmp => inr (v :: tmp)
          end
      end
  end.

Definition _cat4rot (tpl : list ndarray) : cat4rot_exn + ndarray :=
  match cat4rot_loop tpl with
  | inl e => inl e
  | inr tmp => concatenate1 tmp
  end.


(** A record in the earth frame, tagged ['ENU'], on which a forward call
    has recorded that it rotated step by step. *)
Definition earth_stepwise : adp :=
  {| vel := unit_x;
     bt_vel := None;
     orient := {| roll := [0]; pitch := [0]; heading := [90]; orient_up := [] |};
     config := example_config;
     props := <["coord_sys" := PStr "ENU"]>
                (<["inst_model" := PStr "AWAC"]>
                   (<["inst2earth:fixed" := PBool false]> ∅)) |}.

(** A record whose frame tag is a number, and one whose frame tag is
    spelled with capital letters. *)
Definition numeric_tag : adp :=
  {| vel := unit_x;
     bt_vel := None;
     orient := {| roll := [0]; pitch := [0]; heading := [0]; orient_up := [] |};
     config := example_config;
     props := <["coord_sys" := PNum 1]> (<["inst_model" := PStr "AWAC"]> ∅) |}.

Definition capital_tag : adp :=
  {| vel := unit_x;
     bt_vel := None;
     orient := {| roll := [0]; pitch := [0]; heading := [0]; orient_up := [] |};
     config := example_config;
     props := <["coord_sys" := PStr "INST"]> (<["inst_model" := PStr "AWAC"]> ∅) |}.

(** * Properties *)

(** ** Trigonometric facts used below *)

Lemma sin_3a (x : R) : sin (3 * x) = 3 * sin x - 4 * (sin x * sin x * sin x).
Proof.
  replace (3 * x) with (2 * x + x) by ring.
  rewrite sin_plus, sin_2a, cos_2a.
  assert (Hc : cos x * cos x = 1 - sin x * sin x).
  { generalize (sin2_cos2 x). unfold Rsqr. lra. }
  transitivity (2 * sin x * (cos x * cos x)
                + (cos x * cos x - sin x * sin x) * sin x); [ring |].
  rewrite Hc. ring.
Qed.

Lemma sq_sin_cos (x : R) : sin x * sin x + cos x * cos x = 1.
Proof. generalize (sin2_cos2 x). unfold Rsqr. lra. Qed.

Lemma deg20 : 20 * deg2rad = PI / 9.
Proof. unfold deg2rad. field. Qed.

Lemma sqrt3_bounds : 17320504 / 10000000 < sqrt 3 < 1732051 / 1000000.
Proof.
  assert (H3 : sqrt 3 * sqrt 3 = 3) by (apply sqrt_sqrt; lra).
  assert (Hp : 0 < sqrt 3) by (apply sqrt_lt_R0; lra).
  split; nra.
Qed.

Lemma sqrt2_bounds : 141421 / 100000 < sqrt 2 < 141422 / 100000.
Proof.
  assert (H2 : sqrt 2 * sqrt 2 = 2) by (apply sqrt_sqrt; lra).
  assert (Hp : 0 < sqrt 2) by (apply sqrt_lt_R0; lra).
  split; nra.
Qed.

(** sin 20 degrees, from the cubic that the triple angle 60 degrees gives *)
Lemma sin20_bounds :
  34202 / 100000 < sin (20 * deg2rad) < 342021 / 1000000.
Proof.
  rewrite deg20.
  assert (Hpi := PI_RGT_0).
  assert (H3 : sin (3 * (PI / 9)) = sqrt 3 / 2).
  { replace (3 * (PI / 9)) with (PI / 3) by field. apply sin_PI3. }
  rewrite sin_3a in H3.
  assert (H0 : 0 < sin (PI / 9)) by (apply sin_gt_0; lra).
  assert (H1 : sin (PI / 9) < 1 / 2).
  { rewrite <- sin_PI6. apply sin_increasing_1; lra. }
  destruct sqrt3_bounds as [Hl Hu].
  set (s := sin (PI / 9)) in *.
  assert (Hmono : forall l : R,
             3 * l - 4 * (l * l * l) - (3 * s - 4 * (s * s * s))
             = (l - s) * (3 - 4 * (l * l + l * s + s * s))) by (intros; ring).
  split.
  - destruct (Rlt_le_dec (34202 / 100000) s) as [Hs | Hs]; [exact Hs |].
    exfalso. specialize (Hmono (34202 / 100000)).
    assert (0 <= (34202 / 100000 - s)
                 * (3 - 4 * (34202 / 100000 * (34202 / 100000)
                             + 34202 / 100000 * s + s * s))).
    { apply Rmult_le_pos; nra. }
    lra.
  - destruct (Rlt_le_dec s (342021 / 1000000)) as [Hs | Hs]; [exact Hs |].
    exfalso. specialize (Hmono (342021 / 1000000)).
    assert ((342021 / 1000000 - s)
            * (3 - 4 * (342021 / 1000000 * (342021 / 1000000)
                        + 342021 / 1000000 * s + s * s)) <= 0).
    { assert (0 <= (s - 342021 / 1000000)
                   * (3 - 4 * (342021 / 1000000 * (342021 / 1000000)
                               + 342021 / 1000000 * s + s * s))).
      { apply Rmult_le_pos; nra. }
      lra. }
    lra.
Qed.

Lemma cos20_bounds :
  939692 / 1000000 < cos (20 * deg2rad) < 939693 / 1000000.
Proof.
  destruct sin20_bounds as [Hl Hu].
  assert (Hsq := sq_sin_cos (20 * deg2rad)).
  assert (Hc : 0 < cos (20 * deg2rad)).
  { rewrite deg20. assert (Hpi := PI_RGT_0). apply cos_gt_0; lra. }
  split; nra.
Qed.

Lemma beam_a20_bounds :
  1461898 / 1000000 < 1 / (2 * sin (20 * deg2rad)) < 1461903 / 1000000.
Proof.
  destruct sin20_bounds as [Hl Hu].
  set (s := sin (20 * deg2rad)) in *.
  assert (Ha : 1 / (2 * s) * (2 * s) = 1) by (field; lra).
  assert (Hp : 0 < 1 / (2 * s)).
  { apply Rdiv_lt_0_compat; lra. }
  split; nra.
Qed.

Lemma beam_b20_bounds :
  266044 / 1000000 < 1 / (4 * cos (20 * deg2rad)) < 266045 / 1000000.
Proof.
  destruct cos20_bounds as [Hl Hu].
  set (c := cos (20 * deg2rad)) in *.
  assert (Hb : 1 / (4 * c) * (4 * c) = 1) by (field; lra).
  assert (Hp : 0 < 1 / (4 * c)).
  { apply Rdiv_lt_0_compat; lra. }
  split; nra.
Qed.

Lemma beam_d20_bounds :
  103371 / 100000 < 1 / (2 * sin (20 * deg2rad)) / sqrt 2 < 103373 / 100000.
Proof.
  destruct beam_a20_bounds as [Hl Hu].
  destruct sqrt2_bounds as [Rl Ru].
  set (a := 1 / (2 * sin (20 * deg2rad))) in *.
  assert (Hd : a / sqrt 2 * sqrt 2 = a) by (field; lra).
  assert (Hp : 0 < a / sqrt 2).
  { apply Rdiv_lt_0_compat; lra. }
  split; nra.
Qed.

(** ** C4: the beam-to-instrument matrix *)

(** C4, as the specification states it, fails in its last figure: for a
    head angle of 20 degrees and a convex head the entry [d] of the
    fourth row is not 1.03416, not even to within 0.0001. *)
Lemma calc_beam_rotmatrix_d_differs :
  ~ Rabs (item (calc_beam_rotmatrix 20 1 true) [3; 0]%nat - 103416 / 100000)
    <= 1 / 10000.
Proof.
  cbn [calc_beam_rotmatrix np_array2 item nth].
  destruct beam_d20_bounds as [Hl Hu].
  intros H. rewrite Rabs_left in H by lra. lra.
Qed.

(** C4 (amended): [calc_beam_rotmatrix] returns the 4 by 4 matrix with
    rows [c*a, -c*a, 0, 0], [0, 0, -c*a, c*a], [b, b, b, b] and
    [d, d, -d, -d], where a = 1/(2 sin theta), b = 1/(4 cos theta),
    d = a / sqrt 2, with theta converted to radians when [degrees] is
    set, and c = -1 exactly when [convex] is 0 or -1, c = +1 otherwise.
    For theta = 20 degrees and a convex head, a, b and d are within
    0.00001 of 1.46190, 0.26604 and 1.03372; for [convex = False] the
    first two rows change sign and the last two do not. *)
Theorem calc_beam_rotmatrix_rows :
  (forall (theta : R) (convex : Z) (degrees : bool),
      let th := if degrees then theta * (PI / 180) else theta in
      let a := 1 / (2 * sin th) in
      let b := 1 / (4 * cos th) in
      let d := a / sqrt 2 in
      exists c : R,
        ((convex = 0 \/ convex = -1)%Z -> c = -1)
        /\ (~ (convex = 0 \/ convex = -1)%Z -> c = 1)
        /\ shape (calc_beam_rotmatrix theta convex degrees) = [4; 4]%nat
        /\ forall i j : nat,
            item (calc_beam_rotmatrix theta convex degrees) [i; j]
            = nth j (nth i [[c * a; - c * a; 0; 0];
                            [0; 0; - c * a; c * a];
                            [b; b; b; b];
                            [d; d; - d; - d]] []) 0)
  /\ (let m := calc_beam_rotmatrix 20 (Z.b2z true) true in
      let m' := calc_beam_rotmatrix 20 (Z.b2z false) true in
      Rabs (item m [0; 0]%nat - 146190 / 100000) <= 1 / 100000
      /\ Rabs (item m [2; 0]%nat - 26604 / 100000) <= 1 / 100000
      /\ Rabs (item m [3; 0]%nat - 103372 / 100000) <= 1 / 100000
      /\ forall i j : nat,
          item m' [i; j] = if (i <? 2)%nat then - item m [i; j] else item m [i; j]).
Proof.
  split.
  - intros theta convex degrees th a b d.
    exists (if (convex =? 0)%Z || (convex =? -1)%Z then -1 else 1).
    split; [| split; [| split]].
    + intros [-> | ->]; reflexivity.
    + intros Hn.
      destruct (Z.eqb_spec convex 0); [tauto |].
      destruct (Z.eqb_spec convex (-1)); [tauto |]. reflexivity.
    + reflexivity.
    + intros i j. reflexivity.
  - cbn zeta. cbn [calc_beam_rotmatrix np_array2 item nth Z.b2z Z.eqb orb].
    destruct beam_a20_bounds as [Al Au].
    destruct beam_b20_bounds as [Bl Bu].
    destruct beam_d20_bounds as [Dl Du].
    repeat split.
    + apply Rabs_le. lra.
    + apply Rabs_le. lra.
    + apply Rabs_le. lra.
    + intros i j.
      destruct i as [| [| [| [| i]]]]; destruct j as [| [| [| [| j]]]];
        cbn; try lra; destruct j; lra.
Qed.

(** ** Running a call *)

Lemma bind_ok {A B} (m : M A) (k : A -> M B) (o o' : adp) (x : A) :
  m o = (o', inr x) -> bind m k o = k x o'.
Proof. intros H. unfold bind. rewrite H. reflexivity. Qed.

Lemma bind_raises {A B} (m : M A) (k : A -> M B) (o o' : adp) (e : exn) :
  m o = (o', inl e) -> bind m k o = (o', inl e).
Proof. intros H. unfold bind. rewrite H. reflexivity. Qed.

Lemma props_getitem_some (k : string) (v : pyval) (o : adp) :
  props o !! k = Some v -> props_getitem k o = (o, inr v).
Proof. intros H. unfold props_getitem, bind, get. rewrite H. reflexivity. Qed.

Lemma String_eqb_neq (a b : string) : a <> b -> String.eqb a b = false.
Proof. intros H. destruct (String.eqb_spec a b); [contradiction | reflexivity]. Qed.

(** The frame checks read [props] and change nothing. *)
Lemma inst2earth_check_state (reverse force : bool) (o : adp) :
  fst (inst2earth_check reverse force o) = o.
Proof.
  unfold inst2earth_check, when.
  destruct force, reverse; cbn [negb]; try reflexivity.
  - unfold bind at 1. cbn [ret].
    unfold props_getitem, bind, get, lift, raise, ret.
    destruct (props o !! "coord_sys") as [v |]; [| reflexivity].
    destruct (py_lower v); [reflexivity |].
    destruct (negb _); reflexivity.
  - unfold props_getitem, bind, get, lift, raise, ret.
    destruct (props o !! "coord_sys") as [v |]; [| reflexivity].
    destruct (negb _); reflexivity.
Qed.

Lemma inst2earth_check_forced (reverse : bool) (o : adp) :
  inst2earth_check reverse true o = (o, inr tt).
Proof. reflexivity. Qed.

Lemma inst2earth_check_forward (o : adp) (cs : pyval) :
  props o !! "coord_sys" = Some cs ->
  inst2earth_check false false o
  = (o, if py_eq_str cs "inst" || py_eq_str cs "ship" then inr tt
        else inl (ValueError "The input must be in 'inst' or 'ship' coordinates.")).
Proof.
  intros H. unfold inst2earth_check, when. cbn [negb].
  unfold props_getitem, bind, get, lift, raise, ret. rewrite H.
  destruct (py_eq_str cs "inst" || py_eq_str cs "ship"); reflexivity.
Qed.

Lemma inst2earth_check_reverse (o : adp) (cs : string) :
  props o !! "coord_sys" = Some (PStr cs) ->
  inst2earth_check true false o
  = (o, if String.eqb (lower cs) "earth" || String.eqb (lower cs) "enu"
        then inr tt
        else inl (ValueError "The input must be in earth coordinates.")).
Proof.
  intros H. unfold inst2earth_check, when. cbn [negb].
  unfold props_getitem, bind, get, lift, raise, ret. rewrite H.
  cbn [py_lower].
  destruct (String.eqb (lower cs) "earth" || String.eqb (lower cs) "enu");
    reflexivity.
Qed.

(** ** C5: a failed frame check changes nothing *)

(** C5: when [force] is not set and [coord_sys] is not the frame the
    transition expects, [beam2inst] and [inst2earth] raise [ValueError]
    and the record after the call is the record before it (velocity,
    heading and every entry of [props]); in particular a forward
    [beam2inst] on a record whose [coord_sys] is ['inst'] does so. *)
Theorem frame_check_failure_changes_nothing
    (o : adp) (cs : string) (reverse fixed_orientation : bool)
    (Hcs : props o !! "coord_sys" = Some (PStr cs)) :
  ((if reverse then cs <> "inst"%string else lower cs <> "beam"%string) ->
   exists msg, beam2inst reverse false o = (o, inl (ValueError msg)))
  /\ ((if reverse
       then lower cs <> "earth"%string /\ lower cs <> "enu"%string
       else cs <> "inst"%string /\ cs <> "ship"%string) ->
      exists msg,
        inst2earth reverse fixed_orientation false o = (o, inl (ValueError msg)))
  /\ (cs = "inst"%string ->
      beam2inst false false o
      = (o, inl (ValueError "The input must be in beam coordinates."))).
Proof.
  split; [| split].
  - intros Hne. unfold beam2inst.
    destruct reverse; cbn [when negb].
    + eexists. apply bind_raises.
      unfold bind at 1. cbn [ret].
      erewrite bind_ok by (apply props_getitem_some; exact Hcs).
      cbn [py_eq_str]. rewrite String_eqb_neq by exact Hne. reflexivity.
    + eexists. apply bind_raises. apply bind_raises.
      erewrite bind_ok by (apply props_getitem_some; exact Hcs).
      cbn [py_lower]. unfold bind at 1, lift at 1.
      rewrite String_eqb_neq by exact Hne. reflexivity.
  - intros Hne. unfold inst2earth.
    destruct reverse.
    + eexists. apply bind_raises.
      rewrite (inst2earth_check_reverse o cs Hcs).
      destruct Hne as [H1 H2].
      rewrite !String_eqb_neq by assumption. reflexivity.
    + eexists. apply bind_raises.
      rewrite (inst2earth_check_forward o _ Hcs).
      destruct Hne as [H1 H2]. cbn [py_eq_str].
      rewrite !String_eqb_neq by assumption. reflexivity.
  - intros ->. unfold beam2inst. cbn [when negb].
    apply bind_raises. apply bind_raises.
    erewrite bind_ok by (apply props_getitem_some; exact Hcs).
    reflexivity.
Qed.

Lemma frame_check_failure_witness :
  beam2inst false false heading_east
  = (heading_east, inl (ValueError "The input must be in beam coordinates.")).
Proof.
  refine (proj2 (proj2 (frame_check_failure_changes_nothing
                          heading_east "inst" false false _)) _);
    reflexivity.
Defined.

(** ** [np.einsum] on the operands of [inst2earth] *)

Lemma vel_subscripts_cases :
  vel_subscripts false false = "ijt,jdt->idt"%string
  /\ vel_subscripts true false = "jit,jdt->idt"%string
  /\ vel_subscripts false true = "ij,jdt->idt"%string
  /\ vel_subscripts true true = "ji,jdt->idt"%string
  /\ replace "d" "" (vel_subscripts false false) = "ijt,jt->it"%string
  /\ replace "d" "" (vel_subscripts true false) = "jit,jt->it"%string
  /\ replace "d" "" (vel_subscripts false true) = "ij,jt->it"%string
  /\ replace "d" "" (vel_subscripts true true) = "ji,jt->it"%string.
Proof. repeat split; reflexivity. Qed.

Example lower_mixed_case : lower "EaRtH" = "earth"%string.
Proof. reflexivity. Qed.

Lemma rsum3 (f : nat -> R) : rsum 3 f = f 0%nat + f 1%nat + f 2%nat.
Proof. cbn [rsum]. ring. Qed.

Lemma mean_last_shape (a : ndarray) (n0 n1 n2 : nat) :
  shape a = [n0; n1; n2] -> shape (mean_last a) = [n0; n1].
Proof. intros H. unfold mean_last. rewrite H. reflexivity. Qed.

(** A successful [einsum] on the velocity array: its shape and items. *)
Lemma einsum_vel_inv (reverse fixed : bool) (rotmat b v : ndarray) (T : nat) :
  shape rotmat = [3; 3; T]%nat ->
  einsum (vel_subscripts reverse fixed)
         (if fixed then mean_last rotmat else rotmat) b = inr v ->
  exists nd nt,
    shape b = [3; nd; nt]%nat /\ shape v = [3; nd; nt]%nat
    /\ forall i d t,
        item v [i; d; t]
        = rsum 3 (fun j => applied_rotation reverse fixed rotmat i j t
                           * item b [j; d; t]).
Proof.
  intros Hs He.
  destruct fixed, reverse;
    [ change (vel_subscripts true true) with "ji,jdt->idt"%string in He
    | change (vel_subscripts false true) with "ij,jdt->idt"%string in He
    | change (vel_subscripts true false) with "jit,jdt->idt"%string in He
    | change (vel_subscripts false false) with "ijt,jdt->idt"%string in He ];
    unfold einsum in He; cbn [String.eqb Ascii.eqb Bool.eqb] in He;
    try rewrite (mean_last_shape _ _ _ _ Hs) in He;
    try rewrite Hs in He;
    destruct (shape b) as [| nj' [| nd [| nt [| ? ?]]]] eqn:Hb; try discriminate;
    destruct (decide _) as [Hd |]; try discriminate;
    injection He as <-; exists nd, nt;
    (split; [| split; [| intros i d t; reflexivity]]); cbn [shape];
    repeat match goal with Hc : _ /\ _ |- _ => destruct Hc end;
    subst; reflexivity.
Qed.

Lemma einsum_bt_inv (reverse fixed : bool) (rotmat b v : ndarray) (T : nat) :
  shape rotmat = [3; 3; T]%nat ->
  einsum (replace "d" "" (vel_subscripts reverse fixed))
         (if fixed then mean_last rotmat else rotmat) b = inr v ->
  exists nt,
    shape b = [3; nt]%nat /\ shape v = [3; nt]%nat
    /\ forall i t,
        item v [i; t]
        = rsum 3 (fun j => applied_rotation reverse fixed rotmat i j t
                           * item b [j; t]).
Proof.
  intros Hs He.
  destruct fixed, reverse;
    [ change (replace "d" "" (vel_subscripts true true))
        with "ji,jt->it"%string in He
    | change (replace "d" "" (vel_subscripts false true))
        with "ij,jt->it"%string in He
    | change (replace "d" "" (vel_subscripts true false))
        with "jit,jt->it"%string in He
    | change (replace "d" "" (vel_subscripts false false))
        with "ijt,jt->it"%string in He ];
    unfold einsum in He; cbn [String.eqb Ascii.eqb Bool.eqb] in He;
    try rewrite (mean_last_shape _ _ _ _ Hs) in He;
    try rewrite Hs in He;
    destruct (shape b) as [| nj' [| nt [| ? ?]]] eqn:Hb; try discriminate;
    destruct (decide _) as [Hd |]; try discriminate;
    injection He as <-; exists nt;
    (split; [| split; [| intros i t; reflexivity]]); cbn [shape];
    repeat match goal with Hc : _ /\ _ |- _ => destruct Hc end;
    subst; reflexivity.
Qed.

(** Operands of matching shapes are accepted. *)
Lemma einsum_vel_ok (reverse fixed : bool) (rotmat b : ndarray) (T nd : nat) :
  shape rotmat = [3; 3; T]%nat -> shape b = [3; nd; T]%nat ->
  exists v,
    einsum (vel_subscripts reverse fixed)
           (if fixed then mean_last rotmat else rotmat) b = inr v.
Proof.
  intros Hs Hb.
  destruct fixed, reverse;
    [ change (vel_subscripts true true) with "ji,jdt->idt"%string
    | change (vel_subscripts false true) with "ij,jdt->idt"%string
    | change (vel_subscripts true false) with "jit,jdt->idt"%string
    | change (vel_subscripts false false) with "ijt,jdt->idt"%string ];
    unfold einsum; cbn [String.eqb Ascii.eqb Bool.eqb];
    try rewrite (mean_last_shape _ _ _ _ Hs);
    try rewrite Hs; rewrite Hb;
    (destruct (decide _) as [Hd | Hd]; [eexists; reflexivity |]);
    exfalso; apply Hd; auto.
Qed.

Lemma einsum_bt_ok (reverse fixed : bool) (rotmat b : ndarray) (T : nat) :
  shape rotmat = [3; 3; T]%nat -> shape b = [3; T]%nat ->
  exists v,
    einsum (replace "d" "" (vel_subscripts reverse fixed))
           (if fixed then mean_last rotmat else rotmat) b = inr v.
Proof.
  intros Hs Hb.
  destruct fixed, reverse;
    [ change (replace "d" "" (vel_subscripts true true))
        with "ji,jt->it"%string
    | change (replace "d" "" (vel_subscripts false true))
        with "ij,jt->it"%string
    | change (replace "d" "" (vel_subscripts true false))
        with "jit,jt->it"%string
    | change (replace "d" "" (vel_subscripts false false))
        with "ijt,jt->it"%string ];
    unfold einsum; cbn [String.eqb Ascii.eqb Bool.eqb];
    try rewrite (mean_last_shape _ _ _ _ Hs);
    try rewrite Hs; rewrite Hb;
    (destruct (decide _) as [Hd | Hd]; [eexists; reflexivity |]);
    exfalso; apply Hd; auto.
Qed.

Lemma bind_inv {A B} (m : M A) (k : A -> M B) (o o' : adp) (y : B) :
  bind m k o = (o', inr y) ->
  exists o1 x, m o = (o1, inr x) /\ k x o1 = (o', inr y).
Proof.
  unfold bind. destruct (m o) as [o1 [e | x]]; [discriminate |].
  intros H. exists o1, x. split; [reflexivity | exact H].
Qed.

Lemma lift_inv {A} (r : exn + A) (o o' : adp) (x : A) :
  lift r o = (o', inr x) -> o' = o /\ r = inr x.
Proof. unfold lift. intros H. injection H as <- ->. split; reflexivity. Qed.

Lemma assign_first3_inv (a b v : ndarray) :
  assign_first3 a b = inr v ->
  shape (first3 a) = shape b /\ shape v = shape a
  /\ (forall i rest, (3 <= i)%nat -> item v (i :: rest) = item a (i :: rest))
  /\ (forall i rest, (i < 3)%nat -> item v (i :: rest) = item b (i :: rest)).
Proof.
  unfold assign_first3. destruct (decide _) as [Hd |]; [| discriminate].
  intros H. injection H as <-. cbn [shape item].
  split; [exact Hd | split; [reflexivity | split]]; intros i rest Hi.
  - destruct (Nat.ltb_spec i 3); [lia | reflexivity].
  - destruct (Nat.ltb_spec i 3); [reflexivity | lia].
Qed.

Lemma assign_first3_ok (a b : ndarray) :
  shape (first3 a) = shape b -> exists v, assign_first3 a b = inr v.
Proof.
  intros H. unfold assign_first3.
  destruct (decide _); [eexists; reflexivity | contradiction].
Qed.

(** ** The last part of [inst2earth]: what a completed rotation did *)

(** The choices made before the matrix is applied. *)
Lemma inst2earth_apply_eq (reverse fx : bool) (rotmat : ndarray) (o : adp) :
  let fixed :=
    truthy (if reverse
            then default (PBool fx) (props o !! "inst2earth:fixed")
            else PBool fx) in
  inst2earth_apply reverse fx rotmat o
  = inst2earth_einsum
      (vel_subscripts reverse fixed)
      (if fixed then mean_last rotmat else rotmat)
      (if reverse then "inst" else "earth")
      (set_props (if reverse then delete "inst2earth:fixed" (props o)
                  else <["inst2earth:fixed" := PBool fx]> (props o)) o).
Proof.
  unfold inst2earth_apply.
  destruct reverse;
    unfold props_pop, props_setitem, modify, get, ret, bind;
    lazy beta iota zeta;
    destruct (truthy _); reflexivity.
Qed.

(** The orientation mode a call uses: the recorded one, if there is
    one, in the reverse rotation. *)
Lemma inst2earth_apply_inv (reverse fx : bool) (rotmat : ndarray) (T : nat)
    (o o' : adp) :
  shape rotmat = [3; 3; T]%nat ->
  inst2earth_apply reverse fx rotmat o = (o', inr tt) ->
  let fixed :=
    truthy (if reverse
            then default (PBool fx) (props o !! "inst2earth:fixed")
            else PBool fx) in
  orient o' = orient o /\ config o' = config o
  /\ props o'
     = <["coord_sys" := PStr (if reverse then "inst" else "earth")]>
         (if reverse then delete "inst2earth:fixed" (props o)
          else <["inst2earth:fixed" := PBool fx]> (props o))
  /\ shape (vel o') = shape (vel o)
  /\ (forall i rest, (3 <= i)%nat ->
        item (vel o') (i :: rest) = item (vel o) (i :: rest))
  /\ (forall i d t, (i < 3)%nat ->
        item (vel o') [i; d; t]
        = rsum 3 (fun j => applied_rotation reverse fixed rotmat i j t
                           * item (vel o) [j; d; t]))
  /\ match bt_vel o with
     | None => bt_vel o' = None
     | Some bt =>
         exists bt',
           bt_vel o' = Some bt' /\ shape bt' = shape bt
           /\ (forall i rest, (3 <= i)%nat ->
                 item bt' (i :: rest) = item bt (i :: rest))
           /\ (forall i t, (i < 3)%nat ->
                 item bt' [i; t]
                 = rsum 3 (fun j => applied_rotation reverse fixed rotmat i j t
                                    * item bt [j; t]))
     end.
Proof.
  intros Hs H fixed. rewrite inst2earth_apply_eq in H. fold fixed in H.
  unfold inst2earth_einsum in H.
  apply bind_inv in H as (o1 & x & Hget & H).
  unfold get in Hget. injection Hget as <- <-.
  cbn [set_props vel bt_vel] in H.
  apply bind_inv in H as (o1 & v & Hv & H).
  apply lift_inv in Hv as [-> Hv].
  apply bind_inv in H as (o1 & v0 & Hv0 & H).
  apply lift_inv in Hv0 as [-> Hv0].
  apply bind_inv in H as (o1 & [] & Hm & H).
  unfold modify in Hm. injection Hm as <-.
  apply bind_inv in H as (o2 & [] & Hbt & H).
  unfold props_setitem, modify in H. injection H as <-.
  destruct (einsum_vel_inv _ _ _ _ _ _ Hs Hv) as (nd & nt & Hb & Hsv & Hiv).
  destruct (assign_first3_inv _ _ _ Hv0) as (Hsh & Hsv0 & Hhi & Hlo).
  assert (Hvel :
            shape v0 = shape (vel o)
            /\ (forall i rest, (3 <= i)%nat ->
                  item v0 (i :: rest) = item (vel o) (i :: rest))
            /\ (forall i d t, (i < 3)%nat ->
                  item v0 [i; d; t]
                  = rsum 3 (fun j => applied_rotation reverse fixed rotmat i j t
                                     * item (vel o) [j; d; t]))).
  { split; [exact Hsv0 | split; [exact Hhi |]].
    intros i d t Hi. rewrite (Hlo i [d; t] Hi). apply Hiv. }
  destruct (bt_vel o) as [bt |] eqn:Ebt.
  - apply bind_inv in Hbt as (o3 & b & Hb1 & Hbt).
    apply lift_inv in Hb1 as [-> Hb1].
    apply bind_inv in Hbt as (o3 & b0 & Hb0 & Hbt).
    apply lift_inv in Hb0 as [-> Hb0].
    unfold modify in Hbt. injection Hbt as <-.
    destruct (einsum_bt_inv _ _ _ _ _ _ Hs Hb1) as (nt' & Hbb & Hsb & Hib).
    destruct (assign_first3_inv _ _ _ Hb0) as (Hshb & Hsb0 & Hhib & Hlob).
    cbn [set_props set_vel set_bt_vel orient config props vel bt_vel].
    destruct Hvel as (V1 & V2 & V3).
    repeat (split; [first [reflexivity | assumption] |]).
    exists b0. split; [reflexivity | split; [exact Hsb0 | split; [exact Hhib |]]].
    intros i t Hi. rewrite (Hlob i [t] Hi). apply Hib.
  - unfold ret in Hbt. injection Hbt as <-.
    cbn [set_props set_vel set_bt_vel orient config props vel bt_vel].
    destruct Hvel as (V1 & V2 & V3).
    repeat (split; [first [reflexivity | assumption] |]).
    exact Ebt.
Qed.

(** Arrays of matching shapes are rotated without an exception. *)
Lemma inst2earth_apply_ok (reverse fx : bool) (rotmat : ndarray) (T C nd : nat)
    (o : adp) :
  shape rotmat = [3; 3; T]%nat ->
  shape (vel o) = [C; nd; T] -> (3 <= C)%nat ->
  match bt_vel o with
  | None => True
  | Some bt => exists Cb, shape bt = [Cb; T] /\ (3 <= Cb)%nat
  end ->
  exists o', inst2earth_apply reverse fx rotmat o = (o', inr tt).
Proof.
  intros Hs Hv HC Hbt. rewrite inst2earth_apply_eq. cbn zeta.
  set (fixed := truthy _). set (o0 := set_props _ o).
  assert (H1 : shape (first3 (vel o)) = [3; nd; T]%nat).
  { unfold first3. cbn [shape]. rewrite Hv. rewrite Nat.min_l by exact HC.
    reflexivity. }
  destruct (einsum_vel_ok reverse fixed rotmat _ T nd Hs H1) as [v Ev].
  destruct (einsum_vel_inv _ _ _ _ _ _ Hs Ev) as (nd' & nt' & Hb & Hsv & _).
  assert (H2 : shape (first3 (vel o)) = shape v) by congruence.
  destruct (assign_first3_ok _ _ H2) as [v0 Ev0].
  unfold inst2earth_einsum.
  erewrite bind_ok by reflexivity.
  change (vel o0) with (vel o). change (bt_vel o0) with (bt_vel o).
  erewrite bind_ok by (unfold lift; rewrite Ev; reflexivity).
  erewrite bind_ok by (unfold lift; rewrite Ev0; reflexivity).
  erewrite bind_ok by reflexivity.
  destruct (bt_vel o) as [bt |].
  - destruct Hbt as (Cb & Hsb & HCb).
    assert (H3 : shape (first3 bt) = [3; T]%nat).
    { unfold first3. cbn [shape]. rewrite Hsb. rewrite Nat.min_l by exact HCb.
      reflexivity. }
    destruct (einsum_bt_ok reverse fixed rotmat _ T Hs H3) as [b Eb].
    destruct (einsum_bt_inv _ _ _ _ _ _ Hs Eb) as (nt'' & Hbb & Hsb' & _).
    assert (H4 : shape (first3 bt) = shape b) by congruence.
    destruct (assign_first3_ok _ _ H4) as [b0 Eb0].
    erewrite bind_ok.
    + eexists. reflexivity.
    + erewrite bind_ok by (unfold lift; rewrite Eb; reflexivity).
      erewrite bind_ok by (unfold lift; rewrite Eb0; reflexivity).
      reflexivity.
  - erewrite bind_ok by reflexivity. eexists. reflexivity.
Qed.

(** ** The second part of [inst2earth]: the declination *)

Lemma inst2earth_declination_eq (reverse : bool) (o : adp) :
  inst2earth_declination reverse o
  = if negb reverse
       && bool_decide (is_Some (props o !! "declination"))
       && negb (truthy (default (PBool false)
                                (props o !! "declination_in_heading")))
    then match props o !! "declination" with
         | Some d =>
             match py_number d with
             | inr x =>
                 (set_props (<["declination_in_heading" := PBool true]> (props o))
                    (set_heading (map (fun hd => hd + x) (heading (orient o))) o),
                  inr tt)
             | inl e => (o, inl e)
             end
         | None => (o, inl (KeyError "declination"))
         end
    else (o, inr tt).
Proof.
  unfold inst2earth_declination, bind at 1, get, when.
  destruct (_ && _ && _); [| reflexivity].
  unfold props_getitem, bind, get.
  destruct (props o !! "declination") as [d |]; [| reflexivity].
  unfold ret, lift. destruct (py_number d); reflexivity.
Qed.

(** ** The third part of [inst2earth]: the rotation matrix *)

Lemma nth_map_lt {A} (f : A -> R) (l : list A) (t : nat) (d : A) :
  (t < length l)%nat -> nth t (map f l) 0 = f (nth t l d).
Proof.
  intros H. rewrite (nth_indep _ 0 (f d)) by (rewrite length_map; exact H).
  apply map_nth.
Qed.

Lemma nth_zip_with (f : R -> R -> R) (a b : list R) (t : nat) :
  (t < length a)%nat -> (t < length b)%nat ->
  nth t (zip_with f a b) 0 = f (nth t a 0) (nth t b 0).
Proof.
  revert b t. induction a as [| x a IH]; intros [| y b] [| t] Ha Hb;
    cbn in *; try lia; [reflexivity |].
  apply IH; lia.
Qed.

Lemma zip_with_length_eq (f : R -> R -> R) (a b : list R) :
  length a = length b -> length (zip_with f a b) = length b.
Proof.
  revert b. induction a as [| x a IH]; intros [| y b] H; cbn in *;
    try discriminate; [reflexivity |].
  f_equal. apply IH. lia.
Qed.

Lemma props_getitem_inv (k : string) (o o' : adp) (v : pyval) :
  props_getitem k o = (o', inr v) -> o' = o /\ props o !! k = Some v.
Proof.
  unfold props_getitem, bind, get.
  destruct (props o !! k) as [w |]; [| discriminate].
  unfold ret. intros H. injection H as <- <-. split; reflexivity.
Qed.

(** A matrix was returned: the record is as before, and the matrix holds
    the nine entries of every time step. *)
Lemma inst2earth_rotmat_inv (o o' : adp) (m : ndarray) :
  inst2earth_rotmat o = (o', inr m) ->
  o' = o
  /\ shape m = [3; 3; length (roll (orient o))]%nat
  /\ length (heading (orient o)) = length (roll (orient o))
  /\ (is_signature o = true ->
      existsb (fun u => negb (u =? 4)%Z) (orient_up (orient o)) = false)
  /\ forall i j t,
      (t < length (roll (orient o)))%nat ->
      item m [i; j; t]
      = rot_entry i j (heading_rad o t) (roll_rad o t) (pitch_rad o t).
Proof.
  intros H. unfold inst2earth_rotmat in H.
  apply bind_inv in H as (o1 & x & Hget & H).
  unfold get in Hget. injection Hget as <- <-.
  apply bind_inv in H as (o1 & p & Hp & H).
  apply lift_inv in Hp as [-> Hp].
  apply bind_inv in H as (o1 & mv & Hm & H).
  apply props_getitem_inv in Hm as [-> Hm].
  apply bind_inv in H as (o2 & model & Hml & H).
  apply lift_inv in Hml as [-> Hml].
  apply bind_inv in H as (o2 & [r p'] & Hrp & H).
  apply bind_inv in H as (o3 & [] & Hlen & H).
  apply bind_inv in H as (o4 & [] & Hsig & H).
  unfold ret in H. injection H as <- <-.
  destruct mv as [ms | |]; try discriminate.
  cbn [py_lower] in Hml. injection Hml as <-.
  assert (Esig : is_signature o = String.eqb (lower ms) "signature").
  { unfold is_signature. rewrite Hm. reflexivity. }
  unfold elementwise in Hp.
  destruct (decide _) as [Hpl |]; [| discriminate].
  injection Hp as <-. rewrite !length_map in Hpl.
  (* the corrections of roll and pitch *)
  assert (Hang :
            o2 = o /\ length r = length (roll (orient o))
            /\ forall t, (t < length (roll (orient o)))%nat ->
                 nth t r 0 = roll_rad o t /\ nth t p' 0 = pitch_rad o t).
  { unfold roll_rad, pitch_rad, tilt_suppressed, looks_up. rewrite Esig.
    assert (Hp0 : forall t, (t < length (roll (orient o)))%nat ->
              nth t (zip_with (fun pt c => atan (tan pt * c))
                       (map (fun x => x * deg2rad) (pitch (orient o)))
                       (map cos (map (fun x => x * deg2rad) (roll (orient o)))))
                  0
              = atan (tan (nth t (pitch (orient o)) 0 * deg2rad)
                      * cos (nth t (roll (orient o)) 0 * deg2rad))).
    { intros t Ht. rewrite nth_zip_with by (rewrite !length_map; lia).
      rewrite (nth_map_lt _ _ _ 0) by lia.
      rewrite (nth_map_lt cos _ _ 0) by (rewrite length_map; lia).
      rewrite (nth_map_lt _ _ _ 0) by lia. reflexivity. }
    destruct (String.eqb (lower ms) "signature"); cbn [negb andb] in *.
    - unfold ret in Hrp. injection Hrp as <- <- <-.
      split; [reflexivity | split; [apply length_map |]].
      intros t Ht. split; [| apply Hp0; exact Ht].
      rewrite (nth_map_lt _ _ _ 0) by exact Ht. reflexivity.
    - apply bind_inv in Hrp as (o5 & cs & Hcs & Hrp).
      apply props_getitem_inv in Hcs as [-> Hcs]. rewrite Hcs.
      destruct (py_eq_str cs "ship" && _);
        unfold ret in Hrp; injection Hrp as <- <- <-;
        destruct (String.eqb (orientation (config o)) "up");
        (split; [reflexivity | split; [rewrite ?length_map; reflexivity |]]);
        intros t Ht; split;
        try (apply Hp0; exact Ht).
      + rewrite (nth_map_lt _ _ _ 0) by (rewrite !length_map; exact Ht).
        reflexivity.
      + rewrite (nth_map_lt _ _ _ 0)
          by (rewrite zip_with_length_eq; rewrite !length_map; lia).
        reflexivity.
      + rewrite (nth_map_lt _ _ _ 0) by (rewrite !length_map; exact Ht).
        reflexivity.
      + rewrite (nth_map_lt _ _ _ 0)
          by (rewrite zip_with_length_eq; rewrite !length_map; lia).
        reflexivity.
      + rewrite (nth_map_lt _ _ _ 0) by (rewrite !length_map; exact Ht).
        rewrite (nth_map_lt _ _ _ 0) by exact Ht. reflexivity.
      + rewrite (nth_map_lt _ _ _ 0) by exact Ht. reflexivity. }
  destruct Hang as (-> & Hr & Hnth).
  destruct (bool_decide (length (map (fun x => x * deg2rad)
                                     (heading (orient o))) = length r)) eqn:Hh;
    [| cbn in Hlen; discriminate].
  apply bool_decide_eq_true in Hh. rewrite length_map in Hh.
  unfold when, ret in Hlen. cbn [negb] in Hlen. injection Hlen as <-.
  split; [| split; [| split; [| split]]].
  - destruct (String.eqb (lower ms) "signature");
      [destruct (existsb _ _); [discriminate |] |];
      unfold when, ret in Hsig; injection Hsig as <-; reflexivity.
  - cbn [fill_rotmat shape]. rewrite Hr. reflexivity.
  - congruence.
  - rewrite Esig. intros E. rewrite E in Hsig.
    destruct (existsb _ _); [discriminate | reflexivity].
  - intros i j t Ht. cbn [fill_rotmat item].
    destruct (Hnth t Ht) as [-> ->]. unfold heading_rad.
    rewrite (nth_map_lt _ _ _ 0) by lia. reflexivity.
Qed.

(** Building the matrix reads the record and never changes it. *)
Lemma inst2earth_rotmat_state (o : adp) : fst (inst2earth_rotmat o) = o.
Proof.
  unfold inst2earth_rotmat, props_getitem, bind, get, lift, when, raise, ret.
  repeat (case_scrutinee; cbn [fst snd]); reflexivity.
Qed.

Lemma inst2earth_rotmat_ok (o : adp) (ms : string) :
  props o !! "inst_model" = Some (PStr ms) ->
  (is_signature o = false -> is_Some (props o !! "coord_sys")) ->
  length (pitch (orient o)) = length (roll (orient o)) ->
  length (heading (orient o)) = length (roll (orient o)) ->
  (is_signature o = true ->
   existsb (fun u => negb (u =? 4)%Z) (orient_up (orient o)) = false) ->
  exists m, inst2earth_rotmat o = (o, inr m).
Proof.
  intros Hm Hcs Hp Hh Hup.
  assert (Esig : is_signature o = String.eqb (lower ms) "signature").
  { unfold is_signature. rewrite Hm. reflexivity. }
  unfold inst2earth_rotmat.
  erewrite bind_ok by reflexivity.
  erewrite bind_ok.
  2:{ unfold lift, elementwise. rewrite decide_True by (rewrite !length_map; exact Hp).
      reflexivity. }
  erewrite bind_ok by (apply props_getitem_some; exact Hm).
  erewrite bind_ok by reflexivity.
  rewrite <- Esig.
  destruct (is_signature o) eqn:E; cbn [negb].
  - erewrite bind_ok by reflexivity. lazy beta iota zeta.
    erewrite bind_ok.
    2:{ rewrite bool_decide_eq_true_2 by (rewrite !length_map; exact Hh).
        reflexivity. }
    rewrite (Hup eq_refl). eexists. reflexivity.
  - destruct (Hcs eq_refl) as [cs Ecs].
    erewrite bind_ok.
    2:{ erewrite bind_ok by (apply props_getitem_some; exact Ecs).
        instantiate (1 := if py_eq_str cs "ship"
                               && String.eqb (use_pitchroll (config o)) "yes"
                          then _ else _).
        destruct (py_eq_str cs "ship" && _); reflexivity. }
    destruct (py_eq_str cs "ship" && _); lazy beta iota zeta.
    all: erewrite bind_ok;
      [ eexists; reflexivity
      | rewrite bool_decide_eq_true_2; [reflexivity |];
        destruct (String.eqb (orientation (config o)) "up");
        rewrite !length_map; exact Hh ].
Qed.

(** ** What every call leaves alone *)

Lemma same_extra_refl (a : ndarray) : same_extra a a.
Proof. split; [reflexivity | intros; reflexivity]. Qed.

Lemma same_extra_assign (a b v : ndarray) :
  assign_first3 a b = inr v -> same_extra a v.
Proof.
  intros H. destruct (assign_first3_inv _ _ _ H) as (_ & Hs & Hhi & _).
  split; assumption.
Qed.

Lemma rotation_frame_refl (o : adp) : rotation_frame o o.
Proof.
  repeat split; try reflexivity.
  destruct (bt_vel o); [apply same_extra_refl | exact I].
Qed.

Lemma inst2earth_einsum_frame (ess : string) (rotmat : ndarray) (cs : string)
    (o : adp) :
  rotation_frame o (fst (inst2earth_einsum ess rotmat cs o)).
Proof.
  unfold inst2earth_einsum, bind at 1, get.
  unfold bind at 1, lift at 1.
  destruct (einsum ess rotmat (first3 (vel o))) as [e | v];
    [apply rotation_frame_refl |].
  unfold bind at 1, lift at 1.
  destruct (assign_first3 (vel o) v) as [e | v0] eqn:Ev0;
    [apply rotation_frame_refl |].
  apply same_extra_assign in Ev0.
  unfold bind at 1, modify at 1.
  destruct (bt_vel o) as [bt |] eqn:Ebt.
  - unfold bind at 2, lift at 1.
    destruct (einsum _ rotmat (first3 bt)) as [e | b].
    { unfold bind. cbn [fst].
      repeat split; cbn [set_vel orient config props vel bt_vel];
        try reflexivity; try apply Ev0.
      rewrite Ebt. apply same_extra_refl. }
    unfold bind at 2, lift at 1.
    destruct (assign_first3 bt b) as [e | b0] eqn:Eb0.
    { unfold bind. cbn [fst].
      repeat split; cbn [set_vel orient config props vel bt_vel];
        try reflexivity; try apply Ev0.
      rewrite Ebt. apply same_extra_refl. }
    apply same_extra_assign in Eb0.
    unfold props_setitem, bind, modify. cbn [fst].
    repeat split;
      cbn [set_vel set_bt_vel set_props orient config props vel bt_vel];
      try reflexivity; try apply Ev0; try apply Eb0.
    + intros k _ Hk. apply lookup_insert_ne. congruence.
    + rewrite Ebt. exact Eb0.
  - unfold props_setitem, bind, ret, modify. cbn [fst].
    repeat split;
      cbn [set_vel set_bt_vel set_props orient config props vel bt_vel];
      try reflexivity; try apply Ev0.
    + intros k _ Hk. apply lookup_insert_ne. congruence.
    + rewrite Ebt. exact I.
Qed.

Lemma inst2earth_apply_frame (reverse fx : bool) (rotmat : ndarray) (o : adp) :
  rotation_frame o (fst (inst2earth_apply reverse fx rotmat o)).
Proof.
  rewrite inst2earth_apply_eq. cbn zeta.
  match goal with
  | |- rotation_frame _ (fst (inst2earth_einsum ?e ?r ?c ?s)) =>
      destruct (inst2earth_einsum_frame e r c s) as (F1 & F2 & F3 & F4 & F5);
      set (o' := fst (inst2earth_einsum e r c s)) in *
  end.
  cbn [set_props orient config props vel bt_vel] in *.
  split; [exact F1 | split; [exact F2 | split; [| split; [exact F4 | exact F5]]]].
  intros k Hk1 Hk2. rewrite (F3 k Hk1 Hk2).
  destruct reverse; [apply lookup_delete_ne | apply lookup_insert_ne]; congruence.
Qed.

(** A call is stopped by the frame check, with nothing changed, or it
    goes through the declination and then at most rotates. *)
Lemma inst2earth_final (reverse fx force : bool) (o : adp) :
  (exists e, inst2earth_check reverse force o = (o, inl e)
             /\ inst2earth reverse fx force o = (o, inl e))
  \/ (inst2earth_check reverse force o = (o, inr tt)
      /\ rotation_frame (fst (inst2earth_declination reverse o))
                        (final (inst2earth reverse fx force) o)).
Proof.
  unfold final, inst2earth.
  destruct (inst2earth_check reverse force o) as [o0 [e | []]] eqn:Ec;
    assert (E0 := inst2earth_check_state reverse force o);
    rewrite Ec in E0; cbn [fst] in E0; subst o0.
  - left. exists e. split; [reflexivity |]. apply bind_raises. exact Ec.
  - right. split; [reflexivity |].
    rewrite (bind_ok _ _ _ _ _ Ec).
    destruct (inst2earth_declination reverse o) as [o1 [e | []]] eqn:Ed.
    + rewrite (bind_raises _ _ _ _ _ Ed). apply rotation_frame_refl.
    + rewrite (bind_ok _ _ _ _ _ Ed). cbn [fst].
      destruct (inst2earth_rotmat o1) as [o2 [e | m]] eqn:Er;
        assert (E2 := inst2earth_rotmat_state o1);
        rewrite Er in E2; cbn [fst] in E2; subst o2.
      * rewrite (bind_raises _ _ _ _ _ Er). apply rotation_frame_refl.
      * rewrite (bind_ok _ _ _ _ _ Er). apply inst2earth_apply_frame.
Qed.

(** A call that returned went through its four parts. *)
Lemma inst2earth_inv (reverse fx force : bool) (o o' : adp) :
  inst2earth reverse fx force o = (o', inr tt) ->
  exists o1 m,
    inst2earth_check reverse force o = (o, inr tt)
    /\ inst2earth_declination reverse o = (o1, inr tt)
    /\ inst2earth_rotmat o1 = (o1, inr m)
    /\ inst2earth_apply reverse fx m o1 = (o', inr tt).
Proof.
  unfold inst2earth. intros H.
  apply bind_inv in H as (o0 & [] & Hc & H).
  apply bind_inv in H as (o1 & [] & Hd & H).
  apply bind_inv in H as (o2 & m & Hr & H).
  assert (E0 := inst2earth_check_state reverse force o).
  rewrite Hc in E0. cbn [fst] in E0. subst o0.
  assert (E2 := inst2earth_rotmat_state o1).
  rewrite Hr in E2. cbn [fst] in E2. subst o2.
  exists o1, m. repeat split; assumption.
Qed.

Lemma inst2earth_compose (reverse fx force : bool) (o o1 o' : adp)
    (m : ndarray) (r : exn + unit) :
  inst2earth_check reverse force o = (o, inr tt) ->
  inst2earth_declination reverse o = (o1, inr tt) ->
  inst2earth_rotmat o1 = (o1, inr m) ->
  inst2earth_apply reverse fx m o1 = (o', r) ->
  inst2earth reverse fx force o = (o', r).
Proof.
  intros Hc Hd Hr Ha. unfold inst2earth.
  rewrite (bind_ok _ _ _ _ _ Hc), (bind_ok _ _ _ _ _ Hd), (bind_ok _ _ _ _ _ Hr).
  exact Ha.
Qed.

(** The declination step writes the heading and its own flag only. *)
Lemma inst2earth_declination_frame (reverse : bool) (o : adp) :
  let o1 := fst (inst2earth_declination reverse o) in
  vel o1 = vel o /\ bt_vel o1 = bt_vel o /\ config o1 = config o
  /\ roll (orient o1) = roll (orient o)
  /\ pitch (orient o1) = pitch (orient o)
  /\ orient_up (orient o1) = orient_up (orient o)
  /\ length (heading (orient o1)) = length (heading (orient o))
  /\ forall k : string,
      k <> "declination_in_heading"%string -> props o1 !! k = props o !! k.
Proof.
  rewrite inst2earth_declination_eq.
  destruct (_ && _ && _); [| cbn; repeat split; reflexivity].
  destruct (props o !! "declination") as [d |];
    [| cbn; repeat split; reflexivity].
  destruct (py_number d) as [e | x]; [cbn; repeat split; reflexivity |].
  cbn [fst set_props set_heading vel bt_vel config orient props roll pitch
       orient_up heading].
  repeat split; try reflexivity.
  - apply length_map.
  - intros k Hk. apply lookup_insert_ne. congruence.
Qed.

Lemma is_signature_ext (o o1 : adp) :
  props o1 !! "inst_model" = props o !! "inst_model" ->
  is_signature o1 = is_signature o.
Proof. intros H. unfold is_signature. rewrite H. reflexivity. Qed.

(** A record whose arrays fit together is rotated without an exception. *)
Lemma inst2earth_ok (reverse fx force : bool) (o : adp) (ms : string)
    (C nd T : nat) :
  inst2earth_check reverse force o = (o, inr tt) ->
  (forall d, props o !! "declination" = Some d -> exists x, py_number d = inr x) ->
  props o !! "inst_model" = Some (PStr ms) ->
  is_Some (props o !! "coord_sys") ->
  length (roll (orient o)) = T ->
  length (pitch (orient o)) = T ->
  length (heading (orient o)) = T ->
  (is_signature o = true ->
   existsb (fun u => negb (u =? 4)%Z) (orient_up (orient o)) = false) ->
  shape (vel o) = [C; nd; T] -> (3 <= C)%nat ->
  match bt_vel o with
  | None => True
  | Some bt => exists Cb, shape bt = [Cb; T] /\ (3 <= Cb)%nat
  end ->
  exists o', inst2earth reverse fx force o = (o', inr tt).
Proof.
  intros Hc Hd Hm Hcs Hr Hp Hh Hup Hv HC Hbt.
  assert (Ed : exists o1, inst2earth_declination reverse o = (o1, inr tt)).
  { rewrite inst2earth_declination_eq.
    destruct (_ && _ && _) eqn:E; [| eexists; reflexivity].
    destruct (props o !! "declination") as [d |] eqn:El.
    - destruct (Hd d eq_refl) as [x ->]. eexists. reflexivity.
    - rewrite bool_decide_eq_false_2 in E by (intros [? ?]; discriminate).
      rewrite andb_false_r in E. discriminate. }
  destruct Ed as [o1 Ed].
  destruct (inst2earth_declination_frame reverse o)
    as (F1 & F2 & F3 & F4 & F5 & F6 & F7 & F8).
  rewrite Ed in F1, F2, F3, F4, F5, F6, F7, F8. cbn [fst] in *.
  assert (Es : is_signature o1 = is_signature o)
    by (apply is_signature_ext, F8; discriminate).
  destruct (inst2earth_rotmat_ok o1 ms) as [m Em].
  - rewrite F8 by discriminate. exact Hm.
  - intros _. rewrite F8 by discriminate. exact Hcs.
  - congruence.
  - congruence.
  - rewrite Es, F6. exact Hup.
  - destruct (inst2earth_rotmat_inv _ _ _ Em) as (_ & Hsm & _).
    destruct (inst2earth_apply_ok reverse fx m T C nd o1) as [o' Ea].
    + rewrite Hsm. congruence.
    + congruence.
    + exact HC.
    + rewrite F2. exact Hbt.
    + exists o'. eapply inst2earth_compose; eassumption.
Qed.

(** ** C9: only the first three channels are rotated *)

(** C9: every [inst2earth] call, forward or reverse, completed or not,
    leaves the shape of [vel] and each of its channels after the third
    as they were, and likewise for [bt_vel], which it neither creates
    nor removes.  A completed call has built its matrices, by lines
    126-152, from the record as the declination step left it: one matrix
    per time step, of the entries [rot_entry] at the angles of that
    step.  It has replaced the first three channels of [vel], in every
    bin and at every time step, by their product with the matrix of the
    step, or with the mean of the matrices when the call runs in the
    fixed mode (forward: the argument; reverse: the recorded flag, or
    the argument when none is recorded), transposed in the reverse
    direction; and the first three channels of [bt_vel], when there is
    one, by the product with the same matrices, without the depth-bin
    axis. *)
Theorem inst2earth_rotates_first_three (reverse fx force : bool) (o : adp) :
  let o' := final (inst2earth reverse fx force) o in
  same_extra (vel o) (vel o')
  /\ match bt_vel o, bt_vel o' with
     | None, None => True
     | Some b, Some b' => same_extra b b'
     | _, _ => False
     end
  /\ (outcome (inst2earth reverse fx force) o = inr tt ->
      let oa := fst (inst2earth_declination reverse o) in
      let fixed :=
        truthy (if reverse
                then default (PBool fx) (props o !! "inst2earth:fixed")
                else PBool fx) in
      exists rotmat : ndarray,
        inst2earth_rotmat oa = (oa, inr rotmat)
        /\ shape rotmat = [3; 3; length (roll (orient o))]%nat
        /\ (forall i j t, (t < length (roll (orient o)))%nat ->
              item rotmat [i; j; t]
              = rot_entry i j (heading_rad oa t) (roll_rad oa t)
                  (pitch_rad oa t))
        /\ (forall i d t, (i < 3)%nat ->
              item (vel o') [i; d; t]
              = rsum 3 (fun j => applied_rotation reverse fixed rotmat i j t
                                 * item (vel o) [j; d; t]))
        /\ match bt_vel o with
           | None => bt_vel o' = None
           | Some bt =>
               exists bt',
                 bt_vel o' = Some bt'
                 /\ forall i t, (i < 3)%nat ->
                      item bt' [i; t]
                      = rsum 3 (fun j => applied_rotation reverse fixed rotmat i j t
                                         * item bt [j; t])
           end).
Proof.
  intros o'.
  destruct (inst2earth_declination_frame reverse o)
    as (F1 & F2 & _ & F4 & _ & _ & _ & F8).
  assert (Hframe :
            same_extra (vel o) (vel o')
            /\ match bt_vel o, bt_vel o' with
               | None, None => True
               | Some b, Some b' => same_extra b b'
               | _, _ => False
               end).
  { destruct (inst2earth_final reverse fx force o)
      as [(e & _ & He) | (_ & (_ & _ & _ & G4 & G5))].
    - subst o'. unfold final. rewrite He. cbn [fst].
      split; [apply same_extra_refl |].
      destruct (bt_vel o); [apply same_extra_refl | exact I].
    - fold o' in G4, G5. rewrite F1 in G4. rewrite F2 in G5.
      split; assumption. }
  destruct Hframe as [H1 H2].
  split; [exact H1 | split; [exact H2 |]].
  intros Hout oa fixed.
  assert (Hrun : inst2earth reverse fx force o = (o', inr tt)).
  { subst o'. unfold final, outcome in *.
    destruct (inst2earth reverse fx force o) as [o2 r]. cbn in *.
    rewrite Hout. reflexivity. }
  destruct (inst2earth_inv _ _ _ _ _ Hrun) as (o1 & m & Hc & Hd & Hr & Ha).
  subst oa fixed. rewrite Hd in *. cbn [fst] in *.
  destruct (inst2earth_rotmat_inv _ _ _ Hr) as (_ & Hsm & _ & _ & Hi).
  destruct (inst2earth_apply_inv _ _ _ _ _ _ Hsm Ha)
    as (_ & _ & _ & _ & _ & A6 & A7).
  rewrite F4 in Hsm, Hi.
  rewrite F8 in A6, A7 by discriminate.
  exists m. split; [exact Hr | split; [exact Hsm | split; [exact Hi | split]]].
  - intros i d t Hlt. rewrite (A6 i d t Hlt), F1. reflexivity.
  - rewrite F2 in A7. destruct (bt_vel o) as [bt |]; [| exact A7].
    destruct A7 as (bt' & B1 & _ & _ & B4). exists bt'. split; assumption.
Qed.

(** The angles of the first time step of [four_with_bottom]. *)
Lemma four_with_bottom_angles :
  heading_rad four_with_bottom 0 = PI / 2
  /\ roll_rad four_with_bottom 0 = 0
  /\ pitch_rad four_with_bottom 0 = 0.
Proof.
  unfold heading_rad, roll_rad, pitch_rad.
  change (tilt_suppressed four_with_bottom) with false.
  change (looks_up four_with_bottom) with false.
  cbn [four_with_bottom heading roll pitch orient nth].
  assert (E : 90 * deg2rad = PI / 2) by (unfold deg2rad; field).
  rewrite E, !Rmult_0_l, tan_0, Rmult_0_l, atan_0.
  repeat split; reflexivity.
Qed.

Lemma inst2earth_rotates_first_three_witness :
  outcome (inst2earth false false false) four_with_bottom = inr tt
  /\ same_extra (vel four_with_bottom)
       (vel (final (inst2earth false false false) four_with_bottom))
  /\ match bt_vel four_with_bottom,
           bt_vel (final (inst2earth false false false) four_with_bottom) with
     | None, None => True
     | Some b, Some b' => same_extra b b'
     | _, _ => False
     end
  /\ (exists rotmat : ndarray,
        inst2earth_rotmat four_with_bottom = (four_with_bottom, inr rotmat)
        /\ shape rotmat = [3; 3; 2]%nat
        /\ (forall i j t, (t < 2)%nat ->
              item rotmat [i; j; t]
              = rot_entry i j (heading_rad four_with_bottom t)
                  (roll_rad four_with_bottom t) (pitch_rad four_with_bottom t))
        /\ (forall i d t, (i < 3)%nat ->
              item (vel (final (inst2earth false false false) four_with_bottom))
                   [i; d; t]
              = rsum 3 (fun j => item rotmat [i; j; t]
                                 * item (vel four_with_bottom) [j; d; t]))
        /\ exists bt',
            bt_vel (final (inst2earth false false false) four_with_bottom)
            = Some bt'
            /\ forall i t, (i < 3)%nat ->
                 item bt' [i; t]
                 = rsum 3 (fun j => item rotmat [i; j; t] * INR (S j)))
  /\ (item (vel four_with_bottom) [0; 0; 0]%nat = 1
      /\ item (vel four_with_bottom) [1; 0; 0]%nat = 2
      /\ item (vel four_with_bottom) [2; 0; 0]%nat = 3
      /\ item (vel four_with_bottom) [3; 0; 0]%nat = 4)
  /\ (item (vel (final (inst2earth false false false) four_with_bottom))
           [0; 0; 0]%nat = 2
      /\ item (vel (final (inst2earth false false false) four_with_bottom))
              [1; 0; 0]%nat = -1
      /\ item (vel (final (inst2earth false false false) four_with_bottom))
              [2; 0; 0]%nat = 3
      /\ item (vel (final (inst2earth false false false) four_with_bottom))
              [3; 0; 0]%nat = 4).
Proof.
  assert (Hout : outcome (inst2earth false false false) four_with_bottom
                 = inr tt) by reflexivity.
  destruct (inst2earth_rotates_first_three false false false four_with_bottom)
    as (H1 & H2 & H3).
  assert (H4 := H3 Hout). lazy zeta in H4.
  change (fst (inst2earth_declination false four_with_bottom))
    with four_with_bottom in H4.
  change (length (roll (orient four_with_bottom))) with 2%nat in H4.
  split; [exact Hout | split; [exact H1 | split; [exact H2 |]]].
  split; [exact H4 |].
  assert (Hin : item (vel four_with_bottom) [0; 0; 0]%nat = 1
                /\ item (vel four_with_bottom) [1; 0; 0]%nat = 2
                /\ item (vel four_with_bottom) [2; 0; 0]%nat = 3
                /\ item (vel four_with_bottom) [3; 0; 0]%nat = 4).
  { cbn [four_with_bottom vel item INR]. repeat split; ring. }
  split; [exact Hin |].
  destruct Hin as (V0 & V1 & V2 & V3).
  destruct H4 as (m & _ & _ & Hi & Hv & _).
  destruct H1 as [_ Hrest].
  rewrite !Hv by lia. rewrite (Hrest 3%nat [0; 0]%nat) by lia.
  rewrite !rsum3. cbn [applied_rotation truthy]. rewrite !Hi by lia.
  destruct four_with_bottom_angles as (-> & -> & ->).
  unfold rot_entry. rewrite cos_PI2, sin_PI2, cos_0, sin_0.
  rewrite V0, V1, V2, V3.
  repeat split; ring.
Defined.

(** ** C8: the orientation mode of the reverse rotation *)

Lemma bind_ext {A B} (m : M A) (k k' : A -> M B) (o : adp) :
  (forall o1 x, m o = (o1, inr x) -> k x o1 = k' x o1) ->
  bind m k o = bind m k' o.
Proof.
  intros H. unfold bind. destruct (m o) as [o1 [e | x]]; [reflexivity |].
  apply H. reflexivity.
Qed.

Lemma inst2earth_declination_reverse (o : adp) :
  inst2earth_declination true o = (o, inr tt).
Proof. rewrite inst2earth_declination_eq. reflexivity. Qed.

(** C8: a forward call that completes has recorded its
    [fixed_orientation] argument under ['inst2earth:fixed'].  A reverse
    call on a record that holds a value under that key does not depend
    on its own [fixed_orientation] argument; when it completes the key
    is gone and the rotation applied is the one of the recorded mode.
    Only a reverse call on a record without the key applies the mode of
    its argument. *)
Theorem reverse_uses_recorded_mode (o o' : adp) (fx fx' force : bool) :
  (inst2earth false fx force o = (o', inr tt) ->
   props o' !! "inst2earth:fixed" = Some (PBool fx))
  /\ (forall v : pyval,
        props o !! "inst2earth:fixed" = Some v ->
        inst2earth true fx force o = inst2earth true fx' force o
        /\ (inst2earth true fx force o = (o', inr tt) ->
            props o' !! "inst2earth:fixed" = None
            /\ exists rotmat,
                inst2earth_rotmat o = (o, inr rotmat)
                /\ forall i d t, (i < 3)%nat ->
                     item (vel o') [i; d; t]
                     = rsum 3 (fun j =>
                                 applied_rotation true (truthy v) rotmat i j t
                                 * item (vel o) [j; d; t])))
  /\ (props o !! "inst2earth:fixed" = None ->
      inst2earth true fx force o = (o', inr tt) ->
      props o' !! "inst2earth:fixed" = None
      /\ exists rotmat,
          inst2earth_rotmat o = (o, inr rotmat)
          /\ forall i d t, (i < 3)%nat ->
               item (vel o') [i; d; t]
               = rsum 3 (fun j => applied_rotation true fx rotmat i j t
                                  * item (vel o) [j; d; t])).
Proof.
  assert (Hrev : forall w,
             default (PBool fx) (props o !! "inst2earth:fixed") = w ->
             inst2earth true fx force o = (o', inr tt) ->
             props o' !! "inst2earth:fixed" = None
             /\ exists rotmat,
                 inst2earth_rotmat o = (o, inr rotmat)
                 /\ forall i d t, (i < 3)%nat ->
                      item (vel o') [i; d; t]
                      = rsum 3 (fun j =>
                                  applied_rotation true (truthy w) rotmat i j t
                                  * item (vel o) [j; d; t])).
  { intros w Hw Hrun.
    destruct (inst2earth_inv _ _ _ _ _ Hrun) as (o1 & m & _ & Hd & Hr & Ha).
    rewrite inst2earth_declination_reverse in Hd. injection Hd as <-.
    destruct (inst2earth_rotmat_inv _ _ _ Hr) as (_ & Hsm & _).
    destruct (inst2earth_apply_inv _ _ _ _ _ _ Hsm Ha)
      as (_ & _ & A3 & _ & _ & A6 & _).
    split.
    - rewrite A3. rewrite lookup_insert_ne by discriminate.
      apply lookup_delete_eq.
    - exists m. split; [exact Hr |]. rewrite <- Hw. exact A6. }
  split; [| split].
  - intros Hrun.
    destruct (inst2earth_inv _ _ _ _ _ Hrun) as (o1 & m & _ & _ & Hr & Ha).
    destruct (inst2earth_rotmat_inv _ _ _ Hr) as (_ & Hsm & _).
    destruct (inst2earth_apply_inv _ _ _ _ _ _ Hsm Ha) as (_ & _ & A3 & _).
    rewrite A3. rewrite lookup_insert_ne by discriminate.
    apply lookup_insert_eq.
  - intros v Hv. split.
    + unfold inst2earth.
      apply bind_ext. intros o0 [] Hc.
      apply bind_ext. intros o1 [] Hd.
      apply bind_ext. intros o2 m Hr.
      assert (E0 := inst2earth_check_state true force o).
      rewrite Hc in E0. cbn [fst] in E0. subst o0.
      rewrite inst2earth_declination_reverse in Hd. injection Hd as <-.
      assert (E2 := inst2earth_rotmat_state o).
      rewrite Hr in E2. cbn [fst] in E2. subst o2.
      rewrite !inst2earth_apply_eq. cbn zeta. rewrite Hv. reflexivity.
    + apply Hrev. rewrite Hv. reflexivity.
  - intros Hn. apply (Hrev (PBool fx)). rewrite Hn. reflexivity.
Qed.

Lemma reverse_uses_recorded_mode_witness :
  props (final (inst2earth false true false) heading_east) !! "inst2earth:fixed"
  = Some (PBool true)
  /\ inst2earth true false false earth_fixed
     = inst2earth true true false earth_fixed.
Proof.
  split.
  - refine (proj1 (reverse_uses_recorded_mode
                     heading_east
                     (final (inst2earth false true false) heading_east)
                     true true false) _).
    reflexivity.
  - refine (proj1 (proj1 (proj2 (reverse_uses_recorded_mode
                                   earth_fixed earth_fixed false true false))
                         (PBool true) _)).
    reflexivity.
Defined.

(** ** C7: the declination is folded into the heading once *)

(** One call either leaves the heading and the flag as they are, or it
    is a forward call on a record whose flag is not set, and it adds the
    declination and sets the flag.  The declination itself stays. *)
Lemma inst2earth_heading_step (reverse fx force : bool) (o : adp) :
  let o' := final (inst2earth reverse fx force) o in
  props o' !! "declination" = props o !! "declination"
  /\ ((heading (orient o') = heading (orient o)
       /\ props o' !! "declination_in_heading"
          = props o !! "declination_in_heading")
      \/ (reverse = false /\ declination_folded o = false
          /\ exists d x,
              props o !! "declination" = Some d /\ py_number d = inr x
              /\ heading (orient o')
                 = map (fun hd => hd + x) (heading (orient o))
              /\ props o' !! "declination_in_heading" = Some (PBool true))).
Proof.
  intros o'.
  destruct (inst2earth_final reverse fx force o)
    as [(e & _ & He) | (_ & (G1 & _ & G3 & _))].
  { subst o'. unfold final. rewrite He. cbn [fst].
    split; [reflexivity | left; split; reflexivity]. }
  fold o' in G1, G3.
  rewrite (G3 "declination") by discriminate.
  rewrite (G3 "declination_in_heading") by discriminate.
  rewrite G1. clear G1 G3.
  rewrite inst2earth_declination_eq. unfold declination_folded.
  destruct reverse; cbn [negb andb fst];
    [cbn [fst]; split; [first [reflexivity | assumption] | left; split; reflexivity] |].
  destruct (bool_decide _) eqn:Eb; cbn [andb fst];
    [| cbn [fst]; split; [first [reflexivity | assumption] | left; split; reflexivity]].
  destruct (truthy _) eqn:Et; cbn [negb fst];
    [cbn [fst]; split; [first [reflexivity | assumption] | left; split; reflexivity] |].
  destruct (props o !! "declination") as [d |] eqn:Ed;
    [| cbn [fst]; split; [first [reflexivity | assumption] | left; split; reflexivity]].
  destruct (py_number d) as [e | x] eqn:Ex; cbn [fst];
    [cbn [fst]; split; [first [reflexivity | assumption] | left; split; reflexivity] |].
  cbn [set_props set_heading props orient heading].
  split.
  - rewrite lookup_insert_ne by discriminate. exact Ed.
  - right. split; [reflexivity | split; [reflexivity |]].
    exists d, x. repeat split; try reflexivity; try assumption.
    apply lookup_insert_eq.
Qed.

(** The first forward call that gets past the frame check. *)
Lemma forward_folds_declination (o : adp) (d : pyval) (x : R) (fx force : bool) :
  props o !! "declination" = Some d -> py_number d = inr x ->
  declination_folded o = false ->
  inst2earth_check false force o = (o, inr tt) ->
  let o' := final (inst2earth false fx force) o in
  heading (orient o') = map (fun hd => hd + x) (heading (orient o))
  /\ props o' !! "declination_in_heading" = Some (PBool true)
  /\ props o' !! "declination" = Some d
  /\ props o' !! "heading_offset" = props o !! "heading_offset".
Proof.
  intros Hd Hx Hf Hc o'.
  destruct (inst2earth_final false fx force o)
    as [(e & He & _) | (_ & (G1 & _ & G3 & _))]; [congruence |].
  fold o' in G1, G3.
  rewrite (G3 "declination_in_heading") by discriminate.
  rewrite (G3 "declination") by discriminate.
  rewrite (G3 "heading_offset") by discriminate.
  rewrite G1.
  rewrite inst2earth_declination_eq. fold (declination_folded o).
  rewrite Hf, Hd, Hx.
  rewrite bool_decide_eq_true_2 by (eexists; reflexivity).
  cbn [negb andb fst set_props set_heading props orient heading].
  split; [reflexivity | split; [apply lookup_insert_eq |]].
  split; rewrite lookup_insert_ne by discriminate; [exact Hd | reflexivity].
Qed.

(** C7: on a record that holds a (numeric) declination, the first
    forward call that gets past the frame check adds the declination to
    the heading and sets [declination_in_heading]; once the flag is set
    no sequence of calls changes the heading again; a reverse call never
    changes the heading; so over any sequence of calls on a record whose
    flag is not set the heading series is the original one, flag not
    set, or the original one plus the declination, flag set. *)
Theorem declination_added_once (o : adp) (d : pyval) (x : R)
    (Hd : props o !! "declination" = Some d) (Hx : py_number d = inr x) :
  (declination_folded o = false ->
   forall fx force,
     inst2earth_check false force o = (o, inr tt) ->
     let o' := final (inst2earth false fx force) o in
     heading (orient o') = map (fun hd => hd + x) (heading (orient o))
     /\ props o' !! "declination_in_heading" = Some (PBool true))
  /\ (declination_folded o = true ->
      forall calls,
        heading (orient (inst2earth_calls calls o)) = heading (orient o)
        /\ declination_folded (inst2earth_calls calls o) = true)
  /\ (forall fx force,
        heading (orient (final (inst2earth true fx force) o))
        = heading (orient o))
  /\ (declination_folded o = false ->
      forall calls,
        let o' := inst2earth_calls calls o in
        (heading (orient o') = heading (orient o)
         /\ declination_folded o' = false)
        \/ (heading (orient o') = map (fun hd => hd + x) (heading (orient o))
            /\ declination_folded o' = true)).
Proof.
  assert (Hset : forall (o0 : adp) calls,
             declination_folded o0 = true ->
             heading (orient (inst2earth_calls calls o0)) = heading (orient o0)
             /\ declination_folded (inst2earth_calls calls o0) = true).
  { intros o0 calls. revert o0.
    induction calls as [| [[rv f] fc] calls IH]; intros o0 Hf; cbn [inst2earth_calls].
    - split; [reflexivity | exact Hf].
    - destruct (inst2earth_heading_step rv f fc o0)
        as (_ & [(H1 & H2) | (_ & Hn & _)]); [| congruence].
      destruct (IH (final (inst2earth rv f fc) o0)) as [I1 I2].
      + unfold declination_folded in *. rewrite H2. exact Hf.
      + split; [congruence | exact I2]. }
  split; [| split; [| split]].
  - intros Hf fx force Hc o'.
    destruct (forward_folds_declination o d x fx force Hd Hx Hf Hc)
      as (H1 & H2 & _).
    split; assumption.
  - intros Hf calls. apply Hset. exact Hf.
  - intros fx force.
    destruct (inst2earth_heading_step true fx force o)
      as (_ & [(H1 & _) | (Hr & _)]); [exact H1 | discriminate].
  - intros Hf calls. revert o Hd Hf.
    induction calls as [| [[rv f] fc] calls IH]; intros o Hd Hf o';
      subst o'; cbn [inst2earth_calls].
    + left. split; [reflexivity | exact Hf].
    + destruct (inst2earth_heading_step rv f fc o)
        as (Hk & [(H1 & H2) | (_ & _ & d' & x' & Hd' & Hx' & H1 & H2)]).
      * destruct (IH (final (inst2earth rv f fc) o)) as [[I1 I2] | [I1 I2]].
        -- rewrite Hk. exact Hd.
        -- unfold declination_folded in *. rewrite H2. exact Hf.
        -- left. split; [congruence | exact I2].
        -- right. split; [congruence | exact I2].
      * assert (x' = x) by congruence. subst x'.
        destruct (Hset (final (inst2earth rv f fc) o) calls) as [I1 I2].
        -- unfold declination_folded. rewrite H2. reflexivity.
        -- right. split; [congruence | exact I2].
Qed.

Lemma declination_added_once_witness :
  heading (orient (final (inst2earth false false false) north_declined))
  = map (fun hd => hd + 10) (heading (orient north_declined))
  /\ props (final (inst2earth false false false) north_declined)
       !! "declination_in_heading" = Some (PBool true).
Proof.
  refine (proj1 (declination_added_once north_declined (PNum 10) 10 _ _)
                _ false false _);
    reflexivity.
Defined.

(** ** C10: the heading phase adds the declination again *)

(** C10: [inst2earth_heading] adds the declination of [props] to the
    heading whenever the key is there, whatever
    [declination_in_heading] says: it returns exp(-i h) with h the stored
    heading plus the heading offset (if any) plus the declination, in
    radians.  After a forward [inst2earth] call that has folded the
    declination into the stored heading, the phase therefore holds the
    declination twice. *)
Theorem heading_phase_adds_declination_again (o : adp) (d : pyval) (x off : R)
    (Hd : props o !! "declination" = Some d) (Hx : py_number d = inr x)
    (Hoff : match props o !! "heading_offset" with
            | Some v => py_number v = inr off
            | None => off = 0
            end) :
  inst2earth_heading o
  = (o, inr (map (fun hd => exp_neg_i ((hd + off + x) * deg2rad))
                 (heading (orient o))))
  /\ (declination_folded o = false ->
      forall fx force,
        inst2earth_check false force o = (o, inr tt) ->
        let o' := final (inst2earth false fx force) o in
        declination_folded o' = true
        /\ inst2earth_heading o'
           = (o', inr (map (fun hd => exp_neg_i ((hd + off + 2 * x) * deg2rad))
                           (heading (orient o))))).
Proof.
  assert (Hgen : forall o0 : adp,
             props o0 !! "declination" = Some d ->
             props o0 !! "heading_offset" = props o !! "heading_offset" ->
             inst2earth_heading o0
             = (o0, inr (map (fun hd => exp_neg_i ((hd + off + x) * deg2rad))
                             (heading (orient o0))))).
  { intros o0 H1 H2. unfold inst2earth_heading, bind at 1, get.
    rewrite H1, H2.
    destruct (props o !! "heading_offset") as [v |].
    - unfold bind, lift, ret. rewrite Hoff, Hx.
      do 2 f_equal. rewrite !map_map. apply map_ext. intros hd.
      f_equal. ring.
    - subst off. unfold bind, lift, ret. rewrite Hx.
      do 2 f_equal. rewrite !map_map. apply map_ext. intros hd.
      f_equal. ring. }
  split; [apply Hgen; [exact Hd | reflexivity] |].
  intros Hf fx force Hc o'.
  destruct (forward_folds_declination o d x fx force Hd Hx Hf Hc)
    as (H1 & H2 & H3 & H4).
  fold o' in H1, H2, H3, H4.
  split; [unfold declination_folded; rewrite H2; reflexivity |].
  rewrite (Hgen o' H3 H4). rewrite H1.
  do 2 f_equal. rewrite map_map. apply map_ext. intros hd.
  f_equal. ring.
Qed.

Lemma heading_phase_adds_declination_again_witness :
  inst2earth_heading (final (inst2earth false false false) north_declined)
  = (final (inst2earth false false false) north_declined,
     inr (map (fun hd => exp_neg_i ((hd + 0 + 2 * 10) * deg2rad))
              (heading (orient north_declined)))).
Proof.
  refine (proj2 (proj2 (heading_phase_adds_declination_again
                          north_declined (PNum 10) 10 0 _ _ _)
                       _ false false _));
    reflexivity.
Defined.

(** ** C6: a signature instrument that is not ZUP *)

(** The call stops at the frame check, at the declination or at the
    orientation test: the record it leaves is the one it got, or that
    one with the declination folded in. *)
Lemma inst2earth_signature_stops (o : adp) (ms : string)
    (reverse fx force : bool) :
  props o !! "inst_model" = Some (PStr ms) ->
  lower ms = "signature"%string ->
  existsb (fun u => negb (u =? 4)%Z) (orient_up (orient o)) = true ->
  exists e,
    inst2earth reverse fx force o = (o, inl e)
    \/ inst2earth reverse fx force o
       = (fst (inst2earth_declination reverse o), inl e).
Proof.
  intros Hm Hs Hup.
  destruct (inst2earth_final reverse fx force o)
    as [(e & _ & He) | (Hc & _)]; [exists e; left; exact He |].
  unfold inst2earth. rewrite (bind_ok _ _ _ _ _ Hc).
  destruct (inst2earth_declination_frame reverse o)
    as (_ & _ & _ & _ & _ & F6 & _ & F8).
  destruct (inst2earth_declination reverse o) as [o1 [e | []]] eqn:Ed;
    cbn [fst] in *.
  { exists e. right. apply bind_raises. exact Ed. }
  rewrite (bind_ok _ _ _ _ _ Ed).
  destruct (inst2earth_rotmat o1) as [o2 [e | m]] eqn:Er.
  - assert (E2 := inst2earth_rotmat_state o1).
    rewrite Er in E2. cbn [fst] in E2. subst o2.
    exists e. right. apply bind_raises. exact Er.
  - exfalso.
    destruct (inst2earth_rotmat_inv _ _ _ Er) as (_ & _ & _ & Hsig & _).
    rewrite F6 in Hsig. rewrite Hup in Hsig.
    assert (Es : is_signature o1 = true).
    { unfold is_signature. rewrite F8 by discriminate. rewrite Hm, Hs.
      reflexivity. }
    specialize (Hsig Es). discriminate.
Qed.

(** C6, as the specification states it, fails: on a signature record
    with orientation flag 0 and a declination of 10 degrees a forward
    call raises, and yet the heading has become 10 and
    [declination_in_heading] has been set. *)
Lemma signature_error_after_declination :
  outcome (inst2earth false false false) signature_xup
  = inl (Exception "Orientations other than 'ZUP' are not yet supported.")
  /\ heading (orient (final (inst2earth false false false) signature_xup))
     <> heading (orient signature_xup)
  /\ props (final (inst2earth false false false) signature_xup)
       !! "declination_in_heading"
     <> props signature_xup !! "declination_in_heading".
Proof.
  split; [reflexivity | split].
  - change (heading (orient (final (inst2earth false false false) signature_xup)))
      with [0 + 10].
    cbn [signature_xup heading orient]. intros H. injection H as H. lra.
  - change (props (final (inst2earth false false false) signature_xup)
              !! "declination_in_heading")
      with (Some (PBool true)).
    change (props signature_xup !! "declination_in_heading")
      with (@None pyval).
    discriminate.
Qed.

(** C6 (amended): on a record whose instrument model is 'signature' and
    whose orientation flags hold a value other than 4 (ZUP), every
    [inst2earth] call raises, and it rotates nothing: [vel], [bt_vel],
    the configuration, roll, pitch, the orientation flags and every key
    of [props] other than [declination_in_heading] (so [coord_sys] and
    ['inst2earth:fixed'] too) are as before the call.  The heading and
    [declination_in_heading] are as before as well when the call is a
    reverse one, when there is no declination or when it is already in
    the heading. *)
Theorem signature_orientation_error (o : adp) (ms : string)
    (reverse fx force : bool)
    (Hm : props o !! "inst_model" = Some (PStr ms))
    (Hs : lower ms = "signature"%string)
    (Hup : existsb (fun u => negb (u =? 4)%Z) (orient_up (orient o)) = true) :
  let o' := final (inst2earth reverse fx force) o in
  (exists e, outcome (inst2earth reverse fx force) o = inl e)
  /\ vel o' = vel o /\ bt_vel o' = bt_vel o /\ config o' = config o
  /\ roll (orient o') = roll (orient o)
  /\ pitch (orient o') = pitch (orient o)
  /\ orient_up (orient o') = orient_up (orient o)
  /\ (forall k : string,
        k <> "declination_in_heading"%string -> props o' !! k = props o !! k)
  /\ (reverse = true \/ props o !! "declination" = None
      \/ declination_folded o = true -> o' = o).
Proof.
  intros o'.
  destruct (inst2earth_signature_stops o ms reverse fx force Hm Hs Hup)
    as (e & [He | He]).
  - subst o'. unfold final, outcome. rewrite He. cbn [fst snd].
    split; [exists e; reflexivity |]. repeat split; reflexivity.
  - destruct (inst2earth_declination_frame reverse o)
      as (F1 & F2 & F3 & F4 & F5 & F6 & _ & F8).
    subst o'. unfold final, outcome. rewrite He. cbn [fst snd].
    split; [exists e; reflexivity |].
    repeat (split; [assumption |]).
    intros Hskip. rewrite inst2earth_declination_eq.
    fold (declination_folded o).
    destruct Hskip as [-> | [Hn | Hf]].
    + reflexivity.
    + rewrite Hn. rewrite bool_decide_eq_false_2 by (intros [? ?]; discriminate).
      rewrite andb_false_r. reflexivity.
    + rewrite Hf. cbn [negb]. rewrite andb_false_r. reflexivity.
Qed.

Lemma signature_orientation_error_witness :
  (exists e, outcome (inst2earth false false false) signature_xup = inl e)
  /\ vel (final (inst2earth false false false) signature_xup)
     = vel signature_xup
  /\ props (final (inst2earth false false false) signature_xup) !! "coord_sys"
     = props signature_xup !! "coord_sys".
Proof.
  destruct (signature_orientation_error signature_xup "Signature"
              false false false)
    as (H1 & H2 & _ & _ & _ & _ & _ & H8 & _); try reflexivity.
  split; [exact H1 | split; [exact H2 |]].
  apply H8. discriminate.
Defined.

(** ** C1: the entries of the rotation matrix *)

Lemma deg90 : 90 * deg2rad = PI / 2.
Proof. unfold deg2rad. field. Qed.

Lemma heading_east_angles :
  heading_rad heading_east 0 = PI / 2
  /\ roll_rad heading_east 0 = 0
  /\ pitch_rad heading_east 0 = 0.
Proof.
  unfold heading_rad, roll_rad, pitch_rad.
  change (tilt_suppressed heading_east) with false.
  change (looks_up heading_east) with false.
  cbn [heading_east heading roll pitch orient nth].
  rewrite deg90, !Rmult_0_l, tan_0, Rmult_0_l, atan_0.
  repeat split; reflexivity.
Qed.

(** C1: on a record whose orientation series have one length, the
    matrix that [inst2earth] builds has, at each time step, the entries
    M[0,0] = ch cr + sh sp sr, M[0,1] = sh cp, M[0,2] = ch sr - sh sp cr,
    M[1,0] = -sh cr + ch sp sr, M[1,1] = ch cp, M[1,2] = -sh sr - ch sp cr,
    M[2,0] = -cp sr, M[2,1] = sp, M[2,2] = cp cr, in the cosines and
    sines of the heading h, roll r and pitch p of that step; unless a
    correction applies (an instrument looking up, ship data with
    pitch and roll switched off), h and r are the heading and roll in
    radians and p = atan (tan (pitch in radians) * cos r).  For heading
    90, pitch 0 and roll 0 the matrix is [[0,1,0],[-1,0,0],[0,0,1]] and
    the forward call takes the velocity (1,0,0) to (0,-1,0). *)
Theorem rotation_matrix_entries (o : adp) (ms : string)
    (Hm : props o !! "inst_model" = Some (PStr ms))
    (Hcs : is_Some (props o !! "coord_sys"))
    (Hp : length (pitch (orient o)) = length (roll (orient o)))
    (Hh : length (heading (orient o)) = length (roll (orient o)))
    (Hup : is_signature o = true ->
           existsb (fun u => negb (u =? 4)%Z) (orient_up (orient o)) = false) :
  (exists m,
      inst2earth_rotmat o = (o, inr m)
      /\ shape m = [3; 3; length (roll (orient o))]%nat
      /\ forall t, (t < length (roll (orient o)))%nat ->
           let ch := cos (heading_rad o t) in
           let sh := sin (heading_rad o t) in
           let cr := cos (roll_rad o t) in
           let sr := sin (roll_rad o t) in
           let cp := cos (pitch_rad o t) in
           let sp := sin (pitch_rad o t) in
           item m [0; 0; t]%nat = ch * cr + sh * sp * sr
           /\ item m [0; 1; t]%nat = sh * cp
           /\ item m [0; 2; t]%nat = ch * sr - sh * sp * cr
           /\ item m [1; 0; t]%nat = - sh * cr + ch * sp * sr
           /\ item m [1; 1; t]%nat = ch * cp
           /\ item m [1; 2; t]%nat = - sh * sr - ch * sp * cr
           /\ item m [2; 0; t]%nat = - cp * sr
           /\ item m [2; 1; t]%nat = sp
           /\ item m [2; 2; t]%nat = cp * cr)
  /\ (tilt_suppressed o = false -> looks_up o = false ->
      forall t,
        let r := nth t (roll (orient o)) 0 * (PI / 180) in
        heading_rad o t = nth t (heading (orient o)) 0 * (PI / 180)
        /\ roll_rad o t = r
        /\ pitch_rad o t
           = atan (tan (nth t (pitch (orient o)) 0 * (PI / 180)) * cos r))
  /\ (exists m,
        inst2earth_rotmat heading_east = (heading_east, inr m)
        /\ (item m [0; 0; 0]%nat = 0 /\ item m [0; 1; 0]%nat = 1 /\ item m [0; 2; 0]%nat = 0)
        /\ (item m [1; 0; 0]%nat = -1 /\ item m [1; 1; 0]%nat = 0 /\ item m [1; 2; 0]%nat = 0)
        /\ (item m [2; 0; 0]%nat = 0 /\ item m [2; 1; 0]%nat = 0 /\ item m [2; 2; 0]%nat = 1))
  /\ (let o' := final (inst2earth false false false) heading_east in
      outcome (inst2earth false false false) heading_east = inr tt
      /\ (item (vel heading_east) [0; 0; 0]%nat = 1
          /\ item (vel heading_east) [1; 0; 0]%nat = 0
          /\ item (vel heading_east) [2; 0; 0]%nat = 0)
      /\ (item (vel o') [0; 0; 0]%nat = 0
          /\ item (vel o') [1; 0; 0]%nat = -1
          /\ item (vel o') [2; 0; 0]%nat = 0)).
Proof.
  assert (Heast : exists m,
             inst2earth_rotmat heading_east = (heading_east, inr m)
             /\ forall i j,
                 item m [i; j; 0%nat] = rot_entry i j (PI / 2) 0 0).
  { destruct (inst2earth_rotmat_ok heading_east "AWAC") as [m Em];
      try reflexivity; try discriminate; [eexists; reflexivity |].
    exists m. split; [exact Em |].
    destruct (inst2earth_rotmat_inv _ _ _ Em) as (_ & _ & _ & _ & Hi).
    intros i j. rewrite Hi by (cbn; lia).
    destruct heading_east_angles as (-> & -> & ->). reflexivity. }
  split; [| split; [| split]].
  - destruct (inst2earth_rotmat_ok o ms Hm (fun _ => Hcs) Hp Hh Hup) as [m Em].
    exists m. split; [exact Em |].
    destruct (inst2earth_rotmat_inv _ _ _ Em) as (_ & Hsm & _ & _ & Hi).
    split; [exact Hsm |].
    intros t Ht. cbn zeta. rewrite !Hi by exact Ht.
    repeat split; reflexivity.
  - intros Hts Hlu t. unfold heading_rad, roll_rad, pitch_rad.
    rewrite Hts, Hlu. repeat split; reflexivity.
  - destruct Heast as (m & Em & Hi). exists m. split; [exact Em |].
    rewrite !Hi. unfold rot_entry.
    rewrite cos_PI2, sin_PI2, cos_0, sin_0.
    repeat split; ring.
  - destruct Heast as (m & Em & Hi).
    assert (Hrun : inst2earth false false false heading_east
                   = (final (inst2earth false false false) heading_east, inr tt))
      by reflexivity.
    destruct (inst2earth_inv _ _ _ _ _ Hrun) as (o1 & m' & _ & Hd & Hr & Ha).
    assert (o1 = heading_east).
    { assert (Hd' : inst2earth_declination false heading_east
                    = (heading_east, inr tt)) by reflexivity.
      congruence. }
    subst o1. rewrite Em in Hr. injection Hr as <-.
    destruct (inst2earth_rotmat_inv _ _ _ Em) as (_ & Hsm & _).
    destruct (inst2earth_apply_inv _ _ _ _ _ _ Hsm Ha)
      as (_ & _ & _ & _ & _ & A6 & _).
    cbn zeta. split; [reflexivity |].
    split; [repeat split; reflexivity |].
    rewrite !A6 by lia. rewrite !rsum3.
    cbn [applied_rotation truthy]. rewrite !Hi. unfold rot_entry.
    rewrite cos_PI2, sin_PI2, cos_0, sin_0.
    cbn [heading_east vel unit_x item].
    repeat split; ring.
Qed.

Lemma rotation_matrix_entries_witness :
  exists m,
    inst2earth_rotmat heading_east = (heading_east, inr m)
    /\ shape m = [3; 3; 1]%nat.
Proof.
  destruct (proj1 (rotation_matrix_entries heading_east "AWAC"
                     eq_refl (ex_intro _ (PStr "inst") eq_refl)
                     eq_refl eq_refl (fun H => eq_refl)))
    as (m & Em & Hs & _).
  exists m. split; [exact Em | exact Hs].
Defined.

(** ** C3: the reverse rotation undoes the forward one *)

(** The columns of the matrix of one time step are orthonormal. *)
Lemma rot_entry_orthonormal (h r p : R) (i k : nat) :
  (i < 3)%nat -> (k < 3)%nat ->
  rsum 3 (fun j => rot_entry j i h r p * rot_entry j k h r p)
  = if (i =? k)%nat then 1 else 0.
Proof.
  intros Hi Hk. rewrite rsum3.
  assert (H1 := sq_sin_cos h). assert (H2 := sq_sin_cos r).
  assert (H3 := sq_sin_cos p).
  unfold rot_entry.
  set (ch := cos h) in *. set (sh := sin h) in *.
  set (cr := cos r) in *. set (sr := sin r) in *.
  set (cp := cos p) in *. set (sp := sin p) in *.
  destruct i as [| [| [| i]]]; [| | | lia];
    (destruct k as [| [| [| k]]]; [| | | lia]);
    cbn [Nat.eqb]; nsatz.
Qed.

Lemma undo_rotation (f : nat -> nat -> R) (v : nat -> R) (i : nat) :
  (forall a b, (a < 3)%nat -> (b < 3)%nat ->
     rsum 3 (fun j => f j a * f j b) = if (a =? b)%nat then 1 else 0) ->
  (i < 3)%nat ->
  rsum 3 (fun j => f j i * rsum 3 (fun k => f j k * v k)) = v i.
Proof.
  intros Hf Hi.
  assert (H0 := Hf i 0%nat Hi ltac:(lia)).
  assert (H1 := Hf i 1%nat Hi ltac:(lia)).
  assert (H2 := Hf i 2%nat Hi ltac:(lia)).
  rewrite !rsum3 in *.
  destruct i as [| [| [| i]]]; [| | | lia]; cbn [Nat.eqb] in *; nsatz.
Qed.

Lemma tilt_suppressed_earth (o : adp) :
  props o !! "coord_sys" = Some (PStr "earth") -> tilt_suppressed o = false.
Proof.
  intros H. unfold tilt_suppressed. rewrite H. cbn [py_eq_str].
  change (String.eqb "earth" "ship") with false.
  rewrite andb_false_r. reflexivity.
Qed.

(** C3 (amended): with the fixed orientation switched off, on a record
    whose arrays fit together and on which roll and pitch are not
    suppressed (that is, unless the data are in the ship frame with
    [use_pitchroll] set to ['yes'] on a model other than the signature),
    a forward [inst2earth] call that the frame check lets through
    completes, the reverse call on its result completes, and the
    velocity (and the bottom-track velocity) after the two calls is the
    one before them, in every channel, bin and time step. *)
Theorem inst2earth_round_trip (o : adp) (ms : string) (C nd T : nat)
    (fx' force force' : bool)
    (Hc : inst2earth_check false force o = (o, inr tt))
    (Hts : tilt_suppressed o = false)
    (Hd : forall d, props o !! "declination" = Some d ->
                    exists x, py_number d = inr x)
    (Hm : props o !! "inst_model" = Some (PStr ms))
    (Hcs : is_Some (props o !! "coord_sys"))
    (Hr : length (roll (orient o)) = T)
    (Hp : length (pitch (orient o)) = T)
    (Hh : length (heading (orient o)) = T)
    (Hup : is_signature o = true ->
           existsb (fun u => negb (u =? 4)%Z) (orient_up (orient o)) = false)
    (Hv : shape (vel o) = [C; nd; T]) (HC : (3 <= C)%nat)
    (Hbt : match bt_vel o with
           | None => True
           | Some bt => exists Cb, shape bt = [Cb; T] /\ (3 <= Cb)%nat
           end) :
  exists o1 o2,
    inst2earth false false force o = (o1, inr tt)
    /\ inst2earth true fx' force' o1 = (o2, inr tt)
    /\ shape (vel o2) = shape (vel o)
    /\ (forall i d t, (t < T)%nat ->
          item (vel o2) [i; d; t] = item (vel o) [i; d; t])
    /\ match bt_vel o with
       | None => bt_vel o2 = None
       | Some bt =>
           exists bt2,
             bt_vel o2 = Some bt2 /\ shape bt2 = shape bt
             /\ forall i t, (t < T)%nat -> item bt2 [i; t] = item bt [i; t]
       end.
Proof.
  (* the forward call *)
  destruct (inst2earth_ok false false force o ms C nd T
              Hc Hd Hm Hcs Hr Hp Hh Hup Hv HC Hbt) as [o1 Hrun1].
  destruct (inst2earth_inv _ _ _ _ _ Hrun1) as (oa & m1 & _ & Hd1 & Hr1 & Ha1).
  destruct (inst2earth_declination_frame false o)
    as (F1 & F2 & F3 & F4 & F5 & F6 & F7 & F8).
  rewrite Hd1 in F1, F2, F3, F4, F5, F6, F7, F8. cbn [fst] in *.
  destruct (inst2earth_rotmat_inv _ _ _ Hr1) as (_ & Hs1 & _ & _ & Hi1).
  destruct (inst2earth_apply_inv _ _ _ _ _ _ Hs1 Ha1)
    as (A1 & A2 & A3 & A4 & A5 & A6 & A7).
  cbn [truthy] in A6, A7.
  assert (Hcs1 : props o1 !! "coord_sys" = Some (PStr "earth"))
    by (rewrite A3; apply lookup_insert_eq).
  assert (Hfx1 : props o1 !! "inst2earth:fixed" = Some (PBool false)).
  { rewrite A3. rewrite lookup_insert_ne by discriminate.
    apply lookup_insert_eq. }
  assert (Hother : forall k : string,
             k <> "coord_sys"%string -> k <> "inst2earth:fixed"%string ->
             k <> "declination_in_heading"%string ->
             props o1 !! k = props o !! k).
  { intros k K1 K2 K3. rewrite A3.
    rewrite !lookup_insert_ne by congruence. apply F8. exact K3. }
  assert (Hsig1 : is_signature o1 = is_signature o)
    by (apply is_signature_ext, Hother; discriminate).
  assert (Hsiga : is_signature oa = is_signature o)
    by (apply is_signature_ext, F8; discriminate).
  (* the reverse call *)
  assert (Hc2 : inst2earth_check true force' o1 = (o1, inr tt)).
  { destruct force'; [reflexivity |].
    rewrite (inst2earth_check_reverse o1 "earth" Hcs1). reflexivity. }
  assert (Hbt1 : match bt_vel o1 with
                 | None => True
                 | Some bt => exists Cb, shape bt = [Cb; T] /\ (3 <= Cb)%nat
                 end).
  { rewrite F2 in A7. destruct (bt_vel o) as [bt |].
    - destruct A7 as (bt' & -> & Hsb & _). rewrite Hsb. exact Hbt.
    - rewrite A7. exact I. }
  destruct (inst2earth_ok true fx' force' o1 ms C nd T) as [o2 Hrun2];
    try assumption.
  { intros d Hd'. apply Hd. rewrite <- Hother by discriminate. exact Hd'. }
  { rewrite Hother by discriminate. exact Hm. }
  { rewrite Hcs1. eexists. reflexivity. }
  { rewrite A1, F4. exact Hr. }
  { rewrite A1, F5. exact Hp. }
  { rewrite A1, F7. exact Hh. }
  { rewrite Hsig1, A1, F6. exact Hup. }
  { rewrite A4, F1. exact Hv. }
  destruct (inst2earth_inv _ _ _ _ _ Hrun2) as (ob & m2 & _ & Hd2 & Hr2 & Ha2).
  rewrite inst2earth_declination_reverse in Hd2. injection Hd2 as <-.
  destruct (inst2earth_rotmat_inv _ _ _ Hr2) as (_ & Hs2 & _ & _ & Hi2).
  destruct (inst2earth_apply_inv _ _ _ _ _ _ Hs2 Ha2)
    as (B1 & B2 & B3 & B4 & B5 & B6 & B7).
  assert (Hfix2 : truthy (default (PBool fx') (props o1 !! "inst2earth:fixed"))
                  = false) by (rewrite Hfx1; reflexivity).
  rewrite Hfix2 in B6, B7. cbn [applied_rotation] in B6, B7.
  cbn [applied_rotation] in A6, A7.
  (* both calls build the same matrices *)
  assert (Hsame : forall i j t, (t < T)%nat ->
             item m2 [i; j; t] = item m1 [i; j; t]).
  { intros i j t Ht. rewrite Hi2 by (rewrite A1, F4, Hr; exact Ht).
    rewrite Hi1 by (rewrite F4, Hr; exact Ht).
    unfold heading_rad, roll_rad, pitch_rad, looks_up.
    rewrite (tilt_suppressed_earth o1 Hcs1).
    assert (Hta : tilt_suppressed oa = false).
    { rewrite <- Hts. unfold tilt_suppressed.
      rewrite Hsiga, F3, F8 by discriminate. reflexivity. }
    rewrite Hta, Hsig1, Hsiga, A1, A2. reflexivity. }
  assert (Horth : forall t a b, (t < T)%nat -> (a < 3)%nat -> (b < 3)%nat ->
             rsum 3 (fun j => item m1 [j; a; t] * item m1 [j; b; t])
             = if (a =? b)%nat then 1 else 0).
  { intros t a b Ht Ha Hb.
    rewrite <- (rot_entry_orthonormal (heading_rad oa t) (roll_rad oa t)
                  (pitch_rad oa t) a b Ha Hb).
    rewrite !rsum3. rewrite !Hi1 by (rewrite F4, Hr; exact Ht). reflexivity. }
  exists o1, o2. split; [exact Hrun1 | split; [exact Hrun2 |]].
  split; [rewrite B4, A4, F1; reflexivity | split].
  - intros i d t Ht.
    destruct (Nat.lt_ge_cases i 3) as [Hi | Hi].
    + rewrite (B6 i d t Hi).
      transitivity
        (rsum 3 (fun j => item m1 [j; i; t]
                          * rsum 3 (fun k => item m1 [j; k; t]
                                             * item (vel o) [k; d; t]))).
      * rewrite !(rsum3 (fun j => _ * item (vel o1) _)).
        rewrite !(rsum3 (fun j => _ * rsum 3 _)).
        rewrite !Hsame by exact Ht.
        rewrite !A6 by lia. rewrite F1. reflexivity.
      * apply (undo_rotation (fun a b => item m1 [a; b; t])
                 (fun k => item (vel o) [k; d; t]) i); [| exact Hi].
        intros a b. apply Horth. exact Ht.
    + rewrite (B5 i [d; t] Hi), (A5 i [d; t] Hi), F1. reflexivity.
  - rewrite F2 in A7. destruct (bt_vel o) as [bt |].
    + destruct A7 as (bt1 & E1 & S1 & X1 & Y1). rewrite E1 in B7.
      destruct B7 as (bt2 & E2 & S2 & X2 & Y2).
      exists bt2. split; [exact E2 | split; [congruence |]].
      intros i t Ht.
      destruct (Nat.lt_ge_cases i 3) as [Hi | Hi].
      * rewrite (Y2 i t Hi).
        transitivity
          (rsum 3 (fun j => item m1 [j; i; t]
                            * rsum 3 (fun k => item m1 [j; k; t]
                                               * item bt [k; t]))).
        -- rewrite !(rsum3 (fun j => _ * item bt1 _)).
           rewrite !(rsum3 (fun j => _ * rsum 3 _)).
           rewrite !Hsame by exact Ht.
           rewrite !Y1 by lia. reflexivity.
        -- apply (undo_rotation (fun a b => item m1 [a; b; t])
                    (fun k => item bt [k; t]) i); [| exact Hi].
           intros a b. apply Horth. exact Ht.
      * rewrite (X2 i [t] Hi), (X1 i [t] Hi). reflexivity.
    + rewrite A7 in B7. exact B7.
Qed.

Lemma inst2earth_round_trip_witness :
  exists o1 o2,
    inst2earth false false false heading_east = (o1, inr tt)
    /\ inst2earth true false false o1 = (o2, inr tt)
    /\ forall i d t, (t < 1)%nat ->
         item (vel o2) [i; d; t] = item (vel heading_east) [i; d; t].
Proof.
  destruct (inst2earth_round_trip heading_east "AWAC" 3 1 1 false false false
              eq_refl eq_refl
              ltac:(intros d H; discriminate H)
              eq_refl (ex_intro _ (PStr "inst") eq_refl)
              eq_refl eq_refl eq_refl
              ltac:(intros H; reflexivity)
              eq_refl (le_n 3) I)
    as (o1 & o2 & H1 & H2 & _ & H4 & _).
  exists o1, o2. split; [exact H1 | split; [exact H2 | exact H4]].
Defined.

(** What a completed call computed, in one statement. *)
Lemma inst2earth_completed (reverse fx force : bool) (o o' : adp) :
  inst2earth reverse fx force o = (o', inr tt) ->
  let oa := fst (inst2earth_declination reverse o) in
  let fixed := truthy (if reverse
                       then default (PBool fx) (props oa !! "inst2earth:fixed")
                       else PBool fx) in
  exists m,
    (forall i j t, (t < length (roll (orient oa)))%nat ->
       item m [i; j; t]
       = rot_entry i j (heading_rad oa t) (roll_rad oa t) (pitch_rad oa t))
    /\ forall i d t, (i < 3)%nat ->
         item (vel o') [i; d; t]
         = rsum 3 (fun j => applied_rotation reverse fixed m i j t
                            * item (vel o) [j; d; t]).
Proof.
  intros Hrun oa fixed.
  destruct (inst2earth_inv _ _ _ _ _ Hrun) as (o1 & m & _ & Hd & Hr & Ha).
  destruct (inst2earth_declination_frame reverse o) as (F1 & _).
  subst oa fixed. rewrite Hd in *. cbn [fst] in *.
  destruct (inst2earth_rotmat_inv _ _ _ Hr) as (_ & Hsm & _ & _ & Hi).
  destruct (inst2earth_apply_inv _ _ _ _ _ _ Hsm Ha)
    as (_ & _ & _ & _ & _ & A6 & _).
  exists m. split; [exact Hi |].
  intros i d t Hlt. rewrite (A6 i d t Hlt), F1. reflexivity.
Qed.

Lemma deg180 : 180 * deg2rad = PI.
Proof. unfold deg2rad. field. Qed.

(** C3, as the specification states it, fails for the ship frame with
    pitch and roll switched off: the forward call zeroes a roll of 180
    degrees and leaves the velocity (1,0,0) as it is, the reverse call,
    now on earth-frame data, does not, and returns (-1,0,0). *)
Lemma ship_round_trip_differs :
  let o1 := final (inst2earth false false false) ship_rolled in
  let o2 := final (inst2earth true false false) o1 in
  outcome (inst2earth false false false) ship_rolled = inr tt
  /\ outcome (inst2earth true false false) o1 = inr tt
  /\ item (vel ship_rolled) [0; 0; 0]%nat = 1
  /\ item (vel o2) [0; 0; 0]%nat = -1.
Proof.
  intros o1 o2.
  assert (Hrun1 : inst2earth false false false ship_rolled = (o1, inr tt))
    by reflexivity.
  assert (Hrun2 : inst2earth true false false o1 = (o2, inr tt))
    by reflexivity.
  split; [reflexivity | split; [reflexivity | split; [reflexivity |]]].
  destruct (inst2earth_completed _ _ _ _ _ Hrun1) as (m1 & Hi1 & Hv1).
  destruct (inst2earth_completed _ _ _ _ _ Hrun2) as (m2 & Hi2 & Hv2).
  change (fst (inst2earth_declination false ship_rolled)) with ship_rolled
    in Hi1, Hv1.
  change (fst (inst2earth_declination true o1)) with o1 in Hi2, Hv2.
  change (props o1 !! "inst2earth:fixed") with (Some (PBool false)) in Hv2.
  cbn [truthy applied_rotation] in Hv1.
  change (truthy (default (PBool false) (Some (PBool false)))) with false in Hv2.
  cbn [applied_rotation] in Hv2.
  rewrite Hv2 by lia. rewrite rsum3. rewrite !Hv1 by lia. rewrite !rsum3.
  rewrite !Hi2 by (change (length (roll (orient o1))) with 1%nat; lia).
  rewrite !Hi1 by (cbn; lia).
  unfold heading_rad, roll_rad, pitch_rad.
  change (tilt_suppressed ship_rolled) with true.
  change (tilt_suppressed o1) with false.
  change (looks_up o1) with false.
  change (heading (orient o1)) with [0].
  change (roll (orient o1)) with [180].
  change (pitch (orient o1)) with [0].
  cbn [ship_rolled heading roll pitch orient nth vel unit_x item].
  rewrite deg180, !Rmult_0_l, tan_0, Rmult_0_l, atan_0.
  unfold rot_entry. rewrite cos_PI, sin_PI, cos_0, sin_0. ring.
Qed.

(** ** C2: the reverse beam rotation undoes the forward one *)

(** The cofactor matrix times the matrix is the determinant times the
    identity, for 4 by 4 matrices. *)
Lemma adjugate4 (m : nat -> nat -> R) (i k : nat) :
  (i < 4)%nat -> (k < 4)%nat ->
  rsum 4 (fun j => sign (i + j) * det 3 (minor m j i) * m j k)
  = if (i =? k)%nat then det 4 m else 0.
Proof.
  intros Hi Hk.
  destruct i as [| [| [| [| i]]]]; [| | | | lia];
    (destruct k as [| [| [| [| k]]]]; [| | | | lia]);
    cbv [rsum det minor skip sign Nat.add Nat.even Nat.ltb Nat.leb Nat.eqb];
    ring.
Qed.

Lemma rsum4 (f : nat -> R) :
  rsum 4 f = f 0%nat + f 1%nat + f 2%nat + f 3%nat.
Proof. cbn [rsum]. ring. Qed.

(** [np.linalg.inv] of a 4 by 4 matrix with a determinant other than 0
    returns a left inverse. *)
Lemma linalg_inv4 (a : ndarray) :
  shape a = [4; 4]%nat ->
  det 4 (fun i j => item a [i; j]) <> 0 ->
  exists inv,
    linalg_inv a = inr inv /\ shape inv = [4; 4]%nat
    /\ forall i k, (i < 4)%nat -> (k < 4)%nat ->
         rsum 4 (fun j => item inv [i; j] * item a [j; k])
         = if (i =? k)%nat then 1 else 0.
Proof.
  intros Hs Hdet. unfold linalg_inv. rewrite Hs.
  rewrite decide_True by reflexivity.
  destruct (Req_dec_T _ 0) as [E | _]; [contradiction |].
  eexists. split; [reflexivity | split; [reflexivity |]].
  intros i k Hi Hk. cbn [item Nat.sub].
  assert (Hadj := adjugate4 (fun i j => item a [i; j]) i k Hi Hk).
  cbn beta in Hadj.
  set (D := det 4 (fun i j => item a [i; j])) in *.
  rewrite rsum4 in *.
  replace (if (i =? k)%nat then 1 else 0)
    with ((if (i =? k)%nat then D else 0) / D)
    by (destruct (i =? k)%nat; field; exact Hdet).
  rewrite <- Hadj. field. exact Hdet.
Qed.

(** The matrix of a head angle strictly between 0 and 90 degrees has a
    determinant other than 0. *)
Lemma calc_beam_rotmatrix_det (theta : R) (convex : Z) :
  0 < theta < 90 ->
  det 4 (fun i j => item (calc_beam_rotmatrix theta convex true) [i; j]) <> 0.
Proof.
  intros [H0 H90]. assert (Hpi := PI_RGT_0).
  assert (Hth : 0 < theta * deg2rad < PI / 2).
  { unfold deg2rad. split.
    - apply Rmult_lt_0_compat; lra.
    - replace (PI / 2) with (90 * (PI / 180)) by field.
      apply Rmult_lt_compat_r; lra. }
  assert (Hsin : 0 < sin (theta * deg2rad)) by (apply sin_gt_0; lra).
  assert (Hcos : 0 < cos (theta * deg2rad)) by (apply cos_gt_0; lra).
  assert (Hsq : 0 < sqrt 2) by (apply sqrt_lt_R0; lra).
  unfold calc_beam_rotmatrix.
  set (th := theta * deg2rad) in *.
  set (c := if (convex =? 0)%Z || (convex =? -1)%Z then -1 else 1).
  set (a := 1 / (2 * sin th)). set (b := 1 / (4 * cos th)).
  set (d := a / sqrt 2).
  assert (Hc : c * c = 1) by (subst c; destruct (_ || _); ring).
  assert (Ha : 0 < a) by (apply Rdiv_lt_0_compat; lra).
  assert (Hb : 0 < b) by (apply Rdiv_lt_0_compat; lra).
  assert (Hd : 0 < d) by (apply Rdiv_lt_0_compat; lra).
  cbv [det minor skip sign rsum Nat.add Nat.even Nat.ltb Nat.leb
       np_array2 item nth].
  match goal with
  | |- ?e <> 0 => replace e with (- 8 * (c * c) * (a * a) * (b * d)) by ring
  end.
  rewrite Hc.
  assert (Haa : 0 < a * a) by (apply Rmult_lt_0_compat; assumption).
  assert (Hbd : 0 < b * d) by (apply Rmult_lt_0_compat; assumption).
  assert (0 < (a * a) * (b * d)) by (apply Rmult_lt_0_compat; assumption).
  lra.
Qed.

Lemma einsum_beam (a b : ndarray) (nk nl : nat) :
  shape a = [4; 4]%nat -> shape b = [4; nk; nl]%nat ->
  exists v,
    einsum "ij,jkl->ikl" a b = inr v /\ shape v = [4; nk; nl]%nat
    /\ forall i k l,
        item v [i; k; l] = rsum 4 (fun j => item a [i; j] * item b [j; k; l]).
Proof.
  intros Ha Hb. unfold einsum. cbn [String.eqb Ascii.eqb Bool.eqb].
  rewrite Ha, Hb. rewrite decide_True by reflexivity.
  eexists. split; [reflexivity | split; [reflexivity |]].
  intros i k l. reflexivity.
Qed.

Lemma undo_matrix4 (a b : nat -> nat -> R) (v : nat -> R) (i : nat) :
  (forall k, (k < 4)%nat ->
     rsum 4 (fun j => a i j * b j k) = if (i =? k)%nat then 1 else 0) ->
  (i < 4)%nat ->
  rsum 4 (fun j => a i j * rsum 4 (fun q => b j q * v q)) = v i.
Proof.
  intros Hf Hi.
  assert (H0 := Hf 0%nat ltac:(lia)). assert (H1 := Hf 1%nat ltac:(lia)).
  assert (H2 := Hf 2%nat ltac:(lia)). assert (H3 := Hf 3%nat ltac:(lia)).
  rewrite !rsum4 in *.
  destruct i as [| [| [| [| i]]]]; [| | | | lia]; cbn [Nat.eqb] in *; nsatz.
Qed.

(** C2: on a record with four velocity channels that the frame check
    lets through, and whose beam matrix (the one attached to the
    configuration, or the one of the beam geometry) is 4 by 4 with a
    determinant other than 0, as the matrix of the geometry is for every
    head angle strictly between 0 and 90 degrees, the forward
    [beam2inst] call completes, the reverse call on its result
    completes, and the velocity after the two calls is the one before
    them: the reverse call multiplies by [np.linalg.inv] of the same
    matrix.  (The transpose would not do: for 20 degrees the first
    column of the matrix is not of length 1.) *)
Theorem beam2inst_round_trip (o : adp) (nk nl : nat) (force force' : bool)
    (Hc : force = true
          \/ exists cs, props o !! "coord_sys" = Some (PStr cs)
                        /\ lower cs = "beam"%string)
    (Hv : shape (vel o) = [4; nk; nl]%nat)
    (Hm : (shape (beam2inst_rotmat (config o)) = [4; 4]%nat
           /\ det 4 (fun i j => item (beam2inst_rotmat (config o)) [i; j]) <> 0)
          \/ (rotmat (config o) = None /\ TransMatrix (config o) = None
              /\ 0 < beam_angle (config o) < 90)) :
  (exists o1 o2 inv,
      beam2inst false force o = (o1, inr tt)
      /\ beam2inst true force' o1 = (o2, inr tt)
      /\ linalg_inv (beam2inst_rotmat (config o)) = inr inv
      /\ (forall i k l,
            item (vel o2) [i; k; l]
            = rsum 4 (fun j => item inv [i; j] * item (vel o1) [j; k; l]))
      /\ shape (vel o2) = shape (vel o)
      /\ (forall i k l, (i < 4)%nat ->
            item (vel o2) [i; k; l] = item (vel o) [i; k; l])
      /\ props o2 !! "coord_sys" = Some (PStr "beam"))
  /\ rsum 4 (fun j => item (calc_beam_rotmatrix 20 1 true) [j; 0%nat]
                      * item (calc_beam_rotmatrix 20 1 true) [j; 0%nat])
     <> 1.
Proof.
  split.
  2:{ rewrite rsum4. cbn [calc_beam_rotmatrix np_array2 item nth Z.eqb orb].
      destruct beam_a20_bounds as [Al Au].
      set (a := 1 / (2 * sin (20 * deg2rad))) in *.
      set (b := 1 / (4 * cos (20 * deg2rad))).
      set (d := a / sqrt 2).
      assert (0 <= b * b) by nra. assert (0 <= d * d) by nra. nra. }
  set (R0 := beam2inst_rotmat (config o)) in *.
  assert (HR : shape R0 = [4; 4]%nat
               /\ det 4 (fun i j => item R0 [i; j]) <> 0).
  { destruct Hm as [Hm | (E1 & E2 & Hth)]; [exact Hm |].
    subst R0. unfold beam2inst_rotmat. rewrite E1, E2.
    split; [reflexivity | apply calc_beam_rotmatrix_det; exact Hth]. }
  destruct HR as [HRs HRd].
  destruct (linalg_inv4 R0 HRs HRd) as (inv & Einv & Hsi & Hinv).
  destruct (einsum_beam R0 (vel o) nk nl HRs Hv) as (v1 & Ev1 & Hs1 & Hi1).
  destruct (einsum_beam inv v1 nk nl Hsi Hs1) as (v2 & Ev2 & Hs2 & Hi2).
  set (o1 := set_props (<["coord_sys" := PStr "inst"]> (props o)) (set_vel v1 o)).
  set (o2 := set_props (<["coord_sys" := PStr "beam"]> (props o1)) (set_vel v2 o1)).
  assert (Hrun1 : beam2inst false force o = (o1, inr tt)).
  { unfold beam2inst.
    erewrite bind_ok.
    2:{ instantiate (1 := tt). instantiate (1 := o).
        destruct Hc as [-> | (cs & Hcs & Hl)]; [reflexivity |].
        destruct force; [reflexivity |]. cbn [when negb].
        erewrite bind_ok; [reflexivity |].
        erewrite bind_ok by (apply props_getitem_some; exact Hcs).
        cbn [py_lower]. unfold bind, lift. rewrite Hl. reflexivity. }
    erewrite bind_ok by reflexivity. cbn zeta. fold R0.
    erewrite bind_ok by reflexivity. lazy beta iota zeta.
    erewrite bind_ok by (unfold lift; rewrite Ev1; reflexivity).
    erewrite bind_ok by reflexivity. reflexivity. }
  assert (Hrun2 : beam2inst true force' o1 = (o2, inr tt)).
  { unfold beam2inst.
    erewrite bind_ok.
    2:{ instantiate (1 := tt). instantiate (1 := o1).
        destruct force'; [reflexivity |]. cbn [when negb].
        erewrite bind_ok by reflexivity.
        erewrite bind_ok.
        2:{ apply props_getitem_some. apply lookup_insert_eq. }
        reflexivity. }
    erewrite bind_ok by reflexivity. cbn zeta.
    change (beam2inst_rotmat (config o1)) with R0.
    erewrite bind_ok.
    2:{ erewrite bind_ok by (unfold lift; rewrite Einv; reflexivity).
        reflexivity. }
    lazy beta iota zeta.
    erewrite bind_ok by (unfold lift; cbn [o1 set_props set_vel vel];
                         rewrite Ev2; reflexivity).
    erewrite bind_ok by reflexivity. reflexivity. }
  exists o1, o2, inv.
  split; [exact Hrun1 | split; [exact Hrun2 | split; [exact Einv |]]].
  cbn [o2 o1 set_props set_vel vel props].
  split; [exact Hi2 | split; [congruence | split]].
  - intros i k l Hi. rewrite Hi2.
    transitivity
      (rsum 4 (fun j => item inv [i; j]
                        * rsum 4 (fun q => item R0 [j; q]
                                           * item (vel o) [q; k; l]))).
    + rewrite !(rsum4 (fun j => item inv _ * _)). rewrite !Hi1. reflexivity.
    + apply (undo_matrix4 (fun x y => item inv [x; y])
               (fun x y => item R0 [x; y])
               (fun q => item (vel o) [q; k; l]) i); [| exact Hi].
      intros q Hq. apply Hinv; assumption.
  - apply lookup_insert_eq.
Qed.

Lemma beam2inst_round_trip_witness :
  exists o1 o2,
    beam2inst false false four_beams = (o1, inr tt)
    /\ beam2inst true false o1 = (o2, inr tt)
    /\ forall i k l, (i < 4)%nat ->
         item (vel o2) [i; k; l] = item (vel four_beams) [i; k; l].
Proof.
  assert (Hangle : 0 < beam_angle (config four_beams) < 90).
  { change (beam_angle (config four_beams)) with 20. lra. }
  destruct (proj1 (beam2inst_round_trip four_beams 1 1 false false
                     (or_intror (ex_intro _ "beam"%string (conj eq_refl eq_refl)))
                     eq_refl
                     (or_intror (conj eq_refl (conj eq_refl Hangle)))))
    as (o1 & o2 & inv & H1 & H2 & _ & _ & _ & H6 & _).
  exists o1, o2. split; [exact H1 | split; [exact H2 | exact H6]].
Defined.

(** * Further properties of the code *)

(** ** [beam2inst]: all or nothing *)

Lemma beam2inst_check_state (reverse force : bool) (o : adp) :
  fst (beam2inst_check reverse force o) = o.
Proof.
  unfold beam2inst_check, when.
  destruct force, reverse; cbn [negb]; try reflexivity.
  - unfold bind at 1. cbn [ret].
    unfold props_getitem, bind, get, lift, raise, ret.
    destruct (props o !! "coord_sys") as [v |]; [| reflexivity].
    destruct (negb _); reflexivity.
  - unfold props_getitem, bind, get, lift, raise, ret.
    destruct (props o !! "coord_sys") as [v |]; [| reflexivity].
    destruct (py_lower v); [reflexivity |].
    destruct (negb _); reflexivity.
Qed.

(** The three places where [beam2inst] can stop, and its result. *)
Lemma beam2inst_unfold (reverse force : bool) (o : adp) :
  beam2inst reverse force o
  = match snd (beam2inst_check reverse force o) with
    | inl e => (o, inl e)
    | inr _ =>
        match (if reverse then linalg_inv (beam2inst_rotmat (config o))
               else inr (beam2inst_rotmat (config o))) with
        | inl e => (o, inl e)
        | inr rot =>
            match einsum "ij,jkl->ikl" rot (vel o) with
            | inl e => (o, inl e)
            | inr v =>
                (set_props
                   (<["coord_sys" := PStr (if reverse then "beam" else "inst")]>
                      (props o))
                   (set_vel v o), inr tt)
            end
        end
    end.
Proof.
  unfold beam2inst. fold (beam2inst_check reverse force).
  assert (Hs := beam2inst_check_state reverse force o).
  unfold bind at 1.
  destruct (beam2inst_check reverse force o) as [o0 [e | []]];
    cbn [fst snd] in *; subst o0; [reflexivity |].
  unfold bind at 1, get. cbn zeta.
  destruct reverse.
  - unfold bind at 1, bind at 1, lift at 1.
    destruct (linalg_inv (beam2inst_rotmat (config o))) as [e | rot];
      [reflexivity |].
    unfold ret at 1. lazy beta iota zeta.
    unfold bind at 1, lift at 1.
    destruct (einsum "ij,jkl->ikl" rot (vel o)) as [e | v]; reflexivity.
  - unfold bind at 1, ret at 1. lazy beta iota zeta.
    unfold bind at 1, lift at 1.
    destruct (einsum "ij,jkl->ikl" (beam2inst_rotmat (config o)) (vel o))
      as [e | v]; reflexivity.
Qed.

(** X1: [beam2inst] either completes or leaves the record as it was.  A
    call that raises (at the frame check, in [np.linalg.inv], in
    [np.einsum]) has changed nothing; a call that completes has replaced
    [vel] by the product with the matrix (with its inverse in the reverse
    direction), has set [coord_sys] to ['inst'] (['beam'] in the reverse
    direction), and has touched nothing else. *)
Theorem beam2inst_all_or_nothing (reverse force : bool) (o : adp) :
  let o' := final (beam2inst reverse force) o in
  match outcome (beam2inst reverse force) o with
  | inl _ => o' = o
  | inr _ =>
      bt_vel o' = bt_vel o /\ orient o' = orient o /\ config o' = config o
      /\ props o'
         = <["coord_sys" := PStr (if reverse then "beam" else "inst")]> (props o)
      /\ exists rot,
          (if reverse
           then linalg_inv (beam2inst_rotmat (config o)) = inr rot
           else rot = beam2inst_rotmat (config o))
          /\ einsum "ij,jkl->ikl" rot (vel o) = inr (vel o')
  end.
Proof.
  unfold final, outcome. rewrite beam2inst_unfold.
  destruct (snd (beam2inst_check reverse force o)) as [e | []];
    [reflexivity |].
  destruct reverse.
  - destruct (linalg_inv (beam2inst_rotmat (config o))) as [e | rot] eqn:Ei;
      [reflexivity |].
    destruct (einsum "ij,jkl->ikl" rot (vel o)) as [e | v] eqn:Ev;
      [reflexivity |].
    cbn [fst snd set_props set_vel bt_vel orient config props vel].
    repeat split. exists rot. split; [reflexivity | exact Ev].
  - destruct (einsum "ij,jkl->ikl" (beam2inst_rotmat (config o)) (vel o))
      as [e | v] eqn:Ev; [reflexivity |].
    cbn [fst snd set_props set_vel bt_vel orient config props vel].
    repeat split. eexists. split; [reflexivity | exact Ev].
Qed.

(** ** Records that lack a key *)

(** X2: without [force], a record whose [props] has no ['coord_sys'] makes
    [beam2inst] and [inst2earth] raise [KeyError('coord_sys')], in either
    direction, and nothing is changed. *)
Theorem missing_coord_sys_raises (o : adp) (reverse fx : bool)
    (Hk : props o !! "coord_sys" = None) :
  beam2inst reverse false o = (o, inl (KeyError "coord_sys"))
  /\ inst2earth reverse fx false o = (o, inl (KeyError "coord_sys")).
Proof.
  assert (Hg : props_getitem "coord_sys" o = (o, inl (KeyError "coord_sys"))).
  { unfold props_getitem, bind, get. rewrite Hk. reflexivity. }
  split.
  - rewrite beam2inst_unfold.
    assert (Hc : beam2inst_check reverse false o
                 = (o, inl (KeyError "coord_sys"))).
    { unfold beam2inst_check. cbn [when negb].
      destruct reverse; cbn [when negb].
      - erewrite bind_ok by reflexivity. apply bind_raises. exact Hg.
      - apply bind_raises. apply bind_raises. exact Hg. }
    rewrite Hc. reflexivity.
  - unfold inst2earth. apply bind_raises.
    unfold inst2earth_check. cbn [when negb].
    destruct reverse; cbn [when negb].
    + erewrite bind_ok by reflexivity. apply bind_raises. exact Hg.
    + apply bind_raises. apply bind_raises. exact Hg.
Qed.

Lemma missing_coord_sys_raises_witness :
  beam2inst false false no_props = (no_props, inl (KeyError "coord_sys"))
  /\ inst2earth true false false no_props
     = (no_props, inl (KeyError "coord_sys")).
Proof.
  split.
  - exact (proj1 (missing_coord_sys_raises no_props false false eq_refl)).
  - exact (proj2 (missing_coord_sys_raises no_props true false eq_refl)).
Defined.

Lemma inst2earth_declination_ok (reverse : bool) (o : adp) :
  (forall d, props o !! "declination" = Some d -> exists x, py_number d = inr x) ->
  inst2earth_declination reverse o
  = (fst (inst2earth_declination reverse o), inr tt).
Proof.
  intros Hd. rewrite inst2earth_declination_eq.
  destruct (_ && _ && _) eqn:E; [| reflexivity].
  destruct (props o !! "declination") as [d |] eqn:El.
  - destruct (Hd d eq_refl) as [x ->]. reflexivity.
  - rewrite bool_decide_eq_false_2 in E by (intros [? ?]; discriminate).
    rewrite andb_false_r in E. discriminate.
Qed.

Lemma inst2earth_rotmat_no_model (o : adp) :
  props o !! "inst_model" = None ->
  length (pitch (orient o)) = length (roll (orient o)) ->
  inst2earth_rotmat o = (o, inl (KeyError "inst_model")).
Proof.
  intros Hm Hp. unfold inst2earth_rotmat.
  erewrite bind_ok by reflexivity.
  erewrite bind_ok.
  2:{ unfold lift, elementwise.
      rewrite decide_True by (rewrite !length_map; exact Hp). reflexivity. }
  apply bind_raises. unfold props_getitem, bind, get. rewrite Hm. reflexivity.
Qed.

Lemma inst2earth_rotmat_no_coord_sys (o : adp) (ms : string) :
  props o !! "inst_model" = Some (PStr ms) ->
  lower ms <> "signature"%string ->
  props o !! "coord_sys" = None ->
  length (pitch (orient o)) = length (roll (orient o)) ->
  inst2earth_rotmat o = (o, inl (KeyError "coord_sys")).
Proof.
  intros Hm Hs Hc Hp. unfold inst2earth_rotmat.
  erewrite bind_ok by reflexivity.
  erewrite bind_ok.
  2:{ unfold lift, elementwise.
      rewrite decide_True by (rewrite !length_map; exact Hp). reflexivity. }
  erewrite bind_ok by (apply props_getitem_some; exact Hm).
  erewrite bind_ok by reflexivity.
  rewrite String_eqb_neq by exact Hs. cbn [negb].
  apply bind_raises. apply bind_raises.
  unfold props_getitem, bind, get. rewrite Hc. reflexivity.
Qed.

(** X3: a record without ['inst_model'] cannot be rotated to or from the
    earth frame.  Once the frame check is passed (or forced) and the
    declination, if any, is folded in, [inst2earth] raises
    [KeyError('inst_model')]: the velocity, the coordinate system and the
    fixed-orientation record are untouched. *)
Theorem missing_inst_model_raises (o : adp) (reverse fx force : bool)
    (Hm : props o !! "inst_model" = None)
    (Hc : inst2earth_check reverse force o = (o, inr tt))
    (Hd : forall d, props o !! "declination" = Some d ->
                    exists x, py_number d = inr x)
    (Hp : length (pitch (orient o)) = length (roll (orient o))) :
  inst2earth reverse fx force o
  = (fst (inst2earth_declination reverse o), inl (KeyError "inst_model"))
  /\ vel (final (inst2earth reverse fx force) o) = vel o
  /\ (forall k : string, k <> "declination_in_heading"%string ->
        props (final (inst2earth reverse fx force) o) !! k = props o !! k).
Proof.
  destruct (inst2earth_declination_frame reverse o)
    as (F1 & _ & _ & F4 & F5 & _ & _ & F8).
  assert (Hrun : inst2earth reverse fx force o
                 = (fst (inst2earth_declination reverse o),
                    inl (KeyError "inst_model"))).
  { unfold inst2earth. rewrite (bind_ok _ _ _ _ _ Hc).
    rewrite (bind_ok _ _ _ _ _ (inst2earth_declination_ok reverse o Hd)).
    apply bind_raises. apply inst2earth_rotmat_no_model.
    - rewrite F8 by discriminate. exact Hm.
    - rewrite F4, F5. exact Hp. }
  split; [exact Hrun |].
  unfold final. rewrite Hrun. cbn [fst]. split; [exact F1 | exact F8].
Qed.

Lemma missing_inst_model_raises_witness :
  inst2earth false false true no_props
  = (fst (inst2earth_declination false no_props), inl (KeyError "inst_model")).
Proof.
  refine (proj1 (missing_inst_model_raises no_props false false true
                   eq_refl eq_refl _ eq_refl)).
  intros d H. discriminate H.
Defined.

(** X4: [force] switches off the frame check only.  A forced [beam2inst]
    never reads ['coord_sys']: on a record without the key it completes
    (given a 4 by 4 matrix and four channels) and creates it.  A forced
    [inst2earth] on such a record still reads the key when it tests for
    ship data, unless the model is the signature, and raises
    [KeyError('coord_sys')] without having rotated anything. *)
Theorem force_skips_only_the_check (o : adp) (ms : string) (reverse fx : bool)
    (nk nl : nat)
    (Hk : props o !! "coord_sys" = None)
    (Hm : props o !! "inst_model" = Some (PStr ms))
    (Hs : lower ms <> "signature"%string)
    (Hd : forall d, props o !! "declination" = Some d ->
                    exists x, py_number d = inr x)
    (Hp : length (pitch (orient o)) = length (roll (orient o)))
    (HR : shape (beam2inst_rotmat (config o)) = [4; 4]%nat)
    (Hv : shape (vel o) = [4; nk; nl]%nat) :
  (exists o', beam2inst false true o = (o', inr tt)
              /\ props o' !! "coord_sys" = Some (PStr "inst"))
  /\ inst2earth reverse fx true o
     = (fst (inst2earth_declination reverse o), inl (KeyError "coord_sys"))
  /\ vel (final (inst2earth reverse fx true) o) = vel o.
Proof.
  split; [| split].
  - rewrite beam2inst_unfold. cbn [beam2inst_check when negb ret snd].
    destruct (einsum_beam _ (vel o) nk nl HR Hv) as (v & Ev & _).
    rewrite Ev. eexists. split; [reflexivity |].
    cbn [set_props props]. apply lookup_insert_eq.
  - destruct (inst2earth_declination_frame reverse o)
      as (_ & _ & _ & F4 & F5 & _ & _ & F8).
    unfold inst2earth. erewrite bind_ok by reflexivity.
    rewrite (bind_ok _ _ _ _ _ (inst2earth_declination_ok reverse o Hd)).
    apply bind_raises. apply (inst2earth_rotmat_no_coord_sys _ ms).
    + rewrite F8 by discriminate. exact Hm.
    + exact Hs.
    + rewrite F8 by discriminate. exact Hk.
    + rewrite F4, F5. exact Hp.
  - destruct (inst2earth_final reverse fx true o)
      as [(e & _ & He) | (_ & (_ & _ & _ & G4 & _))].
    + unfold final. rewrite He. reflexivity.
    + destruct (inst2earth_declination_frame reverse o) as (F1 & _).
      destruct (inst2earth_declination_frame reverse o)
        as (_ & _ & _ & F4 & F5 & _ & _ & F8).
      assert (Hrun : inst2earth reverse fx true o
                     = (fst (inst2earth_declination reverse o),
                        inl (KeyError "coord_sys"))).
      { unfold inst2earth. erewrite bind_ok by reflexivity.
        rewrite (bind_ok _ _ _ _ _ (inst2earth_declination_ok reverse o Hd)).
        apply bind_raises. apply (inst2earth_rotmat_no_coord_sys _ ms).
        - rewrite F8 by discriminate. exact Hm.
        - exact Hs.
        - rewrite F8 by discriminate. exact Hk.
        - rewrite F4, F5. exact Hp. }
      unfold final. rewrite Hrun. exact F1.
Qed.

Lemma force_skips_only_the_check_witness :
  (exists o', beam2inst false true untagged_beams = (o', inr tt)
              /\ props o' !! "coord_sys" = Some (PStr "inst"))
  /\ inst2earth false false true untagged_beams
     = (fst (inst2earth_declination false untagged_beams),
        inl (KeyError "coord_sys")).
Proof.
  assert (Hd : forall d, props untagged_beams !! "declination" = Some d ->
                         exists x, py_number d = inr x)
    by (intros d H; discriminate H).
  assert (Hs : lower "AWAC" <> "signature"%string) by discriminate.
  destruct (force_skips_only_the_check untagged_beams "AWAC" false false 1 1
              eq_refl eq_refl Hs Hd eq_refl eq_refl eq_refl)
    as (H1 & H2 & _).
  split; [exact H1 | exact H2].
Defined.

(** ** The beam matrix *)

Lemma beam2inst_check_forward_ok (force : bool) (o : adp) :
  force = true
  \/ (exists cs, props o !! "coord_sys" = Some (PStr cs)
                 /\ lower cs = "beam"%string) ->
  beam2inst_check false force o = (o, inr tt).
Proof.
  intros [-> | (cs & Hcs & Hl)]; [reflexivity |].
  destruct force; [reflexivity |].
  unfold beam2inst_check. cbn [when negb].
  erewrite bind_ok with (o' := o) (x := tt); [reflexivity |].
  erewrite bind_ok by (apply props_getitem_some; exact Hcs).
  cbn [py_lower]. unfold bind, lift. rewrite Hl. reflexivity.
Qed.

Lemma beam2inst_check_reverse_ok (force : bool) (o : adp) :
  force = true \/ props o !! "coord_sys" = Some (PStr "inst") ->
  beam2inst_check true force o = (o, inr tt).
Proof.
  intros [-> | Hcs]; [reflexivity |].
  destruct force; [reflexivity |].
  unfold beam2inst_check. cbn [when negb].
  erewrite bind_ok by reflexivity.
  erewrite bind_ok by (apply props_getitem_some; exact Hcs).
  reflexivity.
Qed.

(** X5: for a head angle strictly between 0 and 90 degrees, the rows
    of the beam matrix are orthogonal to each other, with squared
    lengths 2a^2, 2a^2, 4b^2 and 4d^2, and they are not all of length 1.
    So the matrix times its transpose is diagonal and never the
    identity: the transpose is not the inverse. *)
Theorem beam_matrix_rows_orthogonal (theta : R) (convex : Z)
    (Hang : 0 < theta < 90) :
  let m := calc_beam_rotmatrix theta convex true in
  let th := theta * (PI / 180) in
  let a := 1 / (2 * sin th) in
  let b := 1 / (4 * cos th) in
  let d := a / sqrt 2 in
  (forall i k, (i < 4)%nat -> (k < 4)%nat ->
     rsum 4 (fun j => item m [i; j] * item m [k; j])
     = if (i =? k)%nat
       then nth i [2 * (a * a); 2 * (a * a); 4 * (b * b); 4 * (d * d)] 0
       else 0)
  /\ ~ (forall i, (i < 4)%nat ->
          rsum 4 (fun j => item m [i; j] * item m [i; j]) = 1).
Proof.
  intros m th a b d.
  assert (Hrows : forall i k, (i < 4)%nat -> (k < 4)%nat ->
             rsum 4 (fun j => item m [i; j] * item m [k; j])
             = if (i =? k)%nat
               then nth i [2 * (a * a); 2 * (a * a); 4 * (b * b); 4 * (d * d)] 0
               else 0).
  { intros i k Hi Hk. rewrite rsum4. subst m. unfold calc_beam_rotmatrix.
    fold deg2rad. change (PI / 180) with deg2rad in th. fold th. fold a. fold b.
    fold d.
    set (c := if (convex =? 0)%Z || (convex =? -1)%Z then -1 else 1).
    assert (Hc : c * c = 1) by (subst c; destruct (_ || _); ring).
    destruct i as [| [| [| [| i]]]]; [| | | | lia];
      (destruct k as [| [| [| [| k]]]]; [| | | | lia]);
      cbn [np_array2 item nth Nat.eqb]; try ring;
      ring_simplify; replace (c ^ 2) with (c * c) by ring; rewrite Hc; ring. }
  split; [exact Hrows |].
  destruct Hang as [H0 H90]. intros Hone. assert (Hpi := PI_RGT_0).
  assert (Hth : 0 < th < PI / 2).
  { subst th. split.
    - apply Rmult_lt_0_compat; lra.
    - replace (PI / 2) with (90 * (PI / 180)) by field.
      apply Rmult_lt_compat_r; lra. }
  assert (Hsin : 0 < sin th) by (apply sin_gt_0; lra).
  assert (Hcos : 0 < cos th) by (apply cos_gt_0; lra).
  assert (H1 := Hone 0%nat ltac:(lia)). assert (H3 := Hone 2%nat ltac:(lia)).
  rewrite (Hrows 0%nat 0%nat) in H1 by lia.
  rewrite (Hrows 2%nat 2%nat) in H3 by lia.
  cbn [Nat.eqb nth] in H1, H3.
  assert (Ha : a * (2 * sin th) = 1) by (subst a; field; lra).
  assert (Hb : b * (4 * cos th) = 1) by (subst b; field; lra).
  assert (Hsc := sq_sin_cos th).
  assert (Es : sin th * sin th = 1 / 2).
  { assert (E : (a * (2 * sin th)) * (a * (2 * sin th)) = 1)
      by (rewrite Ha; ring).
    nra. }
  assert (Ec : cos th * cos th = 1 / 4).
  { assert (E : (b * (4 * cos th)) * (b * (4 * cos th)) = 1)
      by (rewrite Hb; ring).
    nra. }
  lra.
Qed.

Lemma beam_matrix_rows_orthogonal_witness :
  rsum 4 (fun j => item (calc_beam_rotmatrix 20 1 true) [0; j]%nat
                   * item (calc_beam_rotmatrix 20 1 true) [1; j]%nat) = 0.
Proof.
  refine (proj1 (beam_matrix_rows_orthogonal 20 1 _) 0%nat 1%nat _ _);
    [lra | lia | lia].
Defined.

Lemma four_beams_angle : 0 < beam_angle (config four_beams) < 90.
Proof. change (beam_angle (config four_beams)) with 20. lra. Qed.

(** X6: with the matrix of the beam geometry, for a head angle strictly
    between 0 and 90 degrees, a forward [beam2inst] call that the frame
    check lets through computes, in every bin and time step,
    X = c a (b1 - b2), Y = c a (b4 - b3), Z = b (b1 + b2 + b3 + b4) and
    the error velocity d (b1 + b2 - b3 - b4) from the four beam
    velocities.  When the four beams measure the same velocity v, the
    result is 0, 0, v / cos(theta) and 0. *)
Theorem beam2inst_geometry_forward (o : adp) (nk nl : nat) (force : bool)
    (Hc : force = true
          \/ exists cs, props o !! "coord_sys" = Some (PStr cs)
                        /\ lower cs = "beam"%string)
    (Hr : rotmat (config o) = None) (Ht : TransMatrix (config o) = None)
    (Hang : 0 < beam_angle (config o) < 90)
    (Hv : shape (vel o) = [4; nk; nl]%nat) :
  let th := beam_angle (config o) * (PI / 180) in
  let c := if String.eqb (beam_pattern (config o)) "convex" then 1 else -1 in
  let a := 1 / (2 * sin th) in
  let b := 1 / (4 * cos th) in
  let d := a / sqrt 2 in
  exists o',
    beam2inst false force o = (o', inr tt)
    /\ shape (vel o') = [4; nk; nl]%nat
    /\ forall k l,
        let b1 := item (vel o) [0; k; l]%nat in
        let b2 := item (vel o) [1; k; l]%nat in
        let b3 := item (vel o) [2; k; l]%nat in
        let b4 := item (vel o) [3; k; l]%nat in
        item (vel o') [0; k; l]%nat = c * a * (b1 - b2)
        /\ item (vel o') [1; k; l]%nat = c * a * (b4 - b3)
        /\ item (vel o') [2; k; l]%nat = b * (b1 + b2 + b3 + b4)
        /\ item (vel o') [3; k; l]%nat = d * (b1 + b2 - b3 - b4)
        /\ (b2 = b1 -> b3 = b1 -> b4 = b1 ->
            item (vel o') [0; k; l]%nat = 0
            /\ item (vel o') [1; k; l]%nat = 0
            /\ item (vel o') [2; k; l]%nat = b1 / cos th
            /\ item (vel o') [3; k; l]%nat = 0).
Proof.
  intros th c a b d.
  assert (HR : beam2inst_rotmat (config o)
               = calc_beam_rotmatrix (beam_angle (config o))
                   (Z.b2z (String.eqb (beam_pattern (config o)) "convex")) true).
  { unfold beam2inst_rotmat. rewrite Hr, Ht. reflexivity. }
  destruct (einsum_beam (beam2inst_rotmat (config o)) (vel o) nk nl)
    as (v & Ev & Hsv & Hiv); [rewrite HR; reflexivity | exact Hv |].
  eexists. split; [| split].
  - rewrite beam2inst_unfold.
    rewrite (beam2inst_check_forward_ok force o Hc). cbn [snd].
    rewrite Ev. reflexivity.
  - exact Hsv.
  - intros k l b1 b2 b3 b4. cbn [set_props set_vel vel].
    rewrite !Hiv, !rsum4, HR. unfold calc_beam_rotmatrix.
    fold deg2rad. change (PI / 180) with deg2rad in th. fold th. fold a.
    fold b. fold d. fold b1. fold b2. fold b3. fold b4.
    assert (Ec : (if (Z.b2z (String.eqb (beam_pattern (config o)) "convex") =? 0)%Z
                     || (Z.b2z (String.eqb (beam_pattern (config o)) "convex")
                         =? -1)%Z
                  then -1 else 1) = c).
    { subst c. destruct (String.eqb (beam_pattern (config o)) "convex");
        reflexivity. }
    rewrite Ec. cbn [np_array2 item nth].
    assert (F0 : c * a * b1 + - c * a * b2 + 0 * b3 + 0 * b4 = c * a * (b1 - b2))
      by ring.
    assert (F1 : 0 * b1 + 0 * b2 + - c * a * b3 + c * a * b4 = c * a * (b4 - b3))
      by ring.
    assert (F2 : b * b1 + b * b2 + b * b3 + b * b4 = b * (b1 + b2 + b3 + b4))
      by ring.
    assert (F3 : d * b1 + d * b2 + - d * b3 + - d * b4 = d * (b1 + b2 - b3 - b4))
      by ring.
    rewrite F0, F1, F2, F3.
    split; [reflexivity | split; [reflexivity | split; [reflexivity |]]].
    split; [reflexivity |].
    destruct Hang as [H0 H90]. intros -> -> ->. assert (Hpi := PI_RGT_0).
    assert (Hcos : 0 < cos th).
    { apply cos_gt_0; subst th.
      - assert (0 < beam_angle (config o) * deg2rad)
          by (apply Rmult_lt_0_compat; unfold deg2rad; lra).
        lra.
      - replace (PI / 2) with (90 * deg2rad) by (unfold deg2rad; field).
        apply Rmult_lt_compat_r; unfold deg2rad; lra. }
    repeat split; try ring. subst b. field. lra.
Qed.

Lemma beam2inst_geometry_forward_witness :
  exists o',
    beam2inst false false four_beams = (o', inr tt)
    /\ shape (vel o') = [4; 1; 1]%nat.
Proof.
  destruct (beam2inst_geometry_forward four_beams 1 1 false
              (or_intror (ex_intro _ "beam"%string (conj eq_refl eq_refl)))
              eq_refl eq_refl four_beams_angle eq_refl)
    as (o' & H1 & H2 & _).
  exists o'. split; [exact H1 | exact H2].
Defined.

(** The matrix times its cofactor matrix is the determinant times the
    identity as well. *)
Lemma adjugate4_right (m : nat -> nat -> R) (i k : nat) :
  (i < 4)%nat -> (k < 4)%nat ->
  rsum 4 (fun j => m i j * (sign (j + k) * det 3 (minor m k j)))
  = if (i =? k)%nat then det 4 m else 0.
Proof.
  intros Hi Hk.
  destruct i as [| [| [| [| i]]]]; [| | | | lia];
    (destruct k as [| [| [| [| k]]]]; [| | | | lia]);
    cbv [rsum det minor skip sign Nat.add Nat.even Nat.ltb Nat.leb Nat.eqb];
    ring.
Qed.

Lemma linalg_inv4_right (a : ndarray) :
  shape a = [4; 4]%nat ->
  det 4 (fun i j => item a [i; j]) <> 0 ->
  exists inv,
    linalg_inv a = inr inv /\ shape inv = [4; 4]%nat
    /\ forall i k, (i < 4)%nat -> (k < 4)%nat ->
         rsum 4 (fun j => item a [i; j] * item inv [j; k])
         = if (i =? k)%nat then 1 else 0.
Proof.
  intros Hs Hdet. unfold linalg_inv. rewrite Hs.
  rewrite decide_True by reflexivity.
  destruct (Req_dec_T _ 0) as [E | _]; [contradiction |].
  eexists. split; [reflexivity | split; [reflexivity |]].
  intros i k Hi Hk. cbn [item Nat.sub].
  assert (Hadj := adjugate4_right (fun i j => item a [i; j]) i k Hi Hk).
  cbn beta in Hadj.
  set (D := det 4 (fun i j => item a [i; j])) in *.
  rewrite rsum4 in *.
  replace (if (i =? k)%nat then 1 else 0)
    with ((if (i =? k)%nat then D else 0) / D)
    by (destruct (i =? k)%nat; field; exact Hdet).
  rewrite <- Hadj. field. exact Hdet.
Qed.

(** X7: the round trip in the other order.  On a record with four
    channels that the frame check lets through in the reverse direction,
    and whose beam matrix is 4 by 4 with a determinant other than 0, the
    reverse [beam2inst] call completes, the forward call on its result
    completes, and the velocity after the two calls is the one before
    them. *)
Theorem beam2inst_reverse_forward (o : adp) (nk nl : nat) (force force' : bool)
    (Hc : force = true \/ props o !! "coord_sys" = Some (PStr "inst"))
    (Hv : shape (vel o) = [4; nk; nl]%nat)
    (Hs : shape (beam2inst_rotmat (config o)) = [4; 4]%nat)
    (Hdet : det 4 (fun i j => item (beam2inst_rotmat (config o)) [i; j]) <> 0) :
  exists o1 o2,
    beam2inst true force o = (o1, inr tt)
    /\ beam2inst false force' o1 = (o2, inr tt)
    /\ shape (vel o2) = shape (vel o)
    /\ (forall i k l, (i < 4)%nat ->
          item (vel o2) [i; k; l] = item (vel o) [i; k; l])
    /\ props o2 !! "coord_sys" = Some (PStr "inst").
Proof.
  set (R0 := beam2inst_rotmat (config o)) in *.
  destruct (linalg_inv4_right R0 Hs Hdet) as (inv & Einv & Hsi & Hright).
  destruct (einsum_beam inv (vel o) nk nl Hsi Hv) as (v1 & Ev1 & Hs1 & Hi1).
  destruct (einsum_beam R0 v1 nk nl Hs Hs1) as (v2 & Ev2 & Hs2 & Hi2).
  set (o1 := set_props (<["coord_sys" := PStr "beam"]> (props o)) (set_vel v1 o)).
  assert (Hrun1 : beam2inst true force o = (o1, inr tt)).
  { rewrite beam2inst_unfold.
    rewrite (beam2inst_check_reverse_ok force o Hc). cbn [snd].
    fold R0. rewrite Einv, Ev1. reflexivity. }
  assert (Hrun2 : beam2inst false force' o1
                  = (set_props (<["coord_sys" := PStr "inst"]> (props o1))
                       (set_vel v2 o1), inr tt)).
  { rewrite beam2inst_unfold.
    rewrite (beam2inst_check_forward_ok force' o1). 2:{
      right. exists "beam"%string. split; [apply lookup_insert_eq | reflexivity]. }
    cbn [snd]. change (beam2inst_rotmat (config o1)) with R0.
    change (vel o1) with v1. rewrite Ev2. reflexivity. }
  eexists o1, _. split; [exact Hrun1 | split; [exact Hrun2 |]].
  cbn [set_props set_vel vel props].
  split; [congruence | split; [| apply lookup_insert_eq]].
  intros i k l Hi. rewrite Hi2.
  transitivity
    (rsum 4 (fun j => item R0 [i; j]
                      * rsum 4 (fun q => item inv [j; q]
                                         * item (vel o) [q; k; l]))).
  - rewrite !(rsum4 (fun j => item R0 _ * _)). rewrite !Hi1. reflexivity.
  - apply (undo_matrix4 (fun x y => item R0 [x; y])
             (fun x y => item inv [x; y])
             (fun q => item (vel o) [q; k; l]) i); [| exact Hi].
    intros q Hq. apply Hright; assumption.
Qed.

Lemma beam2inst_reverse_forward_witness :
  exists o1 o2,
    beam2inst true false four_inst = (o1, inr tt)
    /\ beam2inst false false o1 = (o2, inr tt)
    /\ forall i k l, (i < 4)%nat ->
         item (vel o2) [i; k; l] = item (vel four_inst) [i; k; l].
Proof.
  assert (Hdet : det 4 (fun i j =>
                          item (beam2inst_rotmat (config four_inst)) [i; j])
                 <> 0).
  { change (beam2inst_rotmat (config four_inst))
      with (calc_beam_rotmatrix 20 1 true).
    apply calc_beam_rotmatrix_det. lra. }
  destruct (beam2inst_reverse_forward four_inst 1 1 false false
              (or_intror eq_refl) eq_refl eq_refl Hdet)
    as (o1 & o2 & H1 & H2 & _ & H4 & _).
  exists o1, o2. split; [exact H1 | split; [exact H2 | exact H4]].
Defined.

(** ** The coordinate-system tag *)

Lemma beam2inst_rejects (o : adp) (cs : string) (reverse : bool) :
  props o !! "coord_sys" = Some (PStr cs) ->
  (if reverse then cs <> "inst"%string else lower cs <> "beam"%string) ->
  exists msg, beam2inst reverse false o = (o, inl (ValueError msg)).
Proof.
  intros Hcs Hne. rewrite beam2inst_unfold.
  destruct reverse.
  - assert (Hc : beam2inst_check true false o
                 = (o, inl (ValueError "The input must be in inst coordinates."))).
    { unfold beam2inst_check. cbn [when negb].
      erewrite bind_ok by reflexivity.
      erewrite bind_ok by (apply props_getitem_some; exact Hcs).
      cbn [py_eq_str]. rewrite String_eqb_neq by exact Hne. reflexivity. }
    rewrite Hc. eexists. reflexivity.
  - assert (Hc : beam2inst_check false false o
                 = (o, inl (ValueError "The input must be in beam coordinates."))).
    { unfold beam2inst_check. cbn [when negb].
      apply bind_raises.
      erewrite bind_ok by (apply props_getitem_some; exact Hcs).
      cbn [py_lower]. unfold bind at 1, lift at 1.
      rewrite String_eqb_neq by exact Hne. reflexivity. }
    rewrite Hc. eexists. reflexivity.
Qed.

Lemma inst2earth_rejects (o : adp) (cs : string) (reverse fx : bool) :
  props o !! "coord_sys" = Some (PStr cs) ->
  (if reverse
   then lower cs <> "earth"%string /\ lower cs <> "enu"%string
   else cs <> "inst"%string /\ cs <> "ship"%string) ->
  exists msg, inst2earth reverse fx false o = (o, inl (ValueError msg)).
Proof.
  intros Hcs Hne. unfold inst2earth. destruct reverse.
  - eexists. apply bind_raises.
    rewrite (inst2earth_check_reverse o cs Hcs).
    destruct Hne as [H1 H2].
    rewrite !String_eqb_neq by assumption. reflexivity.
  - eexists. apply bind_raises.
    rewrite (inst2earth_check_forward o _ Hcs).
    destruct Hne as [H1 H2]. cbn [py_eq_str].
    rewrite !String_eqb_neq by assumption. reflexivity.
Qed.

Lemma beam2inst_completed_tag (reverse force : bool) (o o' : adp) :
  beam2inst reverse force o = (o', inr tt) ->
  props o' !! "coord_sys" = Some (PStr (if reverse then "beam" else "inst")).
Proof.
  rewrite beam2inst_unfold.
  destruct (snd (beam2inst_check reverse force o)) as [e | []];
    [discriminate |].
  destruct (if reverse then _ else _) as [e | rot]; [discriminate |].
  destruct (einsum _ rot (vel o)) as [e | v]; [discriminate |].
  intros H. injection H as <-. cbn [set_props props]. apply lookup_insert_eq.
Qed.

Lemma inst2earth_completed_tag (reverse fx force : bool) (o o' : adp) :
  inst2earth reverse fx force o = (o', inr tt) ->
  props o' !! "coord_sys" = Some (PStr (if reverse then "inst" else "earth")).
Proof.
  intros Hrun.
  destruct (inst2earth_inv _ _ _ _ _ Hrun) as (o1 & m & _ & _ & Hr & Ha).
  destruct (inst2earth_rotmat_inv _ _ _ Hr) as (_ & Hsm & _).
  destruct (inst2earth_apply_inv _ _ _ _ _ _ Hsm Ha) as (_ & _ & A3 & _).
  rewrite A3. apply lookup_insert_eq.
Qed.

(** X8: the tag that a completed call leaves decides which call is
    accepted next without [force].  After a forward [beam2inst] the tag
    is ['inst']: a second forward [beam2inst] and a reverse [inst2earth]
    are rejected with [ValueError] and change nothing, a forward
    [inst2earth] and a reverse [beam2inst] pass the check.  After a
    forward [inst2earth] the tag is ['earth']: every call other than the
    reverse [inst2earth] is rejected.  After a reverse [inst2earth] the
    tag is ['inst'], whatever it was before the forward call (never
    ['ship']); after a reverse [beam2inst] it is ['beam'] and only the
    forward [beam2inst] is accepted. *)
Theorem completed_call_decides_next (o o' : adp) (fx fx' force : bool) :
  (beam2inst false force o = (o', inr tt) ->
   props o' !! "coord_sys" = Some (PStr "inst")
   /\ (exists msg, beam2inst false false o' = (o', inl (ValueError msg)))
   /\ (exists msg, inst2earth true fx' false o' = (o', inl (ValueError msg)))
   /\ inst2earth_check false false o' = (o', inr tt)
   /\ beam2inst_check true false o' = (o', inr tt))
  /\ (inst2earth false fx force o = (o', inr tt) ->
      props o' !! "coord_sys" = Some (PStr "earth")
      /\ (exists msg, inst2earth false fx' false o' = (o', inl (ValueError msg)))
      /\ (exists msg, beam2inst false false o' = (o', inl (ValueError msg)))
      /\ (exists msg, beam2inst true false o' = (o', inl (ValueError msg)))
      /\ inst2earth_check true false o' = (o', inr tt))
  /\ (inst2earth true fx force o = (o', inr tt) ->
      props o' !! "coord_sys" = Some (PStr "inst")
      /\ (exists msg, inst2earth true fx' false o' = (o', inl (ValueError msg)))
      /\ (exists msg, beam2inst false false o' = (o', inl (ValueError msg)))
      /\ inst2earth_check false false o' = (o', inr tt)
      /\ beam2inst_check true false o' = (o', inr tt))
  /\ (beam2inst true force o = (o', inr tt) ->
      props o' !! "coord_sys" = Some (PStr "beam")
      /\ (exists msg, beam2inst true false o' = (o', inl (ValueError msg)))
      /\ (exists msg, inst2earth false fx' false o' = (o', inl (ValueError msg)))
      /\ (exists msg, inst2earth true fx' false o' = (o', inl (ValueError msg)))
      /\ beam2inst_check false false o' = (o', inr tt)).
Proof.
  assert (Hinst : props o' !! "coord_sys" = Some (PStr "inst") ->
            (exists msg, inst2earth true fx' false o' = (o', inl (ValueError msg)))
            /\ (exists msg, beam2inst false false o' = (o', inl (ValueError msg)))
            /\ inst2earth_check false false o' = (o', inr tt)
            /\ beam2inst_check true false o' = (o', inr tt)).
  { intros Ht. split; [| split; [| split]].
    - apply (inst2earth_rejects o' "inst" true fx' Ht). split; discriminate.
    - apply (beam2inst_rejects o' "inst" false Ht). discriminate.
    - rewrite (inst2earth_check_forward o' _ Ht). reflexivity.
    - apply beam2inst_check_reverse_ok. right. exact Ht. }
  split; [| split; [| split]].
  - intros Hrun. assert (Ht := beam2inst_completed_tag _ _ _ _ Hrun).
    cbn in Ht. destruct (Hinst Ht) as (H1 & H2 & H3 & H4).
    repeat split; assumption.
  - intros Hrun. assert (Ht := inst2earth_completed_tag _ _ _ _ _ Hrun).
    cbn in Ht. split; [exact Ht |]. split; [| split; [| split]].
    + apply (inst2earth_rejects o' "earth" false fx' Ht). split; discriminate.
    + apply (beam2inst_rejects o' "earth" false Ht). discriminate.
    + apply (beam2inst_rejects o' "earth" true Ht). discriminate.
    + rewrite (inst2earth_check_reverse o' "earth" Ht). reflexivity.
  - intros Hrun. assert (Ht := inst2earth_completed_tag _ _ _ _ _ Hrun).
    cbn in Ht. destruct (Hinst Ht) as (H1 & H2 & H3 & H4).
    repeat split; assumption.
  - intros Hrun. assert (Ht := beam2inst_completed_tag _ _ _ _ Hrun).
    cbn in Ht. split; [exact Ht |]. split; [| split; [| split]].
    + apply (beam2inst_rejects o' "beam" true Ht). discriminate.
    + apply (inst2earth_rejects o' "beam" false fx' Ht). split; discriminate.
    + apply (inst2earth_rejects o' "beam" true fx' Ht). split; discriminate.
    + apply beam2inst_check_forward_ok. right. exists "beam"%string.
      split; [exact Ht | reflexivity].
Qed.

Lemma completed_call_decides_next_witness :
  props (final (inst2earth false false false) heading_east) !! "coord_sys"
  = Some (PStr "earth")
  /\ exists msg,
      inst2earth false false false
        (final (inst2earth false false false) heading_east)
      = (final (inst2earth false false false) heading_east,
         inl (ValueError msg)).
Proof.
  destruct (proj1 (proj2 (completed_call_decides_next
                            heading_east
                            (final (inst2earth false false false) heading_east)
                            false false false))
              eq_refl)
    as (H1 & H2 & _).
  split; [exact H1 | exact H2].
Defined.

(** ** The rotation that [inst2earth] applies *)

Lemma rsum_ext (n : nat) (f g : nat -> R) :
  (forall s, (s < n)%nat -> f s = g s) -> rsum n f = rsum n g.
Proof.
  induction n as [| n IH]; intros H; cbn [rsum]; [reflexivity |].
  rewrite IH by (intros s Hs; apply H; lia). rewrite (H n) by lia.
  reflexivity.
Qed.

(** A completed call: the record the matrix was built from, the matrix,
    and what the call did with it. *)
Lemma inst2earth_completed_full (reverse fx force : bool) (o o' : adp) :
  inst2earth reverse fx force o = (o', inr tt) ->
  let oa := fst (inst2earth_declination reverse o) in
  let fixed := truthy (if reverse
                       then default (PBool fx) (props o !! "inst2earth:fixed")
                       else PBool fx) in
  exists m,
    shape m = [3; 3; length (roll (orient o))]%nat
    /\ (forall i j t, (t < length (roll (orient o)))%nat ->
          item m [i; j; t]
          = rot_entry i j (heading_rad oa t) (roll_rad oa t) (pitch_rad oa t))
    /\ shape (vel o') = shape (vel o)
    /\ (forall i d t, (i < 3)%nat ->
          item (vel o') [i; d; t]
          = rsum 3 (fun j => applied_rotation reverse fixed m i j t
                             * item (vel o) [j; d; t])).
Proof.
  intros Hrun oa fixed.
  destruct (inst2earth_inv _ _ _ _ _ Hrun) as (o1 & m & _ & Hd & Hr & Ha).
  destruct (inst2earth_declination_frame reverse o)
    as (F1 & _ & _ & F4 & _ & _ & _ & F8).
  subst oa fixed. rewrite Hd in *. cbn [fst] in *.
  destruct (inst2earth_rotmat_inv _ _ _ Hr) as (_ & Hsm & _ & _ & Hi).
  destruct (inst2earth_apply_inv _ _ _ _ _ _ Hsm Ha)
    as (_ & _ & _ & A4 & _ & A6 & _).
  rewrite F4 in Hsm, Hi. rewrite F8 in A6 by discriminate.
  exists m. split; [exact Hsm | split; [exact Hi | split]].
  - rewrite A4, F1. reflexivity.
  - intros i d t Hlt. rewrite (A6 i d t Hlt), F1. reflexivity.
Qed.

(** X9: the fixed orientation.  A completed call that runs in the fixed
    mode (forward with [fixed_orientation] set, or reverse with the flag
    recorded as set) multiplies the first three channels, at every bin
    and every time step alike, by the mean over time of the matrices of
    the time steps (entry by entry; transposed in the reverse
    direction), the orientation series not being empty. *)
Theorem fixed_orientation_applies_mean (reverse fx force : bool) (o o' : adp)
    (Hrun : inst2earth reverse fx force o = (o', inr tt))
    (Hfix : truthy (if reverse
                    then default (PBool fx) (props o !! "inst2earth:fixed")
                    else PBool fx) = true)
    (Hlen : (0 < length (roll (orient o)))%nat) :
  let oa := fst (inst2earth_declination reverse o) in
  let T := length (roll (orient o)) in
  let mean_entry (i j : nat) :=
    rsum T (fun s => rot_entry i j (heading_rad oa s) (roll_rad oa s)
                       (pitch_rad oa s)) / INR T in
  forall i d t, (i < 3)%nat ->
    item (vel o') [i; d; t]
    = rsum 3 (fun j => (if reverse then mean_entry j i else mean_entry i j)
                       * item (vel o) [j; d; t]).
Proof.
  intros oa T mean_entry i d t Hi.
  destruct (inst2earth_completed_full _ _ _ _ _ Hrun)
    as (m & Hsm & Him & _ & Hv).
  rewrite (Hv i d t Hi). rewrite Hfix.
  apply rsum_ext. intros j _. f_equal.
  subst mean_entry. fold oa in Him.
  destruct reverse; cbn [applied_rotation]; unfold mean_last; rewrite Hsm;
    cbn [item]; fold T; f_equal; apply rsum_ext; intros s Hs;
    apply Him; exact Hs.
Qed.

Lemma fixed_orientation_applies_mean_witness :
  item (vel (final (inst2earth false true false) heading_east)) [0; 0; 0]%nat
  = rsum 3 (fun j =>
              rsum 1 (fun s =>
                        rot_entry 0 j
                          (heading_rad (fst (inst2earth_declination false
                                               heading_east)) s)
                          (roll_rad (fst (inst2earth_declination false
                                            heading_east)) s)
                          (pitch_rad (fst (inst2earth_declination false
                                             heading_east)) s))
              / INR 1
              * item (vel heading_east) [j; 0; 0]%nat).
Proof.
  exact (fixed_orientation_applies_mean false true false heading_east
           (final (inst2earth false true false) heading_east)
           eq_refl eq_refl (le_n 1) 0%nat 0%nat 0%nat (le_S _ _ (le_S _ _ (le_n 1)))).
Defined.

Lemma rot_entry_preserves_norm (h r p : R) (v : nat -> R) (transpose : bool) :
  rsum 3 (fun i =>
            rsum 3 (fun j => (if transpose then rot_entry j i h r p
                              else rot_entry i j h r p) * v j)
            * rsum 3 (fun j => (if transpose then rot_entry j i h r p
                                else rot_entry i j h r p) * v j))
  = rsum 3 (fun i => v i * v i).
Proof.
  rewrite !rsum3.
  assert (H1 := sq_sin_cos h). assert (H2 := sq_sin_cos r).
  assert (H3 := sq_sin_cos p).
  unfold rot_entry.
  set (ch := cos h) in *. set (sh := sin h) in *.
  set (cr := cos r) in *. set (sr := sin r) in *.
  set (cp := cos p) in *. set (sp := sin p) in *.
  generalize (v 0%nat) (v 1%nat) (v 2%nat). intros v0 v1 v2.
  destruct transpose; nsatz.
Qed.

(** X10: a rotation step by step preserves the speed.  After a completed
    call that does not run in the fixed mode, the sum of the squares of
    the first three velocity channels is, in every bin and at every time
    step of the orientation series, what it was before the call. *)
Theorem per_step_rotation_preserves_speed (reverse fx force : bool)
    (o o' : adp)
    (Hrun : inst2earth reverse fx force o = (o', inr tt))
    (Hmode : truthy (if reverse
                     then default (PBool fx) (props o !! "inst2earth:fixed")
                     else PBool fx) = false) :
  forall d t, (t < length (roll (orient o)))%nat ->
    rsum 3 (fun i => item (vel o') [i; d; t] * item (vel o') [i; d; t])
    = rsum 3 (fun i => item (vel o) [i; d; t] * item (vel o) [i; d; t]).
Proof.
  intros d t Ht.
  destruct (inst2earth_completed_full _ _ _ _ _ Hrun)
    as (m & _ & Him & _ & Hv).
  rewrite Hmode in Hv.
  set (oa := fst (inst2earth_declination reverse o)) in *.
  rewrite <- (rot_entry_preserves_norm
                (heading_rad oa t) (roll_rad oa t) (pitch_rad oa t)
                (fun j => item (vel o) [j; d; t]) reverse).
  apply rsum_ext. intros i Hi. rewrite (Hv i d t Hi).
  assert (E : forall j,
             applied_rotation reverse false m i j t
             = if reverse
               then rot_entry j i (heading_rad oa t) (roll_rad oa t)
                      (pitch_rad oa t)
               else rot_entry i j (heading_rad oa t) (roll_rad oa t)
                      (pitch_rad oa t)).
  { intros j. destruct reverse; cbn [applied_rotation]; apply Him; exact Ht. }
  rewrite !rsum3, !E. reflexivity.
Qed.

Lemma per_step_rotation_preserves_speed_witness :
  rsum 3 (fun i =>
            item (vel (final (inst2earth false false false) looking_up))
                 [i; 0; 0]%nat
            * item (vel (final (inst2earth false false false) looking_up))
                   [i; 0; 0]%nat)
  = rsum 3 (fun i => item (vel looking_up) [i; 0; 0]%nat
                     * item (vel looking_up) [i; 0; 0]%nat).
Proof.
  exact (per_step_rotation_preserves_speed false false false looking_up
           (final (inst2earth false false false) looking_up)
           eq_refl eq_refl 0%nat 0%nat (le_n 1)).
Defined.

(** X11: the matrix of an instrument that looks up (and is not a
    signature) is the matrix that the same heading, roll and pitch give
    without the correction, with its first and its third column negated:
    pi is added to the roll after the pitch has been computed from it. *)
Theorem looking_up_negates_x_and_z (o : adp) (m : ndarray)
    (Hm : inst2earth_rotmat o = (o, inr m))
    (Hup : looks_up o = true) (Hts : tilt_suppressed o = false) :
  forall i j t, (t < length (roll (orient o)))%nat ->
    item m [i; j; t]
    = (if (j =? 1)%nat then 1 else -1)
      * rot_entry i j (heading_rad o t)
          (nth t (roll (orient o)) 0 * (PI / 180))
          (atan (tan (nth t (pitch (orient o)) 0 * (PI / 180))
                 * cos (nth t (roll (orient o)) 0 * (PI / 180)))).
Proof.
  intros i j t Ht.
  destruct (inst2earth_rotmat_inv _ _ _ Hm) as (_ & _ & _ & _ & Hi).
  rewrite (Hi i j t Ht). unfold roll_rad, pitch_rad. rewrite Hts, Hup.
  fold deg2rad. unfold rot_entry. rewrite neg_cos, neg_sin.
  destruct i as [| [| [| i]]]; destruct j as [| [| [| j]]];
    cbn [Nat.eqb]; ring.
Qed.

Lemma looking_up_negates_x_and_z_witness :
  exists m,
    inst2earth_rotmat looking_up = (looking_up, inr m)
    /\ forall i j t, (t < 1)%nat ->
         item m [i; j; t]
         = (if (j =? 1)%nat then 1 else -1)
           * rot_entry i j (heading_rad looking_up t)
               (nth t (roll (orient looking_up)) 0 * (PI / 180))
               (atan (tan (nth t (pitch (orient looking_up)) 0 * (PI / 180))
                      * cos (nth t (roll (orient looking_up)) 0 * (PI / 180)))).
Proof.
  destruct (inst2earth_rotmat_ok looking_up "AWAC" eq_refl
              (fun _ => ex_intro _ (PStr "inst") eq_refl)
              eq_refl eq_refl (fun H => eq_refl)) as [m Em].
  exists m. split; [exact Em |].
  exact (looking_up_negates_x_and_z looking_up m Em eq_refl eq_refl).
Defined.

Lemma declination_keeps_corrections (reverse : bool) (o : adp) :
  let oa := fst (inst2earth_declination reverse o) in
  tilt_suppressed oa = tilt_suppressed o
  /\ looks_up oa = looks_up o
  /\ (forall t, roll_rad oa t = roll_rad o t)
  /\ (forall t, pitch_rad oa t = pitch_rad o t).
Proof.
  intros oa.
  destruct (inst2earth_declination_frame reverse o)
    as (_ & _ & F3 & F4 & F5 & _ & _ & F8).
  fold oa in F3, F4, F5, F8.
  assert (Es : is_signature oa = is_signature o)
    by (apply is_signature_ext, F8; discriminate).
  assert (Et : tilt_suppressed oa = tilt_suppressed o).
  { unfold tilt_suppressed. rewrite Es, F3, F8 by discriminate. reflexivity. }
  assert (El : looks_up oa = looks_up o).
  { unfold looks_up. rewrite Es, F3. reflexivity. }
  split; [exact Et | split; [exact El | split]]; intros t.
  - unfold roll_rad. rewrite Et, El, F4. reflexivity.
  - unfold pitch_rad. rewrite Et, F4, F5. reflexivity.
Qed.

(** X12: ship data with pitch and roll switched off are rotated about
    the vertical axis only.  A completed forward call that does not run
    in the fixed mode leaves the third channel as it is and turns the
    first two by the heading: E = cos h X + sin h Y, N = - sin h X +
    cos h Y. *)
Theorem ship_rotation_is_about_vertical (fx force : bool) (o o' : adp)
    (Hrun : inst2earth false fx force o = (o', inr tt))
    (Hfx : fx = false)
    (Hts : tilt_suppressed o = true) :
  forall d t, (t < length (roll (orient o)))%nat ->
    let h := heading_rad (fst (inst2earth_declination false o)) t in
    item (vel o') [0; d; t]%nat
    = cos h * item (vel o) [0; d; t]%nat + sin h * item (vel o) [1; d; t]%nat
    /\ item (vel o') [1; d; t]%nat
       = - sin h * item (vel o) [0; d; t]%nat
         + cos h * item (vel o) [1; d; t]%nat
    /\ item (vel o') [2; d; t]%nat = item (vel o) [2; d; t]%nat.
Proof.
  intros d t Ht h. subst fx.
  destruct (inst2earth_completed_full _ _ _ _ _ Hrun)
    as (m & _ & Him & _ & Hv).
  destruct (declination_keeps_corrections false o) as (Et & _ & _ & _).
  cbn [truthy applied_rotation] in Hv.
  rewrite !Hv by lia. rewrite !rsum3. rewrite !Him by exact Ht.
  unfold roll_rad, pitch_rad. rewrite Et, Hts. fold h.
  unfold rot_entry. rewrite cos_0, sin_0.
  repeat split; ring.
Qed.

Lemma ship_rotation_is_about_vertical_witness :
  item (vel (final (inst2earth false false false) ship_rolled)) [2; 0; 0]%nat
  = item (vel ship_rolled) [2; 0; 0]%nat.
Proof.
  exact (proj2 (proj2 (ship_rotation_is_about_vertical false false ship_rolled
                         (final (inst2earth false false false) ship_rolled)
                         eq_refl eq_refl eq_refl 0%nat 0%nat (le_n 1)))).
Defined.

(** X13: the declination takes effect in the call that folds it.  A
    completed forward call on a record whose declination [x] is not yet
    in the heading rotates, step by step, with the matrix of the heading
    plus [x]; the roll and pitch are those of the record. *)
Theorem declination_rotates_in_same_call (fx force : bool) (o o' : adp)
    (dv : pyval) (x : R)
    (Hrun : inst2earth false fx force o = (o', inr tt))
    (Hfx : fx = false)
    (Hd : props o !! "declination" = Some dv) (Hx : py_number dv = inr x)
    (Hf : declination_folded o = false) :
  forall i d t, (i < 3)%nat -> (t < length (roll (orient o)))%nat ->
    item (vel o') [i; d; t]
    = rsum 3 (fun j =>
                rot_entry i j
                  ((nth t (heading (orient o)) 0 + x) * (PI / 180))
                  (roll_rad o t) (pitch_rad o t)
                * item (vel o) [j; d; t]).
Proof.
  intros i d t Hi Ht. subst fx.
  destruct (inst2earth_completed_full _ _ _ _ _ Hrun)
    as (m & _ & Him & _ & Hv).
  destruct (declination_keeps_corrections false o) as (_ & _ & Er & Ep).
  assert (Hlen : length (heading (orient o)) = length (roll (orient o))).
  { destruct (inst2earth_inv _ _ _ _ _ Hrun) as (o1 & m' & _ & Hd1 & Hr1 & _).
    destruct (inst2earth_rotmat_inv _ _ _ Hr1) as (_ & _ & Hl & _).
    destruct (inst2earth_declination_frame false o)
      as (_ & _ & _ & F4 & _ & _ & F7 & _).
    rewrite Hd1 in F4, F7. cbn [fst] in F4, F7. congruence. }
  cbn [truthy applied_rotation] in Hv.
  rewrite (Hv i d t Hi). apply rsum_ext. intros j _. f_equal.
  rewrite (Him i j t Ht), Er, Ep. f_equal.
  unfold heading_rad. rewrite inst2earth_declination_eq.
  fold (declination_folded o). rewrite Hf, Hd, Hx.
  rewrite bool_decide_eq_true_2 by (eexists; reflexivity).
  cbn [negb andb fst set_props set_heading orient heading].
  rewrite (nth_map_lt _ _ _ 0) by lia. reflexivity.
Qed.

Lemma declination_rotates_in_same_call_witness :
  item (vel (final (inst2earth false false false) north_declined)) [0; 0; 0]%nat
  = rsum 3 (fun j =>
              rot_entry 0 j
                ((nth 0 (heading (orient north_declined)) 0 + 10) * (PI / 180))
                (roll_rad north_declined 0) (pitch_rad north_declined 0)
              * item (vel north_declined) [j; 0; 0]%nat).
Proof.
  exact (declination_rotates_in_same_call false false north_declined
           (final (inst2earth false false false) north_declined)
           (PNum 10) 10 eq_refl eq_refl eq_refl eq_refl eq_refl
           0%nat 0%nat 0%nat (le_S _ _ (le_S _ _ (le_n 1))) (le_n 1)).
Defined.

(** ** [inst2earth_heading] *)

(** The returned phases, with an absent key counted as 0. *)
Lemma inst2earth_heading_eq (o : adp) :
  let number (v : option pyval) : exn + R :=
    match v with
    | Some w => py_number w
    | None => inr 0
    end in
  inst2earth_heading o
  = (o, match number (props o !! "heading_offset"),
              number (props o !! "declination") with
        | inr a, inr b =>
            inr (map (fun hd => exp_neg_i ((hd + a + b) * deg2rad))
                     (heading (orient o)))
        | inl e, _ => inl e
        | inr _, inl e => inl e
        end).
Proof.
  cbn zeta. unfold inst2earth_heading, bind at 1, get.
  destruct (props o !! "heading_offset") as [v |];
    destruct (props o !! "declination") as [w |];
    unfold bind, lift, ret;
    try (destruct (py_number v) as [e | a]; [reflexivity |]);
    try (destruct (py_number w) as [e | b]; [reflexivity |]);
    do 2 f_equal; rewrite ?map_map; apply map_ext; intros hd;
    f_equal; ring.
Qed.

Lemma exp_neg_i_period (x : R) : exp_neg_i (x + 2 * PI) = exp_neg_i x.
Proof.
  unfold exp_neg_i.
  replace (x + 2 * PI) with (x + 2 * INR 1 * PI) by (cbn [INR]; ring).
  rewrite cos_period, sin_period. reflexivity.
Qed.

(** X14: [inst2earth_heading] reads the record and never changes it
    (the offsets are added to a copy of the heading).  It raises only
    [TypeError], for a heading offset or a declination that is not a
    number.  What it returns has one entry per heading sample, each of
    modulus 1, and is the same when 360 degrees are added to every
    heading sample. *)
Theorem heading_phase_is_circular (o : adp) :
  fst (inst2earth_heading o) = o
  /\ (forall e, outcome inst2earth_heading o = inl e -> e = TypeError)
  /\ (forall l, outcome inst2earth_heading o = inr l ->
        length l = length (heading (orient o))
        /\ forall z, In z l -> fst z * fst z + snd z * snd z = 1)
  /\ outcome inst2earth_heading
       (set_heading (map (fun hd => hd + 360) (heading (orient o))) o)
     = outcome inst2earth_heading o.
Proof.
  assert (Hty : forall (v : option pyval) e,
             match v with Some w => py_number w | None => inr 0 end = inl e ->
             e = TypeError).
  { intros [[s | x | b] |] e H; cbn [py_number] in H; congruence. }
  unfold outcome. rewrite !inst2earth_heading_eq. cbn [fst snd].
  cbn [set_heading props orient heading].
  split; [reflexivity |].
  destruct (match props o !! "heading_offset" with
            | Some w => py_number w
            | None => inr 0
            end) as [e1 | a] eqn:Ea.
  { apply Hty in Ea. subst e1.
    split; [intros e H; congruence | split; [intros l H; discriminate H |]].
    reflexivity. }
  destruct (match props o !! "declination" with
            | Some w => py_number w
            | None => inr 0
            end) as [e2 | b] eqn:Eb.
  { apply Hty in Eb. subst e2.
    split; [intros e H; congruence | split; [intros l H; discriminate H |]].
    reflexivity. }
  split; [intros e H; discriminate H | split].
  - intros l H. injection H as <-. split; [apply length_map |].
    intros z Hz. apply in_map_iff in Hz. destruct Hz as (hd & <- & _).
    unfold exp_neg_i. cbn [fst snd].
    generalize (sq_sin_cos ((hd + a + b) * deg2rad)). lra.
  - f_equal. rewrite map_map. apply map_ext. intros hd.
    rewrite <- (exp_neg_i_period ((hd + a + b) * deg2rad)).
    f_equal. unfold deg2rad. field.
Qed.

Lemma heading_phase_is_circular_witness :
  exists l,
    outcome inst2earth_heading north_declined = inr l
    /\ length l = length (heading (orient north_declined)).
Proof.
  eexists. split; [reflexivity |].
  exact (proj1 (proj1 (proj2 (proj2 (heading_phase_is_circular north_declined)))
                  _ eq_refl)).
Defined.

(** ** Fewer than three channels *)

Lemma einsum_vel_rejects (reverse fixed : bool) (rotmat b : ndarray)
    (T C nd nt : nat) :
  shape rotmat = [3; 3; T]%nat -> shape b = [C; nd; nt] -> C <> 3%nat ->
  exists e,
    einsum (vel_subscripts reverse fixed)
           (if fixed then mean_last rotmat else rotmat) b = inl e.
Proof.
  intros Hs Hb HC.
  destruct (einsum _ _ b) as [e | v] eqn:E; [exists e; reflexivity |].
  destruct (einsum_vel_inv _ _ _ _ _ _ Hs E) as (nd' & nt' & Hb' & _).
  congruence.
Qed.

(** X15: a velocity array with fewer than three channels cannot be
    rotated.  Whatever the arguments, [inst2earth] raises, and [vel],
    [bt_vel] and [coord_sys] are as before the call. *)
Theorem too_few_channels_raises (reverse fx force : bool) (o : adp)
    (C nd nt : nat)
    (Hv : shape (vel o) = [C; nd; nt]) (HC : (C < 3)%nat) :
  let o' := final (inst2earth reverse fx force) o in
  (exists e, outcome (inst2earth reverse fx force) o = inl e)
  /\ vel o' = vel o /\ bt_vel o' = bt_vel o
  /\ props o' !! "coord_sys" = props o !! "coord_sys".
Proof.
  intros o'. subst o'. unfold final, outcome.
  destruct (inst2earth_final reverse fx force o)
    as [(e & _ & He) | (Hc & _)].
  { rewrite He. cbn [fst snd]. split; [exists e; reflexivity |].
    repeat split; reflexivity. }
  destruct (inst2earth_declination_frame reverse o)
    as (F1 & F2 & _ & _ & _ & _ & _ & F8).
  unfold inst2earth. rewrite (bind_ok _ _ _ _ _ Hc).
  destruct (inst2earth_declination reverse o) as [o1 [e | []]] eqn:Ed;
    cbn [fst] in *.
  { rewrite (bind_raises _ _ _ _ _ Ed). cbn [fst snd].
    split; [exists e; reflexivity |].
    split; [exact F1 | split; [exact F2 | apply F8; discriminate]]. }
  rewrite (bind_ok _ _ _ _ _ Ed).
  destruct (inst2earth_rotmat o1) as [o2 [e | m]] eqn:Er;
    assert (E2 := inst2earth_rotmat_state o1);
    rewrite Er in E2; cbn [fst] in E2; subst o2.
  { rewrite (bind_raises _ _ _ _ _ Er). cbn [fst snd].
    split; [exists e; reflexivity |].
    split; [exact F1 | split; [exact F2 | apply F8; discriminate]]. }
  rewrite (bind_ok _ _ _ _ _ Er).
  destruct (inst2earth_rotmat_inv _ _ _ Er) as (_ & Hsm & _).
  rewrite inst2earth_apply_eq. cbn zeta.
  set (fixed := truthy _). set (o0 := set_props _ o1).
  assert (H3 : shape (first3 (vel o1)) = [Nat.min 3 C; nd; nt]).
  { unfold first3. cbn [shape]. rewrite F1, Hv. reflexivity. }
  destruct (einsum_vel_rejects reverse fixed m (first3 (vel o1)) _ _ nd nt
              Hsm H3 ltac:(lia)) as [e He].
  assert (Hrun : inst2earth_einsum (vel_subscripts reverse fixed)
                   (if fixed then mean_last m else m)
                   (if reverse then "inst" else "earth") o0
                 = (o0, inl e)).
  { unfold inst2earth_einsum. erewrite bind_ok by reflexivity.
    apply bind_raises. unfold lift. change (vel o0) with (vel o1).
    rewrite He. reflexivity. }
  rewrite Hrun. cbn [fst snd]. split; [exists e; reflexivity |].
  subst o0. cbn [set_props vel bt_vel props].
  split; [exact F1 | split; [exact F2 |]].
  rewrite <- (F8 "coord_sys") by discriminate.
  destruct reverse; [apply lookup_delete_ne | apply lookup_insert_ne];
    discriminate.
Qed.

Lemma too_few_channels_raises_witness :
  (exists e, outcome (inst2earth false false false) two_channels = inl e)
  /\ vel (final (inst2earth false false false) two_channels) = vel two_channels.
Proof.
  destruct (too_few_channels_raises false false false two_channels 2 1 1
              eq_refl (le_n 3))
    as (H1 & H2 & _).
  split; [exact H1 | exact H2].
Defined.

(** ** [_cat4rot] *)

Lemma cat4rot_loop_2d (tpl : list ndarray) (n t : nat) :
  Forall (fun vl => shape vl = [n; t]) tpl ->
  exists tmp,
    cat4rot_loop tpl = inr tmp
    /\ length tmp = length tpl
    /\ Forall (fun v => shape v = [n; 1; t]%nat) tmp
    /\ forall i k l d,
        concatenate1_item tmp i k [l]
        = if (k <? length tpl)%nat then item (nth k tpl d) [i; l] else 0.
Proof.
  induction 1 as [| vl tpl Hvl Htpl IH].
  - exists []. split; [reflexivity | split; [reflexivity | split]];
      [constructor | intros i k l d; reflexivity].
  - destruct IH as (tmp & Et & Hl & Hs & Hi).
    cbn [cat4rot_loop]. unfold newaxis1 at 1. rewrite Hvl, Et.
    eexists. split; [reflexivity | split; [cbn; congruence | split]].
    + constructor; [reflexivity | exact Hs].
    + intros i k l d. cbn [concatenate1_item axis1 shape nth length].
      destruct k as [| k]; [reflexivity |].
      change (S k <? 1)%nat with false. cbn [Nat.sub item].
      rewrite Nat.sub_0_r, (Hi i k l d).
      change (S k <? S (length tpl))%nat with (k <? length tpl)%nat.
      reflexivity.
Qed.

Lemma axis1_sum (tmp : list ndarray) (n t : nat) :
  Forall (fun v => shape v = [n; 1; t]%nat) tmp ->
  list_sum (map axis1 tmp) = length tmp.
Proof.
  induction 1 as [| v tmp Hv _ IH]; [reflexivity |].
  cbn [map length].
  change (list_sum (axis1 v :: map axis1 tmp))
    with (axis1 v + list_sum (map axis1 tmp))%nat.
  rewrite IH. unfold axis1. rewrite Hv. reflexivity.
Qed.

(** X16: [_cat4rot] stacks two-dimensional arrays of one shape [(n, t)]
    along a new middle axis: for [k] of them the result has the shape
    [(n, k, t)] and its item [i, j, l] is the item [i, l] of the [j]-th
    array.  An empty tuple makes [np.concatenate] raise, and an array
    with fewer than two axes raises [IndexError]. *)
Theorem cat4rot_stacks (tpl : list ndarray) (n t : nat) :
  (tpl <> [] -> Forall (fun vl => shape vl = [n; t]) tpl ->
   exists out,
     _cat4rot tpl = inr out
     /\ shape out = [n; length tpl; t]
     /\ forall i j l d, (j < length tpl)%nat ->
          item out [i; j; l] = item (nth j tpl d) [i; l])
  /\ (exists msg, _cat4rot [] = inl (ConcatenateError msg))
  /\ (Exists (fun vl => (length (shape vl) < 2)%nat) tpl ->
      _cat4rot tpl = inl IndexError).
Proof.
  split; [| split].
  - intros Hne Hall.
    destruct (cat4rot_loop_2d tpl n t Hall) as (tmp & Et & Hl & Hs & Hi).
    unfold _cat4rot. rewrite Et.
    destruct tmp as [| a rest]; [destruct tpl; [contradiction | discriminate] |].
    unfold concatenate1.
    assert (Ha : shape a = [n; 1; t]%nat) by (inversion Hs; assumption).
    rewrite Ha.
    assert (Hok : forallb (fun b =>
                             match shape b with
                             | m0 :: _ :: tl' => bool_decide (m0 = n /\ tl' = [t])
                             | _ => false
                             end) rest = true).
    { apply forallb_forall. intros b Hb.
      assert (Hsb : shape b = [n; 1; t]%nat).
      { inversion Hs as [| ? ? _ Hr]. subst.
        rewrite Forall_forall in Hr. apply Hr.
        apply list_elem_of_In. exact Hb. }
      rewrite Hsb. apply bool_decide_eq_true_2. split; reflexivity. }
    rewrite Hok. eexists. split; [reflexivity | split].
    + cbn [shape]. rewrite (axis1_sum _ n t Hs), Hl. reflexivity.
    + intros i j l d Hj. cbn [item]. rewrite (Hi i j l d).
      apply Nat.ltb_lt in Hj. rewrite Hj. reflexivity.
  - eexists. reflexivity.
  - intros Hex. unfold _cat4rot.
    assert (E : cat4rot_loop tpl = inl IndexError).
    { induction Hex as [vl rest Hvl | vl rest _ IH].
      - cbn [cat4rot_loop]. unfold newaxis1.
        destruct (shape vl) as [| ? [| ? ?]]; cbn in Hvl; try lia; reflexivity.
      - cbn [cat4rot_loop]. destruct (newaxis1 vl) as [e | v] eqn:En.
        + unfold newaxis1 in En.
          destruct (shape vl) as [| ? [| ? ?]]; congruence.
        + rewrite IH. reflexivity. }
    rewrite E. reflexivity.
Qed.

Lemma cat4rot_stacks_witness :
  exists out,
    _cat4rot [np_array2 [[1; 2]]; np_array2 [[3; 4]]] = inr out
    /\ shape out = [1; 2; 2]%nat.
Proof.
  destruct (proj1 (cat4rot_stacks [np_array2 [[1; 2]]; np_array2 [[3; 4]]] 1 2))
    as (out & H1 & H2 & _).
  - discriminate.
  - repeat constructor.
  - exists out. split; [exact H1 | exact H2].
Defined.

(** ** Calls one after the other *)

(** X17: the forward chain.  On a beam-frame record with four channels
    and a 4 by 4 beam matrix, whose orientation series have the length of
    the time axis, a forward [beam2inst] followed by a forward
    [inst2earth] completes without [force] on the second call and ends
    in the earth frame; the fourth channel is then the error velocity
    that [beam2inst] computed from the four beams, which [inst2earth]
    has not touched. *)
Theorem forward_chain_completes (o : adp) (ms : string) (nk T : nat)
    (fx force : bool)
    (Hc : force = true
          \/ exists cs, props o !! "coord_sys" = Some (PStr cs)
                        /\ lower cs = "beam"%string)
    (HR : shape (beam2inst_rotmat (config o)) = [4; 4]%nat)
    (Hv : shape (vel o) = [4; nk; T]%nat)
    (Hd : forall d, props o !! "declination" = Some d ->
                    exists x, py_number d = inr x)
    (Hm : props o !! "inst_model" = Some (PStr ms))
    (Hr : length (roll (orient o)) = T)
    (Hp : length (pitch (orient o)) = T)
    (Hh : length (heading (orient o)) = T)
    (Hup : is_signature o = true ->
           existsb (fun u => negb (u =? 4)%Z) (orient_up (orient o)) = false)
    (Hbt : match bt_vel o with
           | None => True
           | Some bt => exists Cb, shape bt = [Cb; T] /\ (3 <= Cb)%nat
           end) :
  exists o1 o2,
    beam2inst false force o = (o1, inr tt)
    /\ inst2earth false fx false o1 = (o2, inr tt)
    /\ props o2 !! "coord_sys" = Some (PStr "earth")
    /\ shape (vel o2) = [4; nk; T]%nat
    /\ forall k l,
        item (vel o2) [3; k; l]%nat
        = rsum 4 (fun j => item (beam2inst_rotmat (config o)) [3; j]%nat
                           * item (vel o) [j; k; l]).
Proof.
  destruct (einsum_beam _ (vel o) nk T HR Hv) as (v1 & Ev1 & Hs1 & Hi1).
  set (o1 := set_props (<["coord_sys" := PStr "inst"]> (props o)) (set_vel v1 o)).
  assert (Hrun1 : beam2inst false force o = (o1, inr tt)).
  { rewrite beam2inst_unfold.
    rewrite (beam2inst_check_forward_ok force o Hc). cbn [snd].
    rewrite Ev1. reflexivity. }
  assert (Hk : forall k : string, k <> "coord_sys"%string ->
                 props o1 !! k = props o !! k).
  { intros k Hne. cbn [o1 set_props props]. apply lookup_insert_ne. congruence. }
  assert (Hcs1 : props o1 !! "coord_sys" = Some (PStr "inst"))
    by apply lookup_insert_eq.
  destruct (inst2earth_ok false fx false o1 ms 4 nk T) as [o2 Hrun2].
  - rewrite (inst2earth_check_forward o1 _ Hcs1). reflexivity.
  - intros d Hd'. apply Hd. rewrite <- Hk by discriminate. exact Hd'.
  - rewrite Hk by discriminate. exact Hm.
  - rewrite Hcs1. eexists. reflexivity.
  - exact Hr.
  - exact Hp.
  - exact Hh.
  - rewrite (is_signature_ext o o1) by (apply Hk; discriminate). exact Hup.
  - exact Hs1.
  - lia.
  - exact Hbt.
  - exists o1, o2. split; [exact Hrun1 | split; [exact Hrun2 |]].
    split; [exact (inst2earth_completed_tag _ _ _ _ _ Hrun2) |].
    destruct (inst2earth_inv _ _ _ _ _ Hrun2) as (oa & m & _ & Hda & Hra & Ha).
    destruct (inst2earth_declination_frame false o1) as (F1 & _).
    rewrite Hda in F1. cbn [fst] in F1.
    destruct (inst2earth_rotmat_inv _ _ _ Hra) as (_ & Hsm & _).
    destruct (inst2earth_apply_inv _ _ _ _ _ _ Hsm Ha)
      as (_ & _ & _ & A4 & A5 & _).
    split; [rewrite A4, F1; exact Hs1 |].
    intros k l. rewrite (A5 3%nat [k; l]) by lia. rewrite F1. apply Hi1.
Qed.

Lemma forward_chain_completes_witness :
  exists o1 o2,
    beam2inst false false four_beams = (o1, inr tt)
    /\ inst2earth false false false o1 = (o2, inr tt)
    /\ props o2 !! "coord_sys" = Some (PStr "earth").
Proof.
  destruct (forward_chain_completes four_beams "AWAC" 1 1 false false
              (or_intror (ex_intro _ "beam"%string (conj eq_refl eq_refl)))
              eq_refl eq_refl
              ltac:(intros d H; discriminate H)
              eq_refl eq_refl eq_refl eq_refl
              ltac:(intros H; reflexivity) I)
    as (o1 & o2 & H1 & H2 & H3 & _).
  exists o1, o2. split; [exact H1 | split; [exact H2 | exact H3]].
Defined.

(** The rows of the matrix of one time step are orthonormal too. *)
Lemma rot_entry_rows_orthonormal (h r p : R) (i k : nat) :
  (i < 3)%nat -> (k < 3)%nat ->
  rsum 3 (fun j => rot_entry i j h r p * rot_entry k j h r p)
  = if (i =? k)%nat then 1 else 0.
Proof.
  intros Hi Hk. rewrite rsum3.
  assert (H1 := sq_sin_cos h). assert (H2 := sq_sin_cos r).
  assert (H3 := sq_sin_cos p).
  unfold rot_entry.
  set (ch := cos h) in *. set (sh := sin h) in *.
  set (cr := cos r) in *. set (sr := sin r) in *.
  set (cp := cos p) in *. set (sp := sin p) in *.
  destruct i as [| [| [| i]]]; [| | | lia];
    (destruct k as [| [| [| k]]]; [| | | lia]);
    cbn [Nat.eqb]; nsatz.
Qed.

Lemma lower_earth_not_ship (cs : string) :
  lower cs = "earth"%string \/ lower cs = "enu"%string ->
  py_eq_str (PStr cs) "ship" = false.
Proof.
  intros H. cbn [py_eq_str]. destruct (String.eqb cs "ship") eqn:E; [| reflexivity].
  apply String.eqb_eq in E. subst cs. destruct H as [H | H]; discriminate H.
Qed.

(** X18: from the earth frame and back.  On an earth-frame record whose
    arrays fit together, whose declination (a number, if there is one)
    is absent or already in the heading, and on which the reverse call
    runs step by step, a reverse [inst2earth] call followed by a forward
    call (not in the fixed mode) completes and gives back the velocity
    it started from, in the frame named ['earth']. *)
Theorem inst2earth_reverse_forward (o : adp) (cs ms : string) (C nd T : nat)
    (fx force' : bool)
    (Hcs : props o !! "coord_sys" = Some (PStr cs))
    (Hearth : lower cs = "earth"%string \/ lower cs = "enu"%string)
    (Hmode : truthy (default (PBool fx) (props o !! "inst2earth:fixed")) = false)
    (Hd : forall d, props o !! "declination" = Some d ->
                    exists x, py_number d = inr x)
    (Hdecl : props o !! "declination" = None \/ declination_folded o = true)
    (Hm : props o !! "inst_model" = Some (PStr ms))
    (Hr : length (roll (orient o)) = T)
    (Hp : length (pitch (orient o)) = T)
    (Hh : length (heading (orient o)) = T)
    (Hup : is_signature o = true ->
           existsb (fun u => negb (u =? 4)%Z) (orient_up (orient o)) = false)
    (Hv : shape (vel o) = [C; nd; T]) (HC : (3 <= C)%nat)
    (Hbt : match bt_vel o with
           | None => True
           | Some bt => exists Cb, shape bt = [Cb; T] /\ (3 <= Cb)%nat
           end) :
  exists o1 o2,
    inst2earth true fx false o = (o1, inr tt)
    /\ inst2earth false false force' o1 = (o2, inr tt)
    /\ shape (vel o2) = shape (vel o)
    /\ (forall i d t, (t < T)%nat ->
          item (vel o2) [i; d; t] = item (vel o) [i; d; t])
    /\ props o2 !! "coord_sys" = Some (PStr "earth").
Proof.
  (* the reverse call *)
  destruct (inst2earth_ok true fx false o ms C nd T) as [o1 Hrun1];
    try assumption.
  { rewrite (inst2earth_check_reverse o cs Hcs).
    destruct Hearth as [-> | ->]; reflexivity. }
  { rewrite Hcs. eexists. reflexivity. }
  destruct (inst2earth_inv _ _ _ _ _ Hrun1) as (oa & m1 & _ & Hd1 & Hr1 & Ha1).
  rewrite inst2earth_declination_reverse in Hd1. injection Hd1 as <-.
  destruct (inst2earth_rotmat_inv _ _ _ Hr1) as (_ & Hs1 & _ & _ & Hi1).
  destruct (inst2earth_apply_inv _ _ _ _ _ _ Hs1 Ha1)
    as (A1 & A2 & A3 & A4 & A5 & A6 & A7).
  rewrite Hmode in A6. cbn [applied_rotation] in A6.
  assert (Hcs1 : props o1 !! "coord_sys" = Some (PStr "inst"))
    by (rewrite A3; apply lookup_insert_eq).
  assert (Hother : forall k : string,
             k <> "coord_sys"%string -> k <> "inst2earth:fixed"%string ->
             props o1 !! k = props o !! k).
  { intros k K1 K2. rewrite A3.
    rewrite lookup_insert_ne by congruence.
    apply lookup_delete_ne. congruence. }
  assert (Hsig1 : is_signature o1 = is_signature o)
    by (apply is_signature_ext, Hother; discriminate).
  (* the forward call adds no declination *)
  assert (Hskip : inst2earth_declination false o1 = (o1, inr tt)).
  { rewrite inst2earth_declination_eq.
    rewrite !Hother by discriminate.
    destruct Hdecl as [Hn | Hf].
    - rewrite Hn.
      rewrite bool_decide_eq_false_2 by (intros [? ?]; discriminate).
      reflexivity.
    - unfold declination_folded in Hf. rewrite Hf. cbn [negb].
      rewrite andb_false_r. reflexivity. }
  assert (Hc2 : inst2earth_check false force' o1 = (o1, inr tt)).
  { destruct force'; [reflexivity |].
    rewrite (inst2earth_check_forward o1 _ Hcs1). reflexivity. }
  assert (Hbt1 : match bt_vel o1 with
                 | None => True
                 | Some bt => exists Cb, shape bt = [Cb; T] /\ (3 <= Cb)%nat
                 end).
  { destruct (bt_vel o) as [bt |].
    - destruct A7 as (bt' & -> & Hsb & _). rewrite Hsb. exact Hbt.
    - rewrite A7. exact I. }
  destruct (inst2earth_ok false false force' o1 ms C nd T) as [o2 Hrun2];
    try assumption.
  { intros d Hd'. apply Hd. rewrite <- Hother by discriminate. exact Hd'. }
  { rewrite Hother by discriminate. exact Hm. }
  { rewrite Hcs1. eexists. reflexivity. }
  { rewrite A1. exact Hr. }
  { rewrite A1. exact Hp. }
  { rewrite A1. exact Hh. }
  { rewrite Hsig1, A1. exact Hup. }
  { rewrite A4. exact Hv. }
  destruct (inst2earth_inv _ _ _ _ _ Hrun2) as (ob & m2 & _ & Hd2 & Hr2 & Ha2).
  rewrite Hskip in Hd2. injection Hd2 as <-.
  destruct (inst2earth_rotmat_inv _ _ _ Hr2) as (_ & Hs2 & _ & _ & Hi2).
  destruct (inst2earth_apply_inv _ _ _ _ _ _ Hs2 Ha2)
    as (B1 & B2 & B3 & B4 & B5 & B6 & B7).
  cbn [truthy applied_rotation] in B6.
  (* both calls build the same matrices *)
  assert (Hts : tilt_suppressed o = false).
  { unfold tilt_suppressed. rewrite Hcs, (lower_earth_not_ship cs Hearth).
    rewrite andb_false_r. reflexivity. }
  assert (Hts1 : tilt_suppressed o1 = false).
  { unfold tilt_suppressed. rewrite Hcs1. cbn [py_eq_str].
    change (String.eqb "inst" "ship") with false.
    rewrite andb_false_r. reflexivity. }
  assert (Hsame : forall i j t, (t < T)%nat ->
             item m2 [i; j; t] = item m1 [i; j; t]).
  { intros i j t Ht. rewrite Hi2 by (rewrite A1, Hr; exact Ht).
    rewrite Hi1 by (rewrite Hr; exact Ht).
    unfold heading_rad, roll_rad, pitch_rad, looks_up.
    rewrite Hts, Hts1, Hsig1, A1, A2. reflexivity. }
  assert (Horth : forall t a b, (t < T)%nat -> (a < 3)%nat -> (b < 3)%nat ->
             rsum 3 (fun j => item m1 [a; j; t] * item m1 [b; j; t])
             = if (a =? b)%nat then 1 else 0).
  { intros t a b Ht Ha Hb.
    rewrite <- (rot_entry_rows_orthonormal (heading_rad o t) (roll_rad o t)
                  (pitch_rad o t) a b Ha Hb).
    rewrite !rsum3. rewrite !Hi1 by (rewrite Hr; exact Ht). reflexivity. }
  exists o1, o2. split; [exact Hrun1 | split; [exact Hrun2 |]].
  split; [rewrite B4, A4; reflexivity | split].
  - intros i d t Ht.
    destruct (Nat.lt_ge_cases i 3) as [Hi | Hi].
    + rewrite (B6 i d t Hi).
      transitivity
        (rsum 3 (fun j => item m1 [i; j; t]
                          * rsum 3 (fun k => item m1 [k; j; t]
                                             * item (vel o) [k; d; t]))).
      * rewrite !(rsum3 (fun j => _ * item (vel o1) _)).
        rewrite !(rsum3 (fun j => _ * rsum 3 _)).
        rewrite !Hsame by exact Ht.
        rewrite !A6 by lia. reflexivity.
      * apply (undo_rotation (fun a b => item m1 [b; a; t])
                 (fun k => item (vel o) [k; d; t]) i); [| exact Hi].
        intros a b. apply Horth. exact Ht.
    + rewrite (B5 i [d; t] Hi), (A5 i [d; t] Hi). reflexivity.
  - rewrite B3. apply lookup_insert_eq.
Qed.

Lemma inst2earth_reverse_forward_witness :
  exists o1 o2,
    inst2earth true true false earth_stepwise = (o1, inr tt)
    /\ inst2earth false false false o1 = (o2, inr tt)
    /\ item (vel o2) [0; 0; 0]%nat = item (vel earth_stepwise) [0; 0; 0]%nat.
Proof.
  destruct (inst2earth_reverse_forward earth_stepwise "ENU" "AWAC" 3 1 1
              true false eq_refl (or_intror eq_refl) eq_refl
              ltac:(intros d H; discriminate H) (or_introl eq_refl)
              eq_refl eq_refl eq_refl eq_refl
              ltac:(intros H; discriminate H) eq_refl (le_n 3) I)
    as (o1 & o2 & H1 & H2 & _ & H4 & _).
  exists o1, o2. split; [exact H1 | split; [exact H2 |]].
  apply H4. apply le_n.
Defined.

(** ** How the frame tag is spelled *)

(** X19: the frame checks do not read the tag alike.  A tag that is not
    a string makes the two checks that lower-case it (forward
    [beam2inst], reverse [inst2earth]) raise [AttributeError], and the
    two that compare it as it is raise [ValueError].  A tag that spells
    ['inst'] with a capital letter is rejected with [ValueError] by all
    four calls: the checks that accept ['inst'] compare it as it is,
    the checks that lower-case the tag look for another frame.  Nothing
    is changed in any of these cases. *)
Theorem frame_tag_spelling (o : adp) (v : pyval) (fx : bool)
    (Hcs : props o !! "coord_sys" = Some v) :
  ((forall s, v <> PStr s) ->
   beam2inst false false o = (o, inl AttributeError)
   /\ inst2earth true fx false o = (o, inl AttributeError)
   /\ (exists msg, beam2inst true false o = (o, inl (ValueError msg)))
   /\ (exists msg, inst2earth false fx false o = (o, inl (ValueError msg))))
  /\ (forall cs, v = PStr cs -> lower cs = "inst"%string ->
      cs <> "inst"%string ->
      forall reverse,
        (exists msg, beam2inst reverse false o = (o, inl (ValueError msg)))
        /\ (exists msg, inst2earth reverse fx false o
                        = (o, inl (ValueError msg)))).
Proof.
  split.
  - intros Hns.
    assert (Hl : py_lower v = inl AttributeError).
    { destruct v as [s | x | b]; [destruct (Hns s eq_refl) | |]; reflexivity. }
    assert (Hi : py_eq_str v "inst" = false).
    { destruct v as [s | x | b]; [destruct (Hns s eq_refl) | |]; reflexivity. }
    assert (Hsh : py_eq_str v "ship" = false).
    { destruct v as [s | x | b]; [destruct (Hns s eq_refl) | |]; reflexivity. }
    split; [| split; [| split]].
    + rewrite beam2inst_unfold.
      assert (Hc : beam2inst_check false false o = (o, inl AttributeError)).
      { unfold beam2inst_check, when. cbn [negb].
        unfold props_getitem, bind, get, lift, raise, ret.
        rewrite Hcs, Hl. reflexivity. }
      rewrite Hc. reflexivity.
    + unfold inst2earth. apply bind_raises.
      unfold inst2earth_check, when. cbn [negb].
      unfold props_getitem, bind, get, lift, raise, ret.
      rewrite Hcs, Hl. reflexivity.
    + rewrite beam2inst_unfold.
      assert (Hc : beam2inst_check true false o
                   = (o, inl (ValueError "The input must be in inst coordinates."))).
      { unfold beam2inst_check, when. cbn [negb].
        unfold props_getitem, bind, get, lift, raise, ret.
        rewrite Hcs, Hi. reflexivity. }
      rewrite Hc. eexists. reflexivity.
    + eexists. unfold inst2earth. apply bind_raises.
      rewrite (inst2earth_check_forward o v Hcs), Hi, Hsh. reflexivity.
  - intros cs -> Hl Hne reverse.
    assert (Hship : cs <> "ship"%string).
    { intros ->. discriminate Hl. }
    split.
    + apply (beam2inst_rejects o cs reverse Hcs).
      destruct reverse; [exact Hne | rewrite Hl; discriminate].
    + apply (inst2earth_rejects o cs reverse fx Hcs).
      destruct reverse; [rewrite Hl; split; discriminate | split; assumption].
Qed.

Lemma frame_tag_spelling_witness :
  beam2inst false false numeric_tag = (numeric_tag, inl AttributeError)
  /\ exists msg, inst2earth false false false capital_tag
                 = (capital_tag, inl (ValueError msg)).
Proof.
  split.
  - refine (proj1 (proj1 (frame_tag_spelling numeric_tag (PNum 1) false eq_refl) _)).
    intros s H. discriminate H.
  - refine (proj2 (proj2 (frame_tag_spelling capital_tag (PStr "INST") false
                            eq_refl) "INST"%string eq_refl eq_refl _ false)).
    intros H. discriminate H.
Defined.
